(** * Random walker on a plane with obstacles and portals

    A shallow embedding of [walker.py], [plane.py], [utils.py] and
    [simulation.py], and the properties of the simulation loop.

    Numbers.  Python mixes [int] and [float] here; both are modelled by the
    rationals [Q] (exact arithmetic), compared with [Qeq_bool] and [?=] the way
    Python compares numbers by value.  [float('inf')] is [None] in an
    [option Q].  The weights of a walker are [int]s, modelled by [Z]; the
    conversion of their total to a [float] in [random.choices] raises
    [OverflowError] beyond the largest double, and [get_next_move] models
    it.  Coordinates are taken within the range of a [float]:
    [get_distance] squares them with [**], which raises [OverflowError]
    when the square is beyond the largest double, and [Walker.get_distance]
    is the distance where it does not.

    Libraries.  [math.sqrt], [math.cos], [math.sin] and the two shapely
    operations the program calls ([LineString.intersection] and
    [Point.distance]) are not part of the repository: they are the fields of
    the class [Library], and every definition is parametric in it.

    Randomness and time.  The values drawn from [random] and read from
    [time.time()] are inputs of the model ([draw], [step_input],
    [run_input]).

    Exceptions.  Code that can raise returns a [result]. *)

From Stdlib Require Import String.
From Stdlib Require Import QArith Qabs ZArith List Bool Arith Lia Lqa.
From Stdlib Require Import Morphisms.
Import ListNotations.
Open Scope Q_scope.

(** ** Python exceptions *)

Inductive exn : Type :=
| ValueError
| AttributeError
| IndexError
| ZeroDivisionError
| OverflowError.

Inductive result (A : Type) : Type :=
| Ok (a : A)
| Raise (e : exn).

Arguments Ok {A} a.
Arguments Raise {A} e.

Definition bind {A B : Type} (m : result A) (k : A -> result B) : result B :=
  match m with
  | Ok a => k a
  | Raise e => Raise e
  end.

Notation "x <- m ;; k" := (bind m (fun x => k))
  (at level 61, m at next level, right associativity).

Definition returns {A : Type} (m : result A) : Prop := exists a, m = Ok a.

(** ** Numbers *)

Definition point : Type := (Q * Q)%type.

(** [a < b] on numbers. *)
Definition Qltb (a b : Q) : bool :=
  match a ?= b with
  | Lt => true
  | _ => false
  end.

(** [p == q] on tuples of two numbers. *)
Definition point_eqb (p q : point) : bool :=
  Qeq_bool (fst p) (fst q) && Qeq_bool (snd p) (snd q).

(** [d < min_distance] where [None] is [float('inf')]. *)
Definition lt_min (d : Q) (min_distance : option Q) : bool :=
  match min_distance with
  | None => true
  | Some m => Qltb d m
  end.

(** ** What the program takes from [math] and from shapely *)

(** The value of [path.intersection(line)]: empty, a single point, or a
    geometry without [.x] and [.y] (a [LineString] when the two segments
    overlap along a line). *)
Inductive geometry : Type :=
| GEmpty
| GPoint (p : point)
| GLine (a b : point).

Class Library : Type := {
(** [math.sqrt] *)
  sqrt : Q -> Q;
(** [math.cos], [math.sin] *)
  cos : Q -> Q;
  sin : Q -> Q;
(** [LineString([a, b]).intersection(LineString([c, d]))] *)
  intersection : point -> point -> point -> point -> geometry;
(** [Point(a).distance(Point(b))] *)
  distance : point -> point -> Q
}.

(** ** walker.py *)

Module Walker.

Definition NORMAL_WALKER : Z := 1.
Definition UNEVEN_STEP_WALKER : Z := 2.
Definition DISCRETE_WALKER : Z := 3.
Definition UNEVEN_DISTRIBUTION_WALKER : Z := 4.
Definition ACCEPTABLE_WALKER_TYPES : list Z :=
  [NORMAL_WALKER; UNEVEN_STEP_WALKER; DISCRETE_WALKER; UNEVEN_DISTRIBUTION_WALKER].

(** [t in s] for a collection of ints. *)
Definition mem (t : Z) (s : list Z) : bool := existsb (Z.eqb t) s.

Record t : Type := mk {
  x : Q;
  y : Q;
  steps : nat;
  path : list point;           (* oldest entry first; [append] adds at the end *)
  weights : list Z;
  walker_type : Z
}.

Definition default_weights : list Z := [1; 1; 1; 1; 1]%Z.

(** [Walker.__init__] *)
Definition init (walker_type : Z) (weights : list Z) : result t :=
  if negb (mem walker_type ACCEPTABLE_WALKER_TYPES)
  then Raise ValueError
  else Ok (mk 0 0 0 [(0, 0)] weights walker_type).

(** The values one call of [get_next_move] may draw: the angle of
    [random.uniform(0, 2*math.pi)], the length of
    [random.uniform(0.5, 1.5)], and the index of the element that
    [random.choice] or [random.choices] selects. *)
Record draw : Type := mk_draw {
  angle : Q;
  step_length : Q;
  choice : nat
}.

(** The conversion of an [int] to a [float] rounds to the nearest double,
    ties to even, and raises [OverflowError] when the int is beyond the
    largest double, that is from 2^1024 - 2^970 on in absolute value. *)
Definition FLOAT_LIMIT : Z := (2 ^ 1024 - 2 ^ 970)%Z.

Definition too_large_for_float (n : Z) : bool := (FLOAT_LIMIT <=? Z.abs n)%Z.

(** The element of a non-empty population an index selects. *)
Definition select (population : list point) (i : nat) : point :=
  nth (i mod length population) population (0, 0).

Section WithLibrary.
Context {L : Library}.

(** [Walker.get_next_move].  [random.choices] accumulates the weights,
    raises [ValueError] when their number differs from the size of the
    population, converts their total to a float ([cum_weights[-1] + 0.0]),
    which raises [OverflowError] for a total too large for a float, and
    raises [ValueError] when the total is not more than zero. *)
Definition get_next_move (w : t) (d : draw) : result point :=
  if (walker_type w =? NORMAL_WALKER)%Z then
    Ok (cos (angle d), sin (angle d))
  else if (walker_type w =? UNEVEN_STEP_WALKER)%Z then
    Ok (step_length d * cos (angle d), step_length d * sin (angle d))
  else if (walker_type w =? DISCRETE_WALKER)%Z then
    Ok (select [(0, 1); (0, -1); (1, 0); (-1, 0)] (choice d))
  else if (walker_type w =? UNEVEN_DISTRIBUTION_WALKER)%Z then
    let population := [(0, 1); (0, -1); (1, 0); (-1, 0); (- x w, - y w)] in
    if negb (length (weights w) =? length population)%nat
    then Raise ValueError
    else if too_large_for_float (fold_right Z.add 0%Z (weights w))
    then Raise OverflowError
    else if (fold_right Z.add 0 (weights w) <=? 0)%Z
    then Raise ValueError
    else Ok (select population (choice d))
  else Raise ValueError.

(** [Walker.get_distance], for coordinates whose squares are within the
    range of a float ([abs(x)**2] raises [OverflowError] beyond it). *)
Definition get_distance (w : t) : Q :=
  sqrt (Qabs (x w) ^ 2 + Qabs (y w) ^ 2).

End WithLibrary.

(** [Walker.move] *)
Definition move (w : t) (dx dy : Q) : t :=
  let x' := x w + dx in
  let y' := y w + dy in
  mk x' y' (S (steps w)) (path w ++ [(x', y')]) (weights w) (walker_type w).

(** [Walker.get_position] *)
Definition get_position (w : t) : point := (x w, y w).

(** [Walker.set_position] *)
Definition set_position (w : t) (x' y' : Q) : t :=
  mk x' y' (steps w) (path w) (weights w) (walker_type w).

Definition get_walker_type (w : t) : Z := walker_type w.
Definition get_steps (w : t) : nat := steps w.
Definition get_path (w : t) : list point := path w.

(** [Walker.reset_position] *)
Definition reset_position (w : t) : t :=
  mk 0 0 0 [(0, 0)] (weights w) (walker_type w).

(** [Walker.set_walker_type] *)
Definition set_walker_type (w : t) (walker_type : Z) : result t :=
  if negb (mem walker_type ACCEPTABLE_WALKER_TYPES)
  then Raise ValueError
  else Ok (mk (x w) (y w) (steps w) (path w) (weights w) walker_type).

End Walker.

(** ** plane.py *)

Module Plane.

Record Obstacle : Type := mk_obstacle {
  o_start : point;
  o_end : point
}.

Record Portal : Type := mk_portal {
  p_start : point;
  p_end : point;
  p_destination : point
}.

(** The objects [check_intersection] can hand back. *)
Inductive object : Type :=
| AnObstacle (o : Obstacle)
| APortal (p : Portal).

Definition get_start (o : object) : point :=
  match o with
  | AnObstacle o => o_start o
  | APortal p => p_start p
  end.

Definition get_end (o : object) : point :=
  match o with
  | AnObstacle o => o_end o
  | APortal p => p_end p
  end.

(** [get_destination]: only a [Portal] has it. *)
Definition get_destination (o : object) : result point :=
  match o with
  | AnObstacle _ => Raise AttributeError
  | APortal p => Ok (p_destination p)
  end.

(** The walkers attached to the plane are not modelled: nothing reads
    them. *)
Record t : Type := mk {
  obstacles : list Obstacle;
  portals : list Portal
}.

Definition empty : t := mk [] [].

Definition add_obstacle (pl : t) (o : Obstacle) : t :=
  mk (obstacles pl ++ [o]) (portals pl).

Definition add_portal (pl : t) (p : Portal) : t :=
  mk (obstacles pl) (portals pl ++ [p]).

(** What [check_intersection] returns: the next position, or the pair of a
    type string and an object. *)
Inductive outcome : Type :=
| Position (p : point)
| Tagged (intersected_type : string) (intersected_object : object).

(** The three locals of [check_intersection]: [min_distance], and
    [intersected_type] with [intersected_object] (both [None] together). *)
Definition scan : Type := (option Q * option (string * object))%type.

Section WithLibrary.
Context {L : Library}.

(** The body of both loops of [check_intersection], for one segment. *)
Definition visit (current_position next_position : point)
           (intersected_type : string) (acc : scan) (o : object) : result scan :=
  match intersection current_position next_position (get_start o) (get_end o) with
  | GEmpty => Ok acc
  | GPoint p =>
      let d := distance current_position p in
      if lt_min d (fst acc)
      then Ok (Some d, Some (intersected_type, o))
      else Ok acc
  | GLine _ _ => Raise AttributeError      (* [intersection.x] *)
  end.

Fixpoint visit_all (current_position next_position : point)
         (intersected_type : string) (acc : scan) (l : list object) : result scan :=
  match l with
  | [] => Ok acc
  | o :: l' =>
      acc' <- visit current_position next_position intersected_type acc o ;;
      visit_all current_position next_position intersected_type acc' l'
  end.

(** [Plane.check_intersection] *)
Definition check_intersection (pl : t) (current_position next_position : point)
  : result outcome :=
  acc <- visit_all current_position next_position "obstacle"%string (None, None)
           (map AnObstacle (obstacles pl)) ;;
  acc <- visit_all current_position next_position "portal"%string acc
           (map APortal (portals pl)) ;;
  match snd acc with
  | None => Ok (Position next_position)
  | Some (intersected_type, intersected_object) =>
      Ok (Tagged intersected_type intersected_object)
  end.

End WithLibrary.

End Plane.

(** ** utils.py *)

Module Utils.

Definition AMOUNT_OF_WEIGHTS : nat := 5.
Definition UP : point := (0, 1).
Definition DOWN : point := (0, -1).
Definition RIGHT : point := (1, 0).
Definition LEFT : point := (-1, 0).

(** [not isinstance(intersection, tuple) or
     not isinstance(intersection[1], Obstacle)]: the outcome is always a
    tuple, so the test fails exactly on a pair holding an [Obstacle]. *)
Definition not_an_obstacle (intersection : Plane.outcome) : bool :=
  match intersection with
  | Plane.Position _ => true
  | Plane.Tagged _ (Plane.AnObstacle _) => false
  | Plane.Tagged _ (Plane.APortal _) => true
  end.

Section WithLibrary.
Context {L : Library}.

(** One of the two [for] loops of [has_possible_moves], over the new
    positions it tries: [True] at the first one that is not an obstacle. *)
Fixpoint try_positions (pl : Plane.t) (current_position : point)
         (new_positions : list point) : result bool :=
  match new_positions with
  | [] => Ok false
  | new_position :: rest =>
      intersection <- Plane.check_intersection pl current_position new_position ;;
      if not_an_obstacle intersection
      then Ok true
      else try_positions pl current_position rest
  end.

(** The new positions of the first loop. *)
Definition fixed_positions (w : Walker.t) : list point :=
  let current_position := Walker.get_position w in
  let possible_moves :=
    [UP; DOWN; RIGHT; LEFT;
     (- fst (Walker.get_position w), - snd (Walker.get_position w))] in
  map (fun move => (fst current_position + fst move, snd current_position + snd move))
      possible_moves.

(** The new positions of the second loop; [angles i] is the angle drawn at
    its iteration [i]. *)
Definition random_positions (w : Walker.t) (angles : nat -> Q) : list point :=
  let current_position := Walker.get_position w in
  map (fun i => (fst current_position + cos (angles i),
                 snd current_position + sin (angles i)))
      (seq 0 100).

(** [has_possible_moves] *)
Definition has_possible_moves (w : Walker.t) (pl : Plane.t) (angles : nat -> Q)
  : result bool :=
  let current_position := Walker.get_position w in
  found <- try_positions pl current_position (fixed_positions w) ;;
  if found then Ok true
  else if Walker.mem (Walker.get_walker_type w) [1; 2]%Z
  then try_positions pl current_position (random_positions w angles)
  else Ok false.

End WithLibrary.

(** [parse_weights], after the string has been split and converted. *)
Definition parse_weights (weights : list Z) : result (list Z) :=
  if negb (length weights =? AMOUNT_OF_WEIGHTS)%nat
  then Raise ValueError
  else Ok weights.

End Utils.

(** ** simulation.py *)

Module Simulation.

(** [int] to number. *)
Definition of_nat (n : nat) : Q := inject_Z (Z.of_nat n).

(** [a / b] *)
Definition div (a b : Q) : result Q :=
  if Qeq_bool b 0 then Raise ZeroDivisionError else Ok (a / b).

(** [l[-k]] for [k >= 1] *)
Definition from_end {A : Type} (l : list A) (k : nat) : result A :=
  if (length l <? k)%nat then Raise IndexError
  else match nth_error l (length l - k) with
       | Some a => Ok a
       | None => Raise IndexError
       end.

(** The fields of [args] that [run_simulation] reads.  For [portals] and
    [obstacles], [None] and the empty list are both falsy and both add
    nothing to the plane. *)
Record Namespace : Type := mk_args {
  walker_type : Z;
  steps : Z;
  simulations : Z;
  n_steps : Z;
  portals : list (point * point * point);
  obstacles : list (point * point);
  weights : option (list Z)
}.

(** The dictionary appended to [simulation_stats] at each step. *)
Record step_stats : Type := mk_step_stats {
  avg_distance_from_x_axis : Q;
  avg_distance_from_y_axis : Q;
  avg_distance_from_origin : Q
}.

(** The dictionary appended to [multi_simulation_stats] at each run. *)
Record run_stats : Type := mk_run_stats {
  number_of_steps_to_exit : nat;
  time_to_exit : option Q;
  number_of_times_crossed_y_axis : nat;
  avg_distance_from_origin_after_n_steps : Q;
  avg_distance_from_x_axis_after_n_steps : Q;
  avg_distance_from_y_axis_after_n_steps : Q;
  number_of_unsuccessful_moves : nat
}.

Definition run_entry : Type := (nat * run_stats * list (nat * step_stats))%type.

(** The totals over the runs. *)
Record totals : Type := mk_totals {
  total_distance_from_origin : Q;
  total_exit_time : Q;
  total_distance_from_x_axis : Q;
  total_distance_from_y_axis : Q;
  total_steps_to_exit : nat;
  total_y_axis_crosses : nat;
  total_unsuccessful_moves : nat
}.

(** The walker and the locals of one run. *)
Record locals : Type := mk_locals {
  walker : Walker.t;
  simulation_stats : list (nat * step_stats);
  simulation_distance_from_origin : Q;
  simulation_exit_time : option Q;
  simulation_distance_from_x_axis : Q;
  simulation_distance_from_y_axis : Q;
  simulation_y_axis_cross_count : nat;
  simulation_steps_to_exit : nat;
  simulation_unsuccessful_moves : nat
}.

Definition state : Type := (locals * totals)%type.

(** What one iteration of the step loop reads from outside: the angles
    [has_possible_moves] draws, the draw of [get_next_move], and the value of
    [time.time()] on line 89. *)
Record step_input : Type := mk_step_input {
  angles : nat -> Q;
  next_draw : Walker.draw;
  now : Q
}.

(** What one run reads from outside: [time.time()] on line 42 and the input
    of each step. *)
Record run_input : Type := mk_run_input {
  enter_time : Q;
  at_step : nat -> step_input
}.

Definition is_none {A : Type} (o : option A) : bool :=
  match o with
  | None => true
  | Some _ => false
  end.

Definition set_walker (l : locals) (w : Walker.t) : locals :=
  mk_locals w (simulation_stats l) (simulation_distance_from_origin l)
    (simulation_exit_time l) (simulation_distance_from_x_axis l)
    (simulation_distance_from_y_axis l) (simulation_y_axis_cross_count l)
    (simulation_steps_to_exit l) (simulation_unsuccessful_moves l).

Definition set_unsuccessful_moves (l : locals) (n : nat) : locals :=
  mk_locals (walker l) (simulation_stats l) (simulation_distance_from_origin l)
    (simulation_exit_time l) (simulation_distance_from_x_axis l)
    (simulation_distance_from_y_axis l) (simulation_y_axis_cross_count l)
    (simulation_steps_to_exit l) n.

Definition set_stats (l : locals) (s : list (nat * step_stats)) : locals :=
  mk_locals (walker l) s (simulation_distance_from_origin l)
    (simulation_exit_time l) (simulation_distance_from_x_axis l)
    (simulation_distance_from_y_axis l) (simulation_y_axis_cross_count l)
    (simulation_steps_to_exit l) (simulation_unsuccessful_moves l).

(** Lines 28-36: the plane of the session. *)
Definition build_plane (args : Namespace) : Plane.t :=
  let pl := fold_left
              (fun pl '(start, end_, destination) =>
                 Plane.add_portal pl (Plane.mk_portal start end_ destination))
              (portals args) Plane.empty in
  fold_left
    (fun pl '(start, end_) => Plane.add_obstacle pl (Plane.mk_obstacle start end_))
    (obstacles args) pl.

Section WithLibrary.
Context {L : Library}.

(** Lines 61-73: draw the next move, test it, and apply the outcome to the
    walker.  What [get_next_move] returns is passed as it is to
    [check_intersection], as the next position, and to [move], as the
    displacement. *)
Definition resolve (pl : Plane.t) (d : Walker.draw) (l : locals) : result locals :=
  let previous_position := Walker.get_position (walker l) in
  next_position <- Walker.get_next_move (walker l) d ;;
  intersection <- Plane.check_intersection pl previous_position next_position ;;
  match intersection with
  | Plane.Tagged intersected_type intersected_object =>
      if String.eqb intersected_type "portal"%string then
        destination <- Plane.get_destination intersected_object ;;
        Ok (set_walker l
              (Walker.set_position (walker l) (fst destination) (snd destination)))
      else
        Ok (set_unsuccessful_moves l (simulation_unsuccessful_moves l + 1))
  | Plane.Position p =>
      Ok (set_walker l (Walker.move (walker l) (fst p) (snd p)))
  end.

(** Lines 83-85: the test that the y-axis was crossed, with the
    short-circuit evaluation of [or] and [and]. *)
Definition crossed_y_axis (previous_position position : point) (w : Walker.t)
  : result bool :=
  if Qltb (fst previous_position * fst position) 0 then Ok true
  else if Qeq_bool (fst previous_position * fst position) 0 then
    before <- from_end (Walker.get_path w) 2 ;;
    Ok (negb (Qeq_bool (fst previous_position * fst before) 0))
  else Ok false.

(** Lines 76-95: the accounting of a step, done when the position
    changed. *)
Definition account (args : Namespace) (enter : Q) (step : nat) (inp : step_input)
           (previous_position : point) (s : state) : result state :=
  let (l, t) := s in
  let w := walker l in
  if negb (point_eqb (Walker.get_position w) previous_position) then
    let distance_from_origin :=
      simulation_distance_from_origin l + Walker.get_distance w in
    let position := Walker.get_position w in
    let distance_from_x_axis :=
      simulation_distance_from_x_axis l + Qabs (snd position) in
    let distance_from_y_axis :=
      simulation_distance_from_y_axis l + Qabs (fst position) in
    crossed <- crossed_y_axis previous_position position w ;;
    let y_axis_cross_count :=
      if crossed then (simulation_y_axis_cross_count l + 1)%nat
      else simulation_y_axis_cross_count l in
    let exits :=
      is_none (simulation_exit_time l) && Qltb 10 (Walker.get_distance w) in
    let exit_time :=
      if exits then Some (now inp - enter) else simulation_exit_time l in
    let steps_to_exit :=
      if exits then Walker.get_steps w else simulation_steps_to_exit l in
    let t' :=
      if (n_steps args =? Z.of_nat (step + 1))%Z then
        mk_totals (total_distance_from_origin t + distance_from_origin)
          (total_exit_time t)
          (total_distance_from_x_axis t + distance_from_x_axis)
          (total_distance_from_y_axis t + distance_from_y_axis)
          (total_steps_to_exit t) (total_y_axis_crosses t)
          (total_unsuccessful_moves t)
      else t in
    Ok (mk_locals w (simulation_stats l) distance_from_origin exit_time
          distance_from_x_axis distance_from_y_axis y_axis_cross_count
          steps_to_exit (simulation_unsuccessful_moves l), t')
  else Ok s.

(** Lines 97-105: the record of the step. *)
Definition record_step (step : nat) (l : locals) : result locals :=
  avg_x <- div (simulation_distance_from_x_axis l) (of_nat (step + 1)) ;;
  avg_y <- div (simulation_distance_from_y_axis l) (of_nat (step + 1)) ;;
  avg_o <- div (simulation_distance_from_origin l) (of_nat (step + 1)) ;;
  Ok (set_stats l
        (simulation_stats l ++ [((step + 1)%nat, mk_step_stats avg_x avg_y avg_o)])).

(** Lines 58-105: one iteration of the step loop; [None] is [break]. *)
Definition iteration (args : Namespace) (pl : Plane.t) (enter : Q) (step : nat)
           (inp : step_input) (s : state) : result (option state) :=
  possible <- Utils.has_possible_moves (walker (fst s)) pl (angles inp) ;;
  if negb possible then Ok None
  else
    let previous_position := Walker.get_position (walker (fst s)) in
    l <- resolve pl (next_draw inp) (fst s) ;;
    s' <- account args enter step inp previous_position (l, snd s) ;;
    l' <- record_step step (fst s') ;;
    Ok (Some (l', snd s')).

(** Lines 57-105: [for step in range(...)], from [step] on, [count]
    iterations at most. *)
Fixpoint step_loop (args : Namespace) (pl : Plane.t) (ri : run_input)
         (count step : nat) (s : state) : result state :=
  match count with
  | O => Ok s
  | S count' =>
      r <- iteration args pl (enter_time ri) step (at_step ri step) s ;;
      match r with
      | None => Ok s
      | Some s' => step_loop args pl ri count' (S step) s'
      end
  end.

(** Lines 50-53: the walker of a run. *)
Definition new_walker (args : Namespace) : result Walker.t :=
  match weights args with
  | Some ws =>
      if (walker_type args =? 4)%Z
      then Walker.init (walker_type args) ws
      else Walker.init (walker_type args) Walker.default_weights
  | None => Walker.init (walker_type args) Walker.default_weights
  end.

Definition new_locals (w : Walker.t) : locals :=
  mk_locals w [] 0 None 0 0 0 0 0.

(** Lines 40-123: run [i] of the session. *)
Definition one_run (args : Namespace) (pl : Plane.t) (i : nat) (ri : run_input)
           (acc : totals * list run_entry) : result (totals * list run_entry) :=
  let (t, multi_simulation_stats) := acc in
  w <- new_walker args ;;
  s <- step_loop args pl ri (Z.to_nat (steps args)) 0 (new_locals w, t) ;;
  let (l, t) := s in
  let t' :=
    mk_totals (total_distance_from_origin t)
      (total_exit_time t +
       match simulation_exit_time l with Some e => e | None => 0 end)
      (total_distance_from_x_axis t) (total_distance_from_y_axis t)
      (total_steps_to_exit t + simulation_steps_to_exit l)
      (total_y_axis_crosses t + simulation_y_axis_cross_count l)
      (total_unsuccessful_moves t + simulation_unsuccessful_moves l) in
  avg_o <- div (total_distance_from_origin t') (of_nat (i + 1)) ;;
  avg_x <- div (total_distance_from_x_axis t') (of_nat (i + 1)) ;;
  avg_y <- div (total_distance_from_y_axis t') (of_nat (i + 1)) ;;
  Ok (t',
      multi_simulation_stats ++
      [((i + 1)%nat,
        mk_run_stats (simulation_steps_to_exit l) (simulation_exit_time l)
          (simulation_y_axis_cross_count l) avg_o avg_x avg_y
          (total_unsuccessful_moves t'),
        simulation_stats l)]).

(** Lines 38-123: [for i in range(...)], from [i] on. *)
Fixpoint run_loop (args : Namespace) (pl : Plane.t) (inputs : nat -> run_input)
         (count i : nat) (acc : totals * list run_entry)
  : result (totals * list run_entry) :=
  match count with
  | O => Ok acc
  | S count' =>
      acc' <- one_run args pl i (inputs i) acc ;;
      run_loop args pl inputs count' (S i) acc'
  end.

Definition no_totals : totals := mk_totals 0 0 0 0 0 0 0.

(** Lines 125-133: the numbers printed at the end. *)
Definition summary (args : Namespace) (t : totals) : result (list Q) :=
  let n := inject_Z (steps args * simulations args) in
  let k := inject_Z (simulations args) in
  a <- div (total_distance_from_origin t) n ;;
  b <- div (total_distance_from_x_axis t) n ;;
  c <- div (total_distance_from_y_axis t) n ;;
  d <- div (of_nat (total_unsuccessful_moves t)) k ;;
  if (1 <? simulations args)%Z then
    e <- div (of_nat (total_steps_to_exit t)) k ;;
    f <- div (total_exit_time t) k ;;
    g <- div (of_nat (total_y_axis_crosses t)) k ;;
    Ok [a; b; c; d; e; f; g]
  else Ok [a; b; c; d].

(** [run_simulation]: the list it returns, with the numbers it prints. *)
Definition run_simulation (args : Namespace) (inputs : nat -> run_input)
  : result (list run_entry * list Q) :=
  let pl := build_plane args in
  r <- run_loop args pl inputs (Z.to_nat (simulations args)) 0 (no_totals, []) ;;
  printed <- summary args (fst r) ;;
  Ok (snd r, printed).

End WithLibrary.

End Simulation.

(** ** A computable instance of the libraries

    Exact geometry on the rationals, used to run the program on concrete
    inputs.  The theorems below hold for every [Library]. *)

Module Reference.

(** The square root, exact on the squares of rationals and rounded down to
    a multiple of the denominator's inverse elsewhere. *)
Definition sqrt (q : Q) : Q :=
  let r := Qred q in
  Z.sqrt (Qnum r * Z.pos (Qden r)) # Qden r.

(** An angle is given by [t], the tangent of its half: the point
    [(cos, sin)] is on the unit circle exactly. *)
Definition cos (t : Q) : Q := (1 - t * t) / (1 + t * t).
Definition sin (t : Q) : Q := (2 * t) / (1 + t * t).

Definition cross (u v : point) : Q := fst u * snd v - snd u * fst v.
Definition dot (u v : point) : Q := fst u * fst v + snd u * snd v.
Definition sub (u v : point) : point := (fst u - fst v, snd u - snd v).
Definition along (a r : point) (k : Q) : point :=
  (Qred (fst a + k * fst r), Qred (snd a + k * snd r)).
Definition Qleb (a b : Q) : bool := Qle_bool a b.
Definition Qmin' (a b : Q) : Q := if Qleb a b then a else b.
Definition Qmax' (a b : Q) : Q := if Qleb a b then b else a.

(** The intersection of the segments [a b] and [c d]. *)
Definition intersection (a b c d : point) : geometry :=
  let r := sub b a in
  let s := sub d c in
  let qp := sub c a in
  let rxs := cross r s in
  if negb (Qeq_bool rxs 0) then
    let t := cross qp s / rxs in
    let u := cross qp r / rxs in
    if Qleb 0 t && Qleb t 1 && Qleb 0 u && Qleb u 1
    then GPoint (along a r t) else GEmpty
  else if negb (Qeq_bool (cross qp r) 0) then GEmpty
  else if Qeq_bool (dot r r) 0 then
    (* the first segment is the single point [a] *)
    if Qeq_bool (dot s s) 0 then
      if point_eqb a c then GPoint (along a r 0) else GEmpty
    else
      let k := dot (sub a c) s in
      if Qeq_bool (cross (sub a c) s) 0 && Qleb 0 k && Qleb k (dot s s)
      then GPoint (along a r 0) else GEmpty
  else
    (* both on one line: the overlap of [0, 1] and [t0, t1] *)
    let t0 := dot qp r / dot r r in
    let t1 := t0 + dot s r / dot r r in
    let lo := Qmax' 0 (Qmin' t0 t1) in
    let hi := Qmin' 1 (Qmax' t0 t1) in
    if Qltb hi lo then GEmpty
    else if Qeq_bool lo hi then GPoint (along a r lo)
    else GLine (along a r lo) (along a r hi).

Definition distance (a b : point) : Q :=
  sqrt (dot (sub a b) (sub a b)).

Definition library : Library :=
  Build_Library sqrt cos sin intersection distance.

End Reference.

(** Concrete planes, walkers and inputs, run with [Reference.library]. *)
Module Examples.

(** A wall, or a portal to (10,10), across the line x = 1/2. *)
Definition wall : Plane.t :=
  Plane.mk [Plane.mk_obstacle (1 # 2, -1) (1 # 2, 1)] [].
Definition gate : Plane.Portal := Plane.mk_portal (1 # 2, -1) (1 # 2, 1) (10, 10).
Definition gated : Plane.t := Plane.mk [] [gate].

(** A discrete walker at the origin, and one that has moved up once. *)
Definition fresh : Walker.t := Walker.mk 0 0 0 [(0, 0)] Walker.default_weights 3.
Definition moved_up : Walker.t := Walker.move fresh 0 1.

(** Steps of a discrete walker, by the index [random.choice] selects. *)
Definition go (choice : nat) : Simulation.step_input :=
  Simulation.mk_step_input (fun _ => 0) (Walker.mk_draw 0 1 choice) 0.
Definition up : Simulation.step_input := go 0.
Definition down : Simulation.step_input := go 1.
Definition right : Simulation.step_input := go 2.
Definition left : Simulation.step_input := go 3.

Definition args (steps n_steps : Z) (pl : Plane.t) : Simulation.Namespace :=
  Simulation.mk_args 3 steps 1 n_steps
    (map (fun p => (Plane.p_start p, Plane.p_end p, Plane.p_destination p))
         (Plane.portals pl))
    (map (fun o => (Plane.o_start o, Plane.o_end o)) (Plane.obstacles pl))
    None.

(** The run of a fresh discrete walker over the given steps. *)
Definition run (pl : Plane.t) (n_steps : Z) (inputs : list Simulation.step_input)
  : result Simulation.state :=
  Simulation.step_loop (L := Reference.library)
    (args (Z.of_nat (length inputs)) n_steps pl) pl
    (Simulation.mk_run_input 0 (fun k => nth k inputs up))
    (length inputs) 0 (Simulation.new_locals fresh, Simulation.no_totals).

Definition path_of (r : result Simulation.state) : option (list point) :=
  match r with
  | Ok (l, _) => Some (Walker.get_path (Simulation.walker l))
  | Raise _ => None
  end.

Definition position_of (r : result Simulation.state) : option point :=
  match r with
  | Ok (l, _) => Some (Walker.get_position (Simulation.walker l))
  | Raise _ => None
  end.

Definition state_of (r : result Simulation.state) : Simulation.state :=
  match r with
  | Ok s => s
  | Raise _ => (Simulation.new_locals fresh, Simulation.no_totals)
  end.


End Examples.

(** * Properties *)

Definition raises {A : Type} (m : result A) : Prop := exists e, m = Raise e.

(** ** Numbers and exceptions *)

Lemma Qltb_lt (a b : Q) : Qltb a b = true <-> a < b.
Proof.
  unfold Qltb. rewrite Qlt_alt. destruct (a ?= b); intuition congruence.
Qed.

Lemma Qltb_ge (a b : Q) : Qltb a b = false <-> b <= a.
Proof.
  destruct (Qltb a b) eqn:E.
  - apply Qltb_lt in E. split; [discriminate | intro; exfalso; lra].
  - split; [intros _ | reflexivity].
    apply Qnot_lt_le. intro H. apply Qltb_lt in H. congruence.
Qed.

Lemma Qeq_bool_false (a b : Q) : Qeq_bool a b = false <-> ~ a == b.
Proof.
  split.
  - intros E H. apply Qeq_bool_iff in H. congruence.
  - intro H. destruct (Qeq_bool a b) eqn:E; [|reflexivity].
    apply Qeq_bool_iff in E. contradiction.
Qed.

Lemma point_eqb_refl (p : point) : point_eqb p p = true.
Proof.
  unfold point_eqb. rewrite !(proj2 (Qeq_bool_iff _ _)); reflexivity.
Qed.

Lemma div_of_nat_succ (a : Q) (n : nat) :
  Simulation.div a (Simulation.of_nat (n + 1)) = Ok (a / Simulation.of_nat (n + 1)).
Proof.
  unfold Simulation.div.
  replace (Qeq_bool (Simulation.of_nat (n + 1)) 0) with false; [reflexivity|].
  symmetry. apply Qeq_bool_false. unfold Simulation.of_nat, Qeq.
  cbn [Qnum Qden inject_Z]. lia.
Qed.

(** ** The walker *)

Definition moves_from (w : Walker.t) (moves : list (Q * Q)) : Walker.t :=
  fold_left (fun w m => Walker.move w (fst m) (snd m)) moves w.

(** The invariant of the data model: one path entry per step after the
    origin, and the position is the last of them. *)
Definition path_invariant (w : Walker.t) : Prop :=
  length (Walker.path w) = (Walker.steps w + 1)%nat /\
  exists earlier, Walker.path w = earlier ++ [Walker.get_position w].

Lemma init_ok (walker_type : Z) (weights : list Z) :
  In walker_type Walker.ACCEPTABLE_WALKER_TYPES ->
  Walker.init walker_type weights = Ok (Walker.mk 0 0 0 [(0, 0)] weights walker_type).
Proof.
  intro H. unfold Walker.init.
  replace (Walker.mem walker_type Walker.ACCEPTABLE_WALKER_TYPES) with true;
    [reflexivity|].
  symmetry. apply existsb_exists. exists walker_type. split; [assumption|].
  apply Z.eqb_refl.
Qed.

Lemma init_raises (walker_type : Z) (weights : list Z) :
  ~ In walker_type Walker.ACCEPTABLE_WALKER_TYPES ->
  Walker.init walker_type weights = Raise ValueError.
Proof.
  intro H. unfold Walker.init.
  destruct (Walker.mem walker_type Walker.ACCEPTABLE_WALKER_TYPES) eqn:E;
    [|reflexivity].
  apply existsb_exists in E. destruct E as (k & Hin & Hk).
  apply Z.eqb_eq in Hk. subst k. contradiction.
Qed.

Lemma path_invariant_init (walker_type : Z) (weights : list Z) :
  path_invariant (Walker.mk 0 0 0 [(0, 0)] weights walker_type).
Proof.
  split; [reflexivity|]. exists []. reflexivity.
Qed.

Lemma path_invariant_move (w : Walker.t) (dx dy : Q) :
  length (Walker.path w) = (Walker.steps w + 1)%nat ->
  path_invariant (Walker.move w dx dy).
Proof.
  intro H. split.
  - simpl. rewrite length_app, H. simpl. lia.
  - exists (Walker.path w). reflexivity.
Qed.

Lemma path_invariant_moves (moves : list (Q * Q)) :
  forall w, path_invariant w -> path_invariant (moves_from w moves).
Proof.
  induction moves as [|m moves IH]; intros w Hw; simpl.
  - assumption.
  - apply IH. apply path_invariant_move. apply Hw.
Qed.

(** C2.  A walker of any of the four kinds is constructed, and from
    construction on, after any sequence of moves committed by [move], the
    path holds one entry more than the step count and its last entry is the
    current position. *)
Theorem walker_path_length_and_last_entry :
  forall (walker_type : Z) (weights : list Z) (moves : list (Q * Q)),
    In walker_type [1; 2; 3; 4]%Z ->
    exists w,
      Walker.init walker_type weights = Ok w /\
      let w' := moves_from w moves in
      length (Walker.get_path w') = (Walker.get_steps w' + 1)%nat /\
      exists earlier,
        Walker.get_path w' = earlier ++ [Walker.get_position w'].
Proof.
  intros walker_type weights moves Hkind.
  eexists. split.
  - apply init_ok. exact Hkind.
  - apply (path_invariant_moves moves). apply path_invariant_init.
Qed.

Lemma walker_path_length_and_last_entry_witness :
  exists w,
    Walker.init 3 Walker.default_weights = Ok w /\
    let w' := moves_from w [(1, 0); (0, 1); (-1, 0)] in
    length (Walker.get_path w') = (Walker.get_steps w' + 1)%nat /\
    exists earlier, Walker.get_path w' = earlier ++ [Walker.get_position w'].
Proof.
  apply (walker_path_length_and_last_entry 3 Walker.default_weights
           [(1, 0); (0, 1); (-1, 0)]).
  simpl. auto.
Defined.

(** ** Construction *)

Definition invalid_walker_kind (walker_type : Z) : Prop :=
  ~ In walker_type [1; 2; 3; 4]%Z.

Definition malformed_weight_count (weights : list Z) : Prop :=
  length weights <> Utils.AMOUNT_OF_WEIGHTS.

(** C10 as stated fails: a walker of a valid kind is constructed with three
    weights, which is a malformed weight count. *)
Lemma construction_accepts_malformed_weight_count :
  ~ (raises (Walker.init 3 [1; 2; 3]%Z) <->
     invalid_walker_kind 3 \/ malformed_weight_count [1; 2; 3]%Z).
Proof.
  intros [_ H].
  destruct H as [e He].
  - right. unfold malformed_weight_count. simpl. discriminate.
  - discriminate He.
Qed.

(** C10, amended.  Constructing a walker raises exactly when the walker kind
    is outside the four accepted variants, whatever the weights; with a
    valid kind it yields position (0,0), step count 0 and path [(0,0)], and
    keeps the weights as given.  The weight count is checked by
    [parse_weights], before construction. *)
Theorem construction_raises_iff_invalid_kind :
  forall (walker_type : Z) (weights : list Z),
    (raises (Walker.init walker_type weights) <-> invalid_walker_kind walker_type) /\
    (Walker.init walker_type weights = Raise ValueError \/
     Walker.init walker_type weights
       = Ok (Walker.mk 0 0 0 [(0, 0)] weights walker_type)) /\
    (~ invalid_walker_kind walker_type ->
     Walker.init walker_type weights
       = Ok (Walker.mk 0 0 0 [(0, 0)] weights walker_type)) /\
    (raises (Utils.parse_weights weights) <-> malformed_weight_count weights).
Proof.
  intros walker_type weights.
  assert (Hdec : In walker_type Walker.ACCEPTABLE_WALKER_TYPES \/
                 ~ In walker_type Walker.ACCEPTABLE_WALKER_TYPES).
  { destruct (in_dec Z.eq_dec walker_type Walker.ACCEPTABLE_WALKER_TYPES); auto. }
  repeat split.
  - intros [e He] Hin. rewrite (init_ok _ _ Hin) in He. discriminate.
  - intro H. exists ValueError. apply init_raises. exact H.
  - destruct Hdec as [Hin|Hout].
    + right. apply init_ok. exact Hin.
    + left. apply init_raises. exact Hout.
  - intro H. destruct Hdec as [Hin|Hout].
    + apply init_ok. exact Hin.
    + contradiction.
  - intros [e He]. unfold Utils.parse_weights in He.
    unfold malformed_weight_count.
    destruct (length weights =? Utils.AMOUNT_OF_WEIGHTS)%nat eqn:E.
    + discriminate.
    + apply Nat.eqb_neq. exact E.
  - intro H. unfold Utils.parse_weights.
    apply Nat.eqb_neq in H. rewrite H. exists ValueError. reflexivity.
Qed.

Lemma construction_raises_iff_invalid_kind_witness :
  Walker.init 4 [1; 2; 3]%Z = Ok (Walker.mk 0 0 0 [(0, 0)] [1; 2; 3]%Z 4) /\
  raises (Walker.init 7 [1; 1; 1; 1; 1]%Z).
Proof.
  split.
  - apply (construction_raises_iff_invalid_kind 4 [1; 2; 3]%Z).
    unfold invalid_walker_kind. simpl. intro H. apply H. auto 6.
  - apply (construction_raises_iff_invalid_kind 7 [1; 1; 1; 1; 1]%Z).
    unfold invalid_walker_kind. simpl. intros [H|[H|[H|[H|H]]]];
      try discriminate H; exact H.
Defined.

(** ** The nearest intersecting segment *)

(** The segments [check_intersection] visits, in the order it visits them,
    each with the type string it would report. *)
Definition candidates (pl : Plane.t) : list (string * Plane.object) :=
  map (fun o => ("obstacle"%string, Plane.AnObstacle o)) (Plane.obstacles pl) ++
  map (fun p => ("portal"%string, Plane.APortal p)) (Plane.portals pl).

Section Nearest.
Context {L : Library}.
Variables current_position next_position : point.

(** The intersection of the path with the segment of a candidate. *)
Definition meets (c : string * Plane.object) : geometry :=
  intersection current_position next_position
    (Plane.get_start (snd c)) (Plane.get_end (snd c)).

Definition overlaps (c : string * Plane.object) : Prop :=
  exists a b, meets c = GLine a b.

Fixpoint visit_candidates (acc : Plane.scan) (cs : list (string * Plane.object))
  : result Plane.scan :=
  match cs with
  | [] => Ok acc
  | c :: cs' =>
      acc' <- Plane.visit current_position next_position (fst c) acc (snd c) ;;
      visit_candidates acc' cs'
  end.

(** Candidate [c], at index [i], meets the path in one point, at distance
    [d] from the current position; no candidate meets it nearer, and those
    before [c] meet it strictly farther. *)
Definition nearest_first (cs : list (string * Plane.object)) (i : nat)
           (c : string * Plane.object) (d : Q) : Prop :=
  nth_error cs i = Some c /\
  (exists p, meets c = GPoint p /\ d = distance current_position p) /\
  forall j c' p',
    nth_error cs j = Some c' -> meets c' = GPoint p' ->
    d <= distance current_position p' /\
    ((j < i)%nat -> d < distance current_position p').

(** The locals of the scan after the candidates [cs]. *)
Definition scanned (cs : list (string * Plane.object)) (acc : Plane.scan) : Prop :=
  match acc with
  | (None, None) => forall c, In c cs -> meets c = GEmpty
  | (Some d, Some c) => exists i, nearest_first cs i c d
  | _ => False
  end.

Lemma visit_all_candidates (intersected_type : string) (l : list Plane.object) :
  forall acc,
    Plane.visit_all current_position next_position intersected_type acc l
    = visit_candidates acc (map (pair intersected_type) l).
Proof.
  induction l as [|o l IH]; intro acc; simpl; [reflexivity|].
  destruct (Plane.visit _ _ _ acc o); simpl; [apply IH | reflexivity].
Qed.

Lemma visit_candidates_app (cs1 cs2 : list (string * Plane.object)) :
  forall acc,
    visit_candidates acc (cs1 ++ cs2)
    = (acc' <- visit_candidates acc cs1 ;; visit_candidates acc' cs2).
Proof.
  induction cs1 as [|c cs1 IH]; intro acc; simpl; [reflexivity|].
  destruct (Plane.visit _ _ _ acc (snd c)); simpl; [apply IH | reflexivity].
Qed.

Lemma check_intersection_candidates (pl : Plane.t) :
  Plane.check_intersection pl current_position next_position =
  (acc <- visit_candidates (None, None) (candidates pl) ;;
   match snd acc with
   | None => Ok (Plane.Position next_position)
   | Some (intersected_type, intersected_object) =>
       Ok (Plane.Tagged intersected_type intersected_object)
   end).
Proof.
  unfold Plane.check_intersection, candidates.
  rewrite visit_candidates_app, visit_all_candidates, map_map.
  destruct (visit_candidates (None, None) _) as [acc|e]; [|reflexivity].
  cbn [bind]. rewrite visit_all_candidates, map_map. reflexivity.
Qed.

Lemma nth_error_snoc {A : Type} (pre : list A) (c c' : A) (j : nat) :
  nth_error (pre ++ [c]) j = Some c' ->
  (nth_error pre j = Some c' /\ (j < length pre)%nat) \/ (j = length pre /\ c' = c).
Proof.
  intro H. destruct (Nat.lt_ge_cases j (length pre)) as [Hlt|Hge].
  - left. rewrite nth_error_app1 in H by exact Hlt. auto.
  - right. rewrite nth_error_app2 in H by exact Hge.
    destruct (j - length pre)%nat as [|k] eqn:E; simpl in H.
    + split; [lia | congruence].
    + destruct k; discriminate.
Qed.

Lemma nth_error_snoc_last {A : Type} (pre : list A) (c : A) :
  nth_error (pre ++ [c]) (length pre) = Some c.
Proof.
  rewrite nth_error_app2 by lia. rewrite Nat.sub_diag. reflexivity.
Qed.

(** One more candidate, whose intersection with the path is empty or a
    point, keeps the invariant of the scan. *)
Lemma visit_keeps_scanned (pre : list (string * Plane.object)) (acc : Plane.scan)
      (c : string * Plane.object) :
  scanned pre acc -> ~ overlaps c ->
  exists acc',
    Plane.visit current_position next_position (fst c) acc (snd c) = Ok acc' /\
    scanned (pre ++ [c]) acc'.
Proof.
  intros Hinv Hpoint. unfold Plane.visit.
  change (intersection current_position next_position
            (Plane.get_start (snd c)) (Plane.get_end (snd c))) with (meets c).
  destruct (meets c) as [|p|a b] eqn:M.
  - (* empty: nothing changes *)
    exists acc. split; [reflexivity|].
    destruct acc as [[d|] [x|]]; simpl in *; try contradiction.
    + destruct Hinv as (i & Hi & Hp & Hmin). exists i. split; [|split].
      * rewrite nth_error_app1; [exact Hi|]. apply nth_error_Some. congruence.
      * exact Hp.
      * intros j c' p' Hj Hc'. apply nth_error_snoc in Hj.
        destruct Hj as [[Hj _]|[_ ->]]; [eauto | congruence].
    + intros c' Hin. apply in_app_or in Hin. destruct Hin as [Hin|[<-|[]]]; auto.
  - (* a point *)
    destruct acc as [[d|] [x|]]; simpl in Hinv; try contradiction; cbn [fst lt_min].
    + destruct Hinv as (i & Hi & Hp & Hmin).
      assert (Hlen : (i < length pre)%nat) by (apply nth_error_Some; congruence).
      destruct (Qltb (distance current_position p) d) eqn:E.
      * apply Qltb_lt in E.
        eexists. split; [reflexivity|]. simpl.
        exists (length pre). split; [|split].
        -- rewrite <- surjective_pairing. apply nth_error_snoc_last.
        -- rewrite <- surjective_pairing. exists p. auto.
        -- intros j c' p' Hj Hc'. apply nth_error_snoc in Hj.
           destruct Hj as [[Hj Hlt]|[-> ->]].
           ++ destruct (Hmin j c' p' Hj Hc') as [Hle _]. split; [|intros _]; lra.
           ++ assert (p' = p) by congruence. subst p'.
              split; [lra | intro; lia].
      * apply Qltb_ge in E.
        eexists. split; [reflexivity|]. simpl.
        exists i. split; [|split].
        -- rewrite nth_error_app1; [exact Hi | exact Hlen].
        -- exact Hp.
        -- intros j c' p' Hj Hc'. apply nth_error_snoc in Hj.
           destruct Hj as [[Hj Hlt]|[-> ->]]; [eauto|].
           assert (p' = p) by congruence. subst p'.
           split; [exact E | intro; lia].
    + eexists. split; [reflexivity|]. simpl.
      exists (length pre). split; [|split].
      * rewrite <- surjective_pairing. apply nth_error_snoc_last.
      * rewrite <- surjective_pairing. exists p. auto.
      * intros j c' p' Hj Hc'. apply nth_error_snoc in Hj.
        destruct Hj as [[Hj Hlt]|[-> ->]].
        -- apply nth_error_In in Hj. apply Hinv in Hj. congruence.
        -- assert (p' = p) by congruence. subst p'.
           split; [lra | intro; lia].
  - exfalso. apply Hpoint. exists a, b. exact M.
Qed.

Lemma visit_candidates_scanned (cs : list (string * Plane.object)) :
  forall pre acc,
    scanned pre acc ->
    (forall c, In c cs -> ~ overlaps c) ->
    exists acc', visit_candidates acc cs = Ok acc' /\ scanned (pre ++ cs) acc'.
Proof.
  induction cs as [|c cs IH]; intros pre acc Hinv Hpoint.
  - exists acc. rewrite app_nil_r. auto.
  - destruct (visit_keeps_scanned pre acc c Hinv) as (acc1 & Hv & Hinv1).
    { apply Hpoint. left. reflexivity. }
    destruct (IH (pre ++ [c]) acc1 Hinv1) as (acc2 & Hvs & Hinv2).
    { intros c' Hin. apply Hpoint. right. exact Hin. }
    exists acc2. simpl. rewrite Hv. simpl. rewrite <- app_assoc in Hinv2. auto.
Qed.

(** The only failure of the scan is a candidate that overlaps the path. *)
Lemma visit_candidates_overlap (cs : list (string * Plane.object)) :
  forall acc,
    (exists c, In c cs /\ overlaps c) ->
    visit_candidates acc cs = Raise AttributeError.
Proof.
  induction cs as [|c cs IH]; intros acc (c' & Hin & Hov).
  - destruct Hin.
  - simpl. unfold Plane.visit at 1.
    change (intersection current_position next_position
              (Plane.get_start (snd c)) (Plane.get_end (snd c))) with (meets c).
    destruct (meets c) as [|p|a b] eqn:M; simpl.
    + apply IH. destruct Hin as [->|Hin]; [|eauto].
      destruct Hov as (a & b & Hab). congruence.
    + destruct Hin as [->|Hin].
      * destruct Hov as (a & b & Hab). congruence.
      * destruct (lt_min _ _); simpl; apply IH; eauto.
    + reflexivity.
Qed.

(** What [check_intersection] returns when every segment meets the path in
    one point at most: the next position when none meets it, and otherwise
    the type and object of the nearest candidate, the first of them among
    those at the same distance. *)
Lemma check_intersection_selects_nearest (pl : Plane.t) :
  (forall c, In c (candidates pl) -> ~ overlaps c) ->
  ((forall c, In c (candidates pl) -> meets c = GEmpty) /\
   Plane.check_intersection pl current_position next_position
   = Ok (Plane.Position next_position)) \/
  (exists i c d,
      nearest_first (candidates pl) i c d /\
      Plane.check_intersection pl current_position next_position
      = Ok (Plane.Tagged (fst c) (snd c))).
Proof.
  intro Hpoint. rewrite check_intersection_candidates.
  destruct (visit_candidates_scanned (candidates pl) [] (None, None))
    as (acc & Hv & Hinv); [intros c [] | exact Hpoint |].
  rewrite Hv. simpl in *.
  destruct acc as [[d|] [c|]]; simpl in *; try contradiction.
  - right. destruct Hinv as [i Hi]. exists i, c, d.
    split; [exact Hi|]. destruct c; reflexivity.
  - left. auto.
Qed.

(** [check_intersection] raises exactly when a segment of the plane
    overlaps the path along a line. *)
Lemma check_intersection_raises_iff_overlap (pl : Plane.t) :
  Plane.check_intersection pl current_position next_position = Raise AttributeError
  <-> exists c, In c (candidates pl) /\ overlaps c.
Proof.
  split.
  - intro H.
    assert (Hdec : forall cs : list (string * Plane.object),
               (exists c, In c cs /\ overlaps c) \/
               (forall c, In c cs -> ~ overlaps c)).
    { induction cs as [|c cs [IH|IH]].
      - right. intros c [].
      - left. destruct IH as (c' & Hin & Hov). exists c'. split; [right|]; auto.
      - destruct (meets c) as [|p|a b] eqn:M.
        + right. intros c' [<-|Hin]; [|auto]. intros (a & b & Hab). congruence.
        + right. intros c' [<-|Hin]; [|auto]. intros (a & b & Hab). congruence.
        + left. exists c. split; [left; reflexivity|]. exists a, b. exact M. }
    destruct (Hdec (candidates pl)) as [Hov|Hnone]; [exact Hov|].
    destruct (check_intersection_selects_nearest pl Hnone)
      as [[_ E]|(i & c & d & _ & E)]; congruence.
  - intro Hov. rewrite check_intersection_candidates.
    rewrite (visit_candidates_overlap _ _ Hov). reflexivity.
Qed.

(** The scan keeps its object or takes one of the candidates. *)
Lemma visit_candidates_in (cs : list (string * Plane.object)) :
  forall acc acc',
    visit_candidates acc cs = Ok acc' ->
    snd acc' = snd acc \/ exists c, In c cs /\ snd acc' = Some c.
Proof.
  induction cs as [|c cs IH]; intros acc acc' H.
  - cbn in H. injection H as <-. left. reflexivity.
  - cbn [visit_candidates] in H.
    destruct (Plane.visit _ _ (fst c) acc (snd c)) as [acc1|e] eqn:V;
      [|discriminate H].
    cbn [bind] in H. apply IH in H.
    assert (H1 : snd acc1 = snd acc \/ snd acc1 = Some c).
    { unfold Plane.visit in V.
      destruct (intersection _ _ _ _); [| |discriminate V].
      - injection V as <-. left. reflexivity.
      - destruct (lt_min _ _); injection V as <-.
        + right. cbn. rewrite <- surjective_pairing. reflexivity.
        + left. reflexivity. }
    destruct H as [H|(c' & Hin & H)].
    + destruct H1 as [H1|H1].
      * left. congruence.
      * right. exists c. split; [left; reflexivity | congruence].
    + right. exists c'. split; [right; exact Hin | exact H].
Qed.

(** The type string [check_intersection] reports is the one of the
    object: an obstacle or a portal of the plane. *)
Lemma check_intersection_tagged (pl : Plane.t) (intersected_type : string)
      (intersected_object : Plane.object) :
  Plane.check_intersection pl current_position next_position
  = Ok (Plane.Tagged intersected_type intersected_object) ->
  match intersected_object with
  | Plane.AnObstacle o =>
      intersected_type = "obstacle"%string /\ In o (Plane.obstacles pl)
  | Plane.APortal p =>
      intersected_type = "portal"%string /\ In p (Plane.portals pl)
  end.
Proof.
  rewrite check_intersection_candidates. intro H.
  destruct (visit_candidates (None, None) (candidates pl)) as [acc|e] eqn:V;
    [|discriminate H].
  cbn [bind] in H. apply visit_candidates_in in V.
  destruct V as [V|(c & Hin & V)]; rewrite V in H; [discriminate H|].
  destruct c as [ty o]. injection H as -> ->.
  unfold candidates in Hin. apply in_app_or in Hin.
  destruct Hin as [Hin|Hin]; apply in_map_iff in Hin;
    destruct Hin as (x & Hx & Hin); injection Hx as <- <-; auto.
Qed.

End Nearest.

(** C1.  The code does not return for every current and proposed position:
    with the obstacle (0,-1)-(0,2) on the plane, the path from (0,0) to
    (0,1) lies along the obstacle, their intersection is a line and not a
    point, and [check_intersection] raises on [intersection.x] instead of
    returning the obstacle; so does [has_possible_moves] for a walker at
    the origin, whose first probe is that path. *)
Theorem check_intersection_raises_along_an_obstacle :
  let pl := Plane.mk [Plane.mk_obstacle (0, -1) (0, 2)] [] in
  meets (L := Reference.library) (0, 0) (0, 1)
    ("obstacle"%string, Plane.AnObstacle (Plane.mk_obstacle (0, -1) (0, 2)))
  = GLine (0, 0) (0, 1) /\
  Plane.check_intersection (L := Reference.library) pl (0, 0) (0, 1)
  = Raise AttributeError /\
  Utils.has_possible_moves (L := Reference.library) Examples.fresh pl (fun _ => 0)
  = Raise AttributeError.
Proof.
  vm_compute. auto.
Qed.

(** ** The probes of [has_possible_moves] *)

(** The new positions [has_possible_moves] tries, in order. *)
Definition probes {L : Library} (w : Walker.t) (angles : nat -> Q) : list point :=
  Utils.fixed_positions w ++
  (if Walker.mem (Walker.get_walker_type w) [1; 2]%Z
   then Utils.random_positions w angles
   else []).

Section Probes.
Context {L : Library}.
Variables (pl : Plane.t) (current_position : point).

(** The probe of a new position resolves to an obstacle. *)
Definition blocked (new_position : point) : Prop :=
  exists intersected_type o,
    Plane.check_intersection pl current_position new_position
    = Ok (Plane.Tagged intersected_type (Plane.AnObstacle o)).

(** The probe of a new position resolves to the position itself or to a
    portal. *)
Definition open (new_position : point) : Prop :=
  (exists p, Plane.check_intersection pl current_position new_position
             = Ok (Plane.Position p)) \/
  (exists intersected_type p,
      Plane.check_intersection pl current_position new_position
      = Ok (Plane.Tagged intersected_type (Plane.APortal p))).

Lemma outcome_blocked (new_position : point) (r : Plane.outcome) :
  Plane.check_intersection pl current_position new_position = Ok r ->
  Utils.not_an_obstacle r = false -> blocked new_position.
Proof.
  intros H E. destruct r as [p|ty [o|p]]; try discriminate E.
  exists ty, o. exact H.
Qed.

Lemma outcome_open (new_position : point) (r : Plane.outcome) :
  Plane.check_intersection pl current_position new_position = Ok r ->
  Utils.not_an_obstacle r = true -> open new_position.
Proof.
  intros H E. destruct r as [p|ty [o|p]]; try discriminate E.
  - left. exists p. exact H.
  - right. exists ty, p. exact H.
Qed.

Lemma blocked_not_open (new_position : point) :
  blocked new_position -> open new_position -> False.
Proof.
  intros (ty & o & H) [(p & H')|(ty' & p & H')]; congruence.
Qed.

Lemma try_positions_blocked (new_position : point) (rest : list point) :
  blocked new_position ->
  Utils.try_positions pl current_position (new_position :: rest)
  = Utils.try_positions pl current_position rest.
Proof.
  intros (ty & o & H). simpl. rewrite H. reflexivity.
Qed.

Lemma try_positions_open (new_position : point) (rest : list point) :
  open new_position ->
  Utils.try_positions pl current_position (new_position :: rest) = Ok true.
Proof.
  intros [(p & H)|(ty & p & H)]; simpl; rewrite H; reflexivity.
Qed.

Lemma try_positions_false (ps : list point) :
  Utils.try_positions pl current_position ps = Ok false <->
  forall p, In p ps -> blocked p.
Proof.
  induction ps as [|q ps IH].
  - simpl. split; [intros _ p [] | reflexivity].
  - split.
    + intro H. simpl in H.
      destruct (Plane.check_intersection pl current_position q) as [r|e] eqn:C;
        [|discriminate H].
      simpl in H. destruct (Utils.not_an_obstacle r) eqn:E; [discriminate H|].
      intros p [<-|Hin].
      * eapply outcome_blocked; eassumption.
      * apply IH; assumption.
    + intro H. rewrite try_positions_blocked by (apply H; left; reflexivity).
      apply IH. intros p Hin. apply H. right. exact Hin.
Qed.

Lemma try_positions_true (ps : list point) :
  Utils.try_positions pl current_position ps = Ok true <->
  exists i p,
    nth_error ps i = Some p /\ open p /\
    forall j q, (j < i)%nat -> nth_error ps j = Some q -> blocked q.
Proof.
  induction ps as [|q ps IH].
  - simpl. split; [discriminate|]. intros (i & p & H & _). destruct i; discriminate H.
  - split.
    + intro H. simpl in H.
      destruct (Plane.check_intersection pl current_position q) as [r|e] eqn:C;
        [|discriminate H].
      simpl in H. destruct (Utils.not_an_obstacle r) eqn:E.
      * exists 0%nat, q. split; [reflexivity|]. split.
        -- eapply outcome_open; eassumption.
        -- intros j q' Hj. lia.
      * apply IH in H. destruct H as (i & p & Hi & Hp & Hbefore).
        exists (S i), p. split; [exact Hi|]. split; [exact Hp|].
        intros [|j] q' Hj Hq'.
        -- simpl in Hq'. injection Hq' as <-. eapply outcome_blocked; eassumption.
        -- simpl in Hq'. apply (Hbefore j); [lia | exact Hq'].
    + intros (i & p & Hi & Hp & Hbefore). destruct i as [|i].
      * simpl in Hi. injection Hi as ->. apply try_positions_open. exact Hp.
      * rewrite try_positions_blocked.
        -- apply IH. exists i, p. split; [exact Hi|]. split; [exact Hp|].
           intros j q' Hj Hq'. apply (Hbefore (S j)); [lia | exact Hq'].
        -- apply (Hbefore 0%nat); [lia | reflexivity].
Qed.

Lemma try_positions_any (ps : list point) :
  (forall p, In p ps -> returns (Plane.check_intersection pl current_position p)) ->
  (exists p, In p ps /\ open p) ->
  Utils.try_positions pl current_position ps = Ok true.
Proof.
  induction ps as [|q ps IH]; intros Hret (p & Hin & Hp).
  - destruct Hin.
  - destruct (Hret q (or_introl eq_refl)) as [r C].
    destruct (Utils.not_an_obstacle r) eqn:E.
    + apply try_positions_open. eapply outcome_open; eassumption.
    + rewrite try_positions_blocked by (eapply outcome_blocked; eassumption).
      apply IH.
      * intros p' Hp'. apply Hret. right. exact Hp'.
      * destruct Hin as [<-|Hin].
        -- exfalso. eapply blocked_not_open; [|exact Hp].
           eapply outcome_blocked; eassumption.
        -- exists p. auto.
Qed.

Lemma try_positions_app (ps qs : list point) :
  Utils.try_positions pl current_position (ps ++ qs) =
  (found <- Utils.try_positions pl current_position ps ;;
   if found then Ok true else Utils.try_positions pl current_position qs).
Proof.
  induction ps as [|p ps IH]; simpl; [reflexivity|].
  destruct (Plane.check_intersection pl current_position p) as [r|e]; simpl;
    [|reflexivity].
  destruct (Utils.not_an_obstacle r); [reflexivity | exact IH].
Qed.

End Probes.

Lemma has_possible_moves_probes {L : Library} (w : Walker.t) (pl : Plane.t)
      (angles : nat -> Q) :
  Utils.has_possible_moves w pl angles
  = Utils.try_positions pl (Walker.get_position w) (probes w angles).
Proof.
  unfold Utils.has_possible_moves, probes. rewrite try_positions_app.
  destruct (Utils.try_positions pl (Walker.get_position w) (Utils.fixed_positions w))
    as [[|]|e]; cbn [bind]; try reflexivity.
  destruct (Walker.mem (Walker.get_walker_type w) [1; 2]%Z); reflexivity.
Qed.

(** [has_possible_moves] probes, each through [check_intersection]
    from the current position, the four unit moves along the axes and the
    move back to the origin, and for the two continuous kinds (1 and 2) 100
    more positions at (cos a, sin a) from the current one.  It returns true
    exactly when some probe resolves to the position itself or to a portal
    after probes that all resolved to an obstacle (so, when every probe
    resolves, as soon as any of them is not an obstacle), and it returns false
    exactly when every probe resolves to an obstacle. *)
Theorem has_possible_moves_probes_until_one_is_open :
  forall (L : Library) (w : Walker.t) (pl : Plane.t) (angles : nat -> Q),
    let x := Walker.x w in
    let y := Walker.y w in
    let here := Walker.get_position w in
    let continuous :=
      ((Walker.get_walker_type w =? 1) || (Walker.get_walker_type w =? 2))%Z in
    probes w angles =
      [(x + 0, y + 1); (x + 0, y + -1); (x + 1, y + 0); (x + -1, y + 0);
       (x + - x, y + - y)] ++
      (if continuous
       then map (fun i => (x + cos (angles i), y + sin (angles i))) (seq 0 100)
       else []) /\
    length (probes w angles) = (if continuous then 105 else 5)%nat /\
    (Utils.has_possible_moves w pl angles = Ok true <->
     exists i p,
       nth_error (probes w angles) i = Some p /\ open pl here p /\
       forall j q, (j < i)%nat -> nth_error (probes w angles) j = Some q ->
                   blocked pl here q) /\
    (Utils.has_possible_moves w pl angles = Ok false <->
     forall p, In p (probes w angles) -> blocked pl here p) /\
    ((forall p, In p (probes w angles) ->
                returns (Plane.check_intersection pl here p)) ->
     (exists p, In p (probes w angles) /\ open pl here p) ->
     Utils.has_possible_moves w pl angles = Ok true).
Proof.
  intros L w pl angles x y here continuous.
  assert (Hprobes : probes w angles =
      [(x + 0, y + 1); (x + 0, y + -1); (x + 1, y + 0); (x + -1, y + 0);
       (x + - x, y + - y)] ++
      (if continuous
       then map (fun i => (x + cos (angles i), y + sin (angles i))) (seq 0 100)
       else [])).
  { unfold probes, continuous, Walker.mem. cbn [existsb].
    rewrite orb_false_r. reflexivity. }
  split; [exact Hprobes|]. split.
  { rewrite Hprobes, length_app. destruct continuous.
    - rewrite length_map, length_seq. reflexivity.
    - reflexivity. }
  rewrite has_possible_moves_probes. split; [|split].
  - apply try_positions_true.
  - apply try_positions_false.
  - apply try_positions_any.
Qed.

Lemma has_possible_moves_probes_until_one_is_open_witness :
  Utils.has_possible_moves (L := Reference.library) Examples.fresh Examples.wall
    (fun _ => 0) = Ok true.
Proof.
  apply (has_possible_moves_probes_until_one_is_open Reference.library
           Examples.fresh Examples.wall (fun _ => 0)).
  - intros p Hin. vm_compute in Hin.
    destruct Hin as [<-|[<-|[<-|[<-|[<-|[]]]]]]; eexists; vm_compute; reflexivity.
  - exists (0, 1). split.
    + vm_compute. auto.
    + left. exists (0, 1). vm_compute. reflexivity.
Defined.

(** C8.  [has_possible_moves] does not return true whenever some probe
    resolves to a non-obstacle outcome: with the obstacle (0,1/2)-(0,2) on
    the plane and a discrete walker at the origin, the probes are the moves
    up, down, right, left and back to the origin; the probes down, right and
    left resolve to the new position itself, but the first probe, up, lies
    along the obstacle from (0,1/2) to (0,1), [check_intersection] raises on
    [intersection.x], and [has_possible_moves] raises with it instead of
    returning true. *)
Theorem has_possible_moves_raises_before_an_open_probe :
  let pl := Plane.mk [Plane.mk_obstacle (0, 1 # 2) (0, 2)] [] in
  let w := Examples.fresh in
  let here := Walker.get_position w in
  probes (L := Reference.library) w (fun _ => 0)
  = [(0, 1); (0, -1); (1, 0); (-1, 0); (0, 0)] /\
  meets (L := Reference.library) here (0, 1)
    ("obstacle"%string, Plane.AnObstacle (Plane.mk_obstacle (0, 1 # 2) (0, 2)))
  = GLine (0, 1 # 2) (0, 1) /\
  Plane.check_intersection (L := Reference.library) pl here (0, 1)
  = Raise AttributeError /\
  Plane.check_intersection (L := Reference.library) pl here (0, -1)
  = Ok (Plane.Position (0, -1)) /\
  Plane.check_intersection (L := Reference.library) pl here (1, 0)
  = Ok (Plane.Position (1, 0)) /\
  Plane.check_intersection (L := Reference.library) pl here (-1, 0)
  = Ok (Plane.Position (-1, 0)) /\
  Utils.has_possible_moves (L := Reference.library) w pl (fun _ => 0)
  = Raise AttributeError.
Proof.
  vm_compute. repeat split; reflexivity.
Qed.

(** ** One iteration of the step loop *)

Section Iteration.
Context {L : Library}.
Variables (args : Simulation.Namespace) (pl : Plane.t) (enter : Q) (step : nat).
Variable inp : Simulation.step_input.

Lemma from_end_two {A : Type} (l : list A) :
  (exists a, Simulation.from_end l 2 = Ok a) \/
  (Simulation.from_end l 2 = Raise IndexError /\ (length l < 2)%nat).
Proof.
  unfold Simulation.from_end.
  destruct (length l <? 2)%nat eqn:E.
  - right. split; [reflexivity|]. apply Nat.ltb_lt. exact E.
  - apply Nat.ltb_ge in E.
    destruct (nth_error l (length l - 2)) eqn:N.
    + left. eexists. reflexivity.
    + apply nth_error_None in N. lia.
Qed.

Lemma crossed_y_axis_cases (previous_position position : point) (w : Walker.t) :
  (exists b, Simulation.crossed_y_axis previous_position position w = Ok b) \/
  (Simulation.crossed_y_axis previous_position position w = Raise IndexError /\
   (length (Walker.path w) < 2)%nat).
Proof.
  unfold Simulation.crossed_y_axis.
  destruct (Qltb _ 0); [left; eexists; reflexivity|].
  destruct (Qeq_bool _ 0); [|left; eexists; reflexivity].
  destruct (from_end_two (Walker.get_path w)) as [[a Ha]|[Ha Hlen]].
  - rewrite Ha. left. eexists. reflexivity.
  - rewrite Ha. right. split; [reflexivity | exact Hlen].
Qed.

(** The accounting keeps the walker, the records and the count of
    unsuccessful moves, and can only fail on [get_path()[-2]]. *)
Lemma account_cases (previous_position : point) (l : Simulation.locals)
      (t : Simulation.totals) :
  (exists l' t',
      Simulation.account args enter step inp previous_position (l, t) = Ok (l', t') /\
      Simulation.walker l' = Simulation.walker l /\
      Simulation.simulation_stats l' = Simulation.simulation_stats l /\
      Simulation.simulation_unsuccessful_moves l'
        = Simulation.simulation_unsuccessful_moves l) \/
  (Simulation.account args enter step inp previous_position (l, t) = Raise IndexError /\
   (length (Walker.path (Simulation.walker l)) < 2)%nat).
Proof.
  unfold Simulation.account.
  destruct (negb (point_eqb _ previous_position)).
  - destruct (crossed_y_axis_cases previous_position
                (Walker.get_position (Simulation.walker l)) (Simulation.walker l))
      as [[b Hb]|[Hb Hlen]]; rewrite Hb; simpl.
    + left. eexists. eexists. split; [reflexivity|]. simpl. auto.
    + right. auto.
  - left. exists l, t. auto.
Qed.

Lemma account_unchanged (l : Simulation.locals) (t : Simulation.totals) :
  Simulation.account args enter step inp
    (Walker.get_position (Simulation.walker l)) (l, t) = Ok (l, t).
Proof.
  unfold Simulation.account. rewrite point_eqb_refl. reflexivity.
Qed.

Lemma record_step_ok (l : Simulation.locals) :
  Simulation.record_step step l =
  Ok (Simulation.set_stats l
        (Simulation.simulation_stats l ++
         [((step + 1)%nat,
           Simulation.mk_step_stats
             (Simulation.simulation_distance_from_x_axis l / Simulation.of_nat (step + 1))
             (Simulation.simulation_distance_from_y_axis l / Simulation.of_nat (step + 1))
             (Simulation.simulation_distance_from_origin l / Simulation.of_nat (step + 1)))])).
Proof.
  unfold Simulation.record_step. rewrite !div_of_nat_succ. reflexivity.
Qed.

End Iteration.

(** C3.  When the proposed move of a step resolves to an obstacle, the
    iteration completes, the walker (position, step count and path) is
    the one before the step, and the count of unsuccessful moves of the run
    is one more; the totals over the runs are untouched. *)
Theorem obstacle_rejects_the_move :
  forall (L : Library) (args : Simulation.Namespace) (pl : Plane.t) (enter : Q)
         (step : nat) (inp : Simulation.step_input)
         (l : Simulation.locals) (t : Simulation.totals)
         (next_position : point) (intersected_type : string) (o : Plane.Obstacle),
    Utils.has_possible_moves (Simulation.walker l) pl (Simulation.angles inp) = Ok true ->
    Walker.get_next_move (Simulation.walker l) (Simulation.next_draw inp)
      = Ok next_position ->
    Plane.check_intersection pl (Walker.get_position (Simulation.walker l)) next_position
      = Ok (Plane.Tagged intersected_type (Plane.AnObstacle o)) ->
    exists l',
      Simulation.iteration args pl enter step inp (l, t) = Ok (Some (l', t)) /\
      Simulation.walker l' = Simulation.walker l /\
      Walker.get_position (Simulation.walker l') = Walker.get_position (Simulation.walker l) /\
      Walker.get_steps (Simulation.walker l') = Walker.get_steps (Simulation.walker l) /\
      Walker.get_path (Simulation.walker l') = Walker.get_path (Simulation.walker l) /\
      Simulation.simulation_unsuccessful_moves l'
        = (Simulation.simulation_unsuccessful_moves l + 1)%nat.
Proof.
  intros L args pl enter step inp l t next_position ty o Hmoves Hnext Hcheck.
  destruct (check_intersection_tagged _ _ _ _ _ Hcheck) as [-> _].
  unfold Simulation.iteration. cbn [fst snd].
  rewrite Hmoves. cbn [bind negb].
  unfold Simulation.resolve. rewrite Hnext. cbn [bind]. rewrite Hcheck.
  cbn [bind].
  change (String.eqb "obstacle" "portal") with false. cbn iota.
  set (l1 := Simulation.set_unsuccessful_moves l _).
  change (Walker.get_position (Simulation.walker l))
    with (Walker.get_position (Simulation.walker l1)).
  cbn [bind]. rewrite account_unchanged. cbn [bind fst snd].
  rewrite record_step_ok. cbn [bind].
  eexists. split; [reflexivity|].
  cbn. auto 6.
Qed.

Lemma obstacle_rejects_the_move_witness :
  let l := Simulation.new_locals Examples.fresh in
  exists l',
    Simulation.iteration (L := Reference.library) (Examples.args 1 1 Examples.wall) Examples.wall 0 0
      Examples.right (l, Simulation.no_totals)
      = Ok (Some (l', Simulation.no_totals)) /\
    Simulation.walker l' = Examples.fresh /\
    Walker.get_position (Simulation.walker l') = (0, 0) /\
    Walker.get_steps (Simulation.walker l') = 0%nat /\
    Walker.get_path (Simulation.walker l') = [(0, 0)] /\
    Simulation.simulation_unsuccessful_moves l' = 1%nat.
Proof.
  apply (obstacle_rejects_the_move Reference.library
           (Examples.args 1 1 Examples.wall) Examples.wall 0 0 Examples.right
           (Simulation.new_locals Examples.fresh) Simulation.no_totals
           (1, 0) "obstacle"%string (Plane.mk_obstacle (1 # 2, -1) (1 # 2, 1)));
    vm_compute; reflexivity.
Defined.



(** The walker of the description: a portal from (2,0) to (2,2) with
    destination (10,10), and a move from (0,0) toward (4,0). *)
Example portal_of_the_description :
  let portal := Plane.mk_portal (2, 0) (2, 2) (10, 10) in
  Plane.check_intersection (L := Reference.library) (Plane.mk [] [portal]) (0, 0) (4, 0)
  = Ok (Plane.Tagged "portal" (Plane.APortal portal)) /\
  Walker.set_position Examples.fresh 10 10
  = Walker.mk 10 10 0 [(0, 0)] Walker.default_weights 3.
Proof. vm_compute. auto. Qed.

(** A portal taken at the first step of a run: the walker is placed at the
    destination, the path still holds its single initial entry, and the
    crossing test raises on [get_path()[-2]]. *)
Example portal_at_the_first_step_raises :
  Examples.run Examples.gated 1 [Examples.right] = Raise IndexError.
Proof. vm_compute. reflexivity. Qed.

(** After a portal and one more step the path has no entry for the
    destination. *)
Example path_after_a_portal :
  Examples.path_of
    (Examples.run Examples.gated 3 [Examples.up; Examples.right; Examples.left])
  = Some [(0, 0); (0, 1); (9, 10)].
Proof. vm_compute. reflexivity. Qed.

(** ** What one iteration does to the locals and the totals *)

Section Effect.
Context {L : Library}.
Variables (args : Simulation.Namespace) (pl : Plane.t) (enter : Q) (step : nat).
Variable inp : Simulation.step_input.

(** The averages recorded at a step, from the sums of the locals. *)
Definition averages (l : Simulation.locals) : Simulation.step_stats :=
  Simulation.mk_step_stats
    (Simulation.simulation_distance_from_x_axis l / Simulation.of_nat (step + 1))
    (Simulation.simulation_distance_from_y_axis l / Simulation.of_nat (step + 1))
    (Simulation.simulation_distance_from_origin l / Simulation.of_nat (step + 1)).

(** The accounting of a step whose position did not change: nothing. *)
Definition kept (l l' : Simulation.locals) (t t' : Simulation.totals) : Prop :=
  Simulation.simulation_distance_from_origin l'
    = Simulation.simulation_distance_from_origin l /\
  Simulation.simulation_distance_from_x_axis l'
    = Simulation.simulation_distance_from_x_axis l /\
  Simulation.simulation_distance_from_y_axis l'
    = Simulation.simulation_distance_from_y_axis l /\
  Simulation.simulation_y_axis_cross_count l'
    = Simulation.simulation_y_axis_cross_count l /\
  Simulation.simulation_exit_time l' = Simulation.simulation_exit_time l /\
  Simulation.simulation_steps_to_exit l' = Simulation.simulation_steps_to_exit l /\
  t' = t.

(** The accounting of a step whose position changed, [w'] being the walker
    after the step. *)
Definition accounted (w' : Walker.t) (previous_position : point)
           (l l' : Simulation.locals) (t t' : Simulation.totals) : Prop :=
  Simulation.simulation_distance_from_origin l'
    = Simulation.simulation_distance_from_origin l + Walker.get_distance w' /\
  Simulation.simulation_distance_from_x_axis l'
    = Simulation.simulation_distance_from_x_axis l + Qabs (Walker.y w') /\
  Simulation.simulation_distance_from_y_axis l'
    = Simulation.simulation_distance_from_y_axis l + Qabs (Walker.x w') /\
  (exists crossed,
      Simulation.crossed_y_axis previous_position (Walker.get_position w') w'
        = Ok crossed /\
      Simulation.simulation_y_axis_cross_count l'
        = if crossed then (Simulation.simulation_y_axis_cross_count l + 1)%nat
          else Simulation.simulation_y_axis_cross_count l) /\
  let exits := Simulation.is_none (Simulation.simulation_exit_time l) &&
               Qltb 10 (Walker.get_distance w') in
  Simulation.simulation_exit_time l'
    = (if exits then Some (Simulation.now inp - enter)
       else Simulation.simulation_exit_time l) /\
  Simulation.simulation_steps_to_exit l'
    = (if exits then Walker.get_steps w' else Simulation.simulation_steps_to_exit l) /\
  t' = if (Simulation.n_steps args =? Z.of_nat (step + 1))%Z
       then Simulation.mk_totals
              (Simulation.total_distance_from_origin t +
               Simulation.simulation_distance_from_origin l')
              (Simulation.total_exit_time t)
              (Simulation.total_distance_from_x_axis t +
               Simulation.simulation_distance_from_x_axis l')
              (Simulation.total_distance_from_y_axis t +
               Simulation.simulation_distance_from_y_axis l')
              (Simulation.total_steps_to_exit t) (Simulation.total_y_axis_crosses t)
              (Simulation.total_unsuccessful_moves t)
       else t.

(** The locals [resolve] leaves alone. *)
Definition same_accounts (l l1 : Simulation.locals) : Prop :=
  Simulation.simulation_stats l1 = Simulation.simulation_stats l /\
  Simulation.simulation_distance_from_origin l1
    = Simulation.simulation_distance_from_origin l /\
  Simulation.simulation_distance_from_x_axis l1
    = Simulation.simulation_distance_from_x_axis l /\
  Simulation.simulation_distance_from_y_axis l1
    = Simulation.simulation_distance_from_y_axis l /\
  Simulation.simulation_y_axis_cross_count l1
    = Simulation.simulation_y_axis_cross_count l /\
  Simulation.simulation_exit_time l1 = Simulation.simulation_exit_time l /\
  Simulation.simulation_steps_to_exit l1 = Simulation.simulation_steps_to_exit l.

(** The three outcomes of [resolve]. *)
Inductive resolved (l : Simulation.locals) : Simulation.locals -> Prop :=
| resolved_move next_position :
    Walker.get_next_move (Simulation.walker l) (Simulation.next_draw inp)
      = Ok next_position ->
    Plane.check_intersection pl (Walker.get_position (Simulation.walker l))
      next_position = Ok (Plane.Position next_position) ->
    resolved l
      (Simulation.set_walker l
         (Walker.move (Simulation.walker l) (fst next_position) (snd next_position)))
| resolved_portal next_position intersected_object destination :
    Walker.get_next_move (Simulation.walker l) (Simulation.next_draw inp)
      = Ok next_position ->
    Plane.check_intersection pl (Walker.get_position (Simulation.walker l))
      next_position = Ok (Plane.Tagged "portal" intersected_object) ->
    Plane.get_destination intersected_object = Ok destination ->
    resolved l
      (Simulation.set_walker l
         (Walker.set_position (Simulation.walker l) (fst destination) (snd destination)))
| resolved_obstacle next_position intersected_type intersected_object :
    Walker.get_next_move (Simulation.walker l) (Simulation.next_draw inp)
      = Ok next_position ->
    Plane.check_intersection pl (Walker.get_position (Simulation.walker l))
      next_position = Ok (Plane.Tagged intersected_type intersected_object) ->
    intersected_type <> "portal"%string ->
    resolved l
      (Simulation.set_unsuccessful_moves l
         (Simulation.simulation_unsuccessful_moves l + 1)).

Lemma check_intersection_position (current_position next_position p : point) :
  Plane.check_intersection pl current_position next_position = Ok (Plane.Position p) ->
  p = next_position.
Proof.
  unfold Plane.check_intersection. intro H.
  destruct (Plane.visit_all _ _ _ _ _) as [acc|e]; [|discriminate H].
  cbn [bind] in H.
  destruct (Plane.visit_all _ _ _ _ _) as [acc'|e]; [|discriminate H].
  cbn [bind] in H. destruct (snd acc') as [[ty o]|]; congruence.
Qed.

Lemma resolve_resolved (l l1 : Simulation.locals) :
  Simulation.resolve pl (Simulation.next_draw inp) l = Ok l1 <-> resolved l l1.
Proof.
  unfold Simulation.resolve. split.
  - intro H.
    destruct (Walker.get_next_move _ _) as [next_position|e] eqn:N; [|discriminate H].
    cbn [bind] in H.
    destruct (Plane.check_intersection _ _ _) as [[p|ty o]|e] eqn:C;
      [| |discriminate H]; cbn [bind] in H.
    + injection H as <-.
      pose proof (check_intersection_position _ _ _ C) as ->.
      eapply resolved_move; eassumption.
    + destruct (String.eqb ty "portal") eqn:E.
      * apply String.eqb_eq in E. subst ty.
        destruct (Plane.get_destination o) as [d|e] eqn:D; [|discriminate H].
        cbn [bind] in H. injection H as <-.
        eapply resolved_portal; eassumption.
      * apply String.eqb_neq in E. injection H as <-.
        eapply resolved_obstacle; eassumption.
  - intros [next_position N C|next_position o d N C D|next_position ty o N C E];
      rewrite N; cbn [bind]; rewrite C; cbn [bind].
    + reflexivity.
    + change (String.eqb "portal" "portal") with true. rewrite D. reflexivity.
    + apply String.eqb_neq in E. rewrite E. reflexivity.
Qed.

Lemma resolved_same_accounts (l l1 : Simulation.locals) :
  resolved l l1 -> same_accounts l l1.
Proof.
  intros [? ? ?|? ? ? ? ? ?|? ? ? ? ? ?]; repeat split.
Qed.

(** An iteration that completes: the moves were possible, the move was
    resolved to the walker [w'], the accounting was done when the position
    changed, and one record was appended. *)
Lemma iteration_completes (l l' : Simulation.locals) (t t' : Simulation.totals) :
  Simulation.iteration args pl enter step inp (l, t) = Ok (Some (l', t')) ->
  exists l1,
    Utils.has_possible_moves (Simulation.walker l) pl (Simulation.angles inp) = Ok true /\
    resolved l l1 /\
    Simulation.walker l' = Simulation.walker l1 /\
    Simulation.simulation_unsuccessful_moves l'
      = Simulation.simulation_unsuccessful_moves l1 /\
    Simulation.simulation_stats l'
      = Simulation.simulation_stats l ++ [((step + 1)%nat, averages l')] /\
    if point_eqb (Walker.get_position (Simulation.walker l1))
                 (Walker.get_position (Simulation.walker l))
    then kept l l' t t'
    else accounted (Simulation.walker l1) (Walker.get_position (Simulation.walker l))
           l l' t t'.
Proof.
  unfold Simulation.iteration. cbn [fst snd]. intro H.
  destruct (Utils.has_possible_moves _ _ _) as [[|]|e] eqn:M; try discriminate H.
  cbn [bind negb] in H.
  destruct (Simulation.resolve _ _ _) as [l1|e] eqn:R; [|discriminate H].
  cbn [bind] in H. apply resolve_resolved in R.
  destruct (resolved_same_accounts _ _ R) as (Hs & Ho & Hx & Hy & Hc & He & Hn).
  exists l1. split; [reflexivity|]. split; [exact R|].
  unfold Simulation.account in H.
  destruct (point_eqb _ _) eqn:P; cbn [negb bind fst snd] in H.
  - rewrite record_step_ok in H. cbn [bind] in H.
    injection H as <- <-. cbn. unfold kept, averages. rewrite Hs. cbn. auto 10.
  - destruct (Simulation.crossed_y_axis _ _ _) as [crossed|e] eqn:C; [|discriminate H].
    cbn [bind fst snd] in H. rewrite record_step_ok in H. cbn [bind] in H.
    injection H as <- <-. cbn. unfold accounted, averages. cbn.
    rewrite Hs, Ho, Hx, Hy, Hc, He, Hn. repeat split; eauto.
Qed.

End Effect.

(** ** Crossing the y-axis *)











Definition after_right_left : Simulation.state :=
  Eval vm_compute in
    Examples.state_of (Examples.run Plane.empty 3 [Examples.right; Examples.left]).


(** ** The step loop of a run *)

(** The records of a run as the description has them, from the walkers
    after each executed step: one record per step, keyed from 1, holding the
    sums so far of the three distances divided by the step index.  A sum
    grows at the steps whose position differs from the one before. *)
Fixpoint records_as_described {L : Library} (previous : Walker.t)
         (sum_x sum_y sum_o : Q) (step : nat) (ws : list Walker.t)
  : list (nat * Simulation.step_stats) :=
  match ws with
  | [] => []
  | w :: ws' =>
      let changed :=
        negb (point_eqb (Walker.get_position w) (Walker.get_position previous)) in
      let sum_x' := if changed then sum_x + Qabs (Walker.y w) else sum_x in
      let sum_y' := if changed then sum_y + Qabs (Walker.x w) else sum_y in
      let sum_o' := if changed then sum_o + Walker.get_distance w else sum_o in
      let index := (step + 1)%nat in
      (index,
       Simulation.mk_step_stats (sum_x' / Simulation.of_nat index)
         (sum_y' / Simulation.of_nat index) (sum_o' / Simulation.of_nat index))
      :: records_as_described w sum_x' sum_y' sum_o' (S step) ws'
  end.

Section Run.
Context {L : Library}.
Variables (args : Simulation.Namespace) (pl : Plane.t) (ri : Simulation.run_input).

(** The iterations of the step loop that complete, each with its step and
    the state it leaves. *)
Fixpoint executed (count step : nat) (s : Simulation.state)
  : list (nat * Simulation.state) :=
  match count with
  | O => []
  | S count' =>
      match Simulation.iteration args pl (Simulation.enter_time ri) step
              (Simulation.at_step ri step) s with
      | Ok (Some s') => (step, s') :: executed count' (S step) s'
      | _ => []
      end
  end.

Definition walkers_of (ex : list (nat * Simulation.state)) : list Walker.t :=
  map (fun e => Simulation.walker (fst (snd e))) ex.

Lemma step_loop_unfold (count step : nat) (s sf : Simulation.state) :
  Simulation.step_loop args pl ri (S count) step s = Ok sf ->
  (Simulation.iteration args pl (Simulation.enter_time ri) step
     (Simulation.at_step ri step) s = Ok None /\ sf = s /\
   executed (S count) step s = []) \/
  (exists s',
      Simulation.iteration args pl (Simulation.enter_time ri) step
        (Simulation.at_step ri step) s = Ok (Some s') /\
      Simulation.step_loop args pl ri count (S step) s' = Ok sf /\
      executed (S count) step s = (step, s') :: executed count (S step) s').
Proof.
  cbn [Simulation.step_loop executed].
  destruct (Simulation.iteration _ _ _ _ _ _) as [[s'|]|e]; cbn [bind]; intro H.
  - right. exists s'. auto.
  - left. injection H as <-. auto.
  - discriminate H.
Qed.

Lemma length_records_as_described (ws : list Walker.t) :
  forall previous sum_x sum_y sum_o step,
    length (records_as_described previous sum_x sum_y sum_o step ws) = length ws.
Proof.
  induction ws as [|w ws IH]; intros; simpl; [reflexivity|].
  rewrite IH. reflexivity.
Qed.

(** The sums of an iteration that completes, as the description has
    them. *)
Lemma iteration_sums (step : nat) (l l' : Simulation.locals)
      (t t' : Simulation.totals) :
  Simulation.iteration args pl (Simulation.enter_time ri) step
    (Simulation.at_step ri step) (l, t) = Ok (Some (l', t')) ->
  let changed :=
    negb (point_eqb (Walker.get_position (Simulation.walker l'))
                    (Walker.get_position (Simulation.walker l))) in
  Simulation.simulation_distance_from_x_axis l'
    = (if changed
       then Simulation.simulation_distance_from_x_axis l
            + Qabs (Walker.y (Simulation.walker l'))
       else Simulation.simulation_distance_from_x_axis l) /\
  Simulation.simulation_distance_from_y_axis l'
    = (if changed
       then Simulation.simulation_distance_from_y_axis l
            + Qabs (Walker.x (Simulation.walker l'))
       else Simulation.simulation_distance_from_y_axis l) /\
  Simulation.simulation_distance_from_origin l'
    = (if changed
       then Simulation.simulation_distance_from_origin l
            + Walker.get_distance (Simulation.walker l')
       else Simulation.simulation_distance_from_origin l) /\
  Simulation.simulation_stats l'
    = Simulation.simulation_stats l ++ [((step + 1)%nat, averages step l')].
Proof.
  intros Hit changed. subst changed.
  destruct (iteration_completes _ _ _ _ _ _ _ _ _ Hit)
    as (l1 & _ & _ & Hw & _ & Hstats & Hacc).
  rewrite <- Hw in Hacc.
  destruct (point_eqb _ _); cbn [negb].
  - destruct Hacc as (Ho & Hx & Hy & _). auto.
  - destruct Hacc as (Ho & Hx & Hy & _). auto.
Qed.

(** The records of the loop are those of the description. *)
Lemma step_loop_records (count : nat) :
  forall step l t lf tf,
    Simulation.step_loop args pl ri count step (l, t) = Ok (lf, tf) ->
    Simulation.simulation_stats lf
    = Simulation.simulation_stats l ++
      records_as_described (Simulation.walker l)
        (Simulation.simulation_distance_from_x_axis l)
        (Simulation.simulation_distance_from_y_axis l)
        (Simulation.simulation_distance_from_origin l)
        step (walkers_of (executed count step (l, t))).
Proof.
  induction count as [|count IH]; intros step l t lf tf H.
  - cbn in H. injection H as <- <-. cbn. rewrite app_nil_r. reflexivity.
  - apply step_loop_unfold in H.
    destruct H as [(_ & Hsf & ->)|([l' t'] & Hit & Hloop & ->)].
    + injection Hsf as <- <-. cbn. rewrite app_nil_r. reflexivity.
    + rewrite (IH _ _ _ _ _ Hloop).
      destruct (iteration_sums _ _ _ _ _ Hit) as (Hx & Hy & Ho & Hstats).
      cbn [walkers_of map fst snd records_as_described].
      rewrite Hstats, <- app_assoc. cbn [app].
      rewrite <- Hx, <- Hy, <- Ho. reflexivity.
Qed.

End Run.

(** ** A plane without obstacles and portals *)

Section EmptyPlane.
Context {L : Library}.
Variables (args : Simulation.Namespace) (ri : Simulation.run_input).

Lemma build_plane_empty :
  Simulation.portals args = [] -> Simulation.obstacles args = [] ->
  Simulation.build_plane args = Plane.empty.
Proof.
  intros Hp Ho. unfold Simulation.build_plane. rewrite Hp, Ho. reflexivity.
Qed.

Lemma check_intersection_empty (current_position next_position : point) :
  Plane.check_intersection Plane.empty current_position next_position
  = Ok (Plane.Position next_position).
Proof. reflexivity. Qed.

Lemma has_possible_moves_empty (w : Walker.t) (angles : nat -> Q) :
  Utils.has_possible_moves w Plane.empty angles = Ok true.
Proof. reflexivity. Qed.

Lemma get_next_move_discrete (w : Walker.t) (d : Walker.draw) :
  Walker.walker_type w = 3%Z ->
  Walker.get_next_move w d
  = Ok (Walker.select [(0, 1); (0, -1); (1, 0); (-1, 0)] (Walker.choice d)).
Proof.
  intro H. unfold Walker.get_next_move. rewrite H. reflexivity.
Qed.

(** On the empty plane an iteration commits the move that was drawn. *)
Lemma iteration_empty (step : nat) (inp : Simulation.step_input)
      (l : Simulation.locals) (t : Simulation.totals) (d : point) :
  Walker.path (Simulation.walker l) <> [] ->
  Walker.get_next_move (Simulation.walker l) (Simulation.next_draw inp) = Ok d ->
  exists l' t',
    Simulation.iteration args Plane.empty (Simulation.enter_time ri) step inp (l, t)
    = Ok (Some (l', t')) /\
    Simulation.walker l' = Walker.move (Simulation.walker l) (fst d) (snd d).
Proof.
  intros Hpath Hnext. unfold Simulation.iteration. cbn [fst snd].
  rewrite has_possible_moves_empty. cbn [bind negb].
  unfold Simulation.resolve. rewrite Hnext. cbn [bind].
  rewrite check_intersection_empty. cbn [bind].
  destruct (account_cases args (Simulation.enter_time ri) step inp
              (Walker.get_position (Simulation.walker l))
              (Simulation.set_walker l
                 (Walker.move (Simulation.walker l) (fst d) (snd d))) t)
    as [(l1 & t1 & Hacc & Hw & _)|[_ Hlen]].
  - rewrite Hacc. cbn [bind fst snd]. rewrite record_step_ok. cbn [bind].
    eexists. eexists. split; [reflexivity|]. cbn. exact Hw.
  - exfalso. cbn in Hlen. rewrite length_app in Hlen. cbn in Hlen.
    destruct (Walker.path (Simulation.walker l)); [contradiction | cbn in Hlen; lia].
Qed.

(** On the empty plane the loop of a discrete walker runs all its
    iterations, and appends a record at each. *)
Lemma step_loop_empty_discrete (count : nat) :
  forall step l t,
    Walker.walker_type (Simulation.walker l) = 3%Z ->
    Walker.path (Simulation.walker l) <> [] ->
    exists lf tf,
      Simulation.step_loop args Plane.empty ri count step (l, t) = Ok (lf, tf) /\
      length (Simulation.simulation_stats lf)
      = (length (Simulation.simulation_stats l) + count)%nat.
Proof.
  induction count as [|count IH]; intros step l t Hkind Hpath.
  - exists l, t. split; [reflexivity | lia].
  - destruct (iteration_empty step (Simulation.at_step ri step) l t _ Hpath
                (get_next_move_discrete _ _ Hkind)) as (l' & t' & Hit & Hw).
    destruct (IH (S step) l' t') as (lf & tf & Hloop & Hlen).
    + rewrite Hw. exact Hkind.
    + rewrite Hw. cbn. destruct (Walker.path (Simulation.walker l)); discriminate.
    + exists lf, tf. cbn [Simulation.step_loop]. rewrite Hit. cbn [bind].
      split; [exact Hloop|]. rewrite Hlen.
      destruct (iteration_sums _ _ _ _ _ _ _ _ Hit) as (_ & _ & _ & Hstats).
      rewrite Hstats, length_app. cbn. lia.
Qed.

Lemma one_run_empty_discrete (i : nat) (t : Simulation.totals)
      (multi : list Simulation.run_entry) :
  Simulation.walker_type args = 3%Z ->
  exists t' rs records,
    Simulation.one_run args Plane.empty i ri (t, multi)
    = Ok (t', multi ++ [((i + 1)%nat, rs, records)]) /\
    length records = Z.to_nat (Simulation.steps args).
Proof.
  intro Hkind. unfold Simulation.one_run.
  assert (Hnew : Simulation.new_walker args
                 = Ok (Walker.mk 0 0 0 [(0, 0)] Walker.default_weights 3)).
  { unfold Simulation.new_walker. rewrite Hkind.
    destruct (Simulation.weights args); reflexivity. }
  rewrite Hnew. cbn [bind].
  destruct (step_loop_empty_discrete (Z.to_nat (Simulation.steps args)) 0
              (Simulation.new_locals
                 (Walker.mk 0 0 0 [(0, 0)] Walker.default_weights 3)) t)
    as (lf & tf & Hloop & Hlen); [reflexivity | discriminate |].
  rewrite Hloop. cbn [bind]. rewrite !div_of_nat_succ. cbn [bind].
  eexists. eexists. eexists. split; [reflexivity | exact Hlen].
Qed.

End EmptyPlane.

(** C5.  Every executed step appends exactly one record, keyed by the step
    index counted from 1, whose three averages are the sums of the run so
    far divided by that index; the records of a run are, in order, those of
    [records_as_described], one per executed step.  A run of a discrete
    walker for 5 steps without obstacles and portals completes with exactly
    5 records. *)
Theorem one_record_per_executed_step :
  forall (L : Library) (args : Simulation.Namespace) (pl : Plane.t)
         (ri : Simulation.run_input),
    (forall step l t l' t',
        Simulation.iteration args pl (Simulation.enter_time ri) step
          (Simulation.at_step ri step) (l, t) = Ok (Some (l', t')) ->
        Simulation.simulation_stats l'
        = Simulation.simulation_stats l ++
          [((step + 1)%nat,
            Simulation.mk_step_stats
              (Simulation.simulation_distance_from_x_axis l'
               / Simulation.of_nat (step + 1))
              (Simulation.simulation_distance_from_y_axis l'
               / Simulation.of_nat (step + 1))
              (Simulation.simulation_distance_from_origin l'
               / Simulation.of_nat (step + 1)))]) /\
    (forall count w t lf tf,
        Simulation.step_loop args pl ri count 0 (Simulation.new_locals w, t)
        = Ok (lf, tf) ->
        let ex := executed args pl ri count 0 (Simulation.new_locals w, t) in
        Simulation.simulation_stats lf
        = records_as_described w 0 0 0 0 (walkers_of ex) /\
        length (Simulation.simulation_stats lf) = length ex) /\
    (Simulation.walker_type args = 3%Z -> Simulation.steps args = 5%Z ->
     Simulation.portals args = [] -> Simulation.obstacles args = [] ->
     forall i t multi,
     exists t' rs records,
       Simulation.one_run args (Simulation.build_plane args) i ri (t, multi)
       = Ok (t', multi ++ [((i + 1)%nat, rs, records)]) /\
       length records = 5%nat).
Proof.
  intros L args pl ri. split; [|split].
  - intros step l t l' t' Hit.
    apply (iteration_sums _ _ _ _ _ _ _ _ Hit).
  - intros count w t lf tf Hloop ex.
    pose proof (step_loop_records _ _ _ _ _ _ _ _ _ Hloop) as H.
    cbn [Simulation.new_locals Simulation.simulation_stats Simulation.walker
         Simulation.simulation_distance_from_x_axis
         Simulation.simulation_distance_from_y_axis
         Simulation.simulation_distance_from_origin app] in H.
    split; [exact H|].
    rewrite H, length_records_as_described. unfold walkers_of.
    apply length_map.
  - intros Hkind Hsteps Hp Ho i t multi.
    rewrite (build_plane_empty _ Hp Ho).
    destruct (one_run_empty_discrete args ri i t multi Hkind)
      as (t' & rs & records & Hrun & Hlen).
    exists t', rs, records. split; [exact Hrun|].
    rewrite Hlen, Hsteps. reflexivity.
Qed.

Lemma one_record_per_executed_step_witness :
  let args := Examples.args 5 1 Plane.empty in
  let ri := Simulation.mk_run_input 0
              (fun k => nth k [Examples.up; Examples.up; Examples.up;
                               Examples.down; Examples.down] Examples.up) in
  exists t' rs records,
    Simulation.one_run (L := Reference.library) args (Simulation.build_plane args)
      0 ri (Simulation.no_totals, [])
    = Ok (t', [] ++ [((0 + 1)%nat, rs, records)]) /\
    length records = 5%nat.
Proof.
  intros args ri.
  apply (proj2 (proj2 (one_record_per_executed_step Reference.library args
                         Plane.empty ri))); reflexivity.
Defined.

(** The third of the five records of that run, by hand: the walker has been
    at (0,1), (0,2) and (0,3), so the sums are 6 from the x-axis, 0 from the
    y-axis and 6 from the origin. *)
Example third_record_of_five :
  let pl := Plane.empty in
  let r := Examples.run pl 1 [Examples.up; Examples.up; Examples.up;
                              Examples.down; Examples.down] in
  nth_error (Simulation.simulation_stats (fst (Examples.state_of r))) 2
  = Some (3%nat, Simulation.mk_step_stats (6 / 3) (0 / 3) (6 / 3)).
Proof. vm_compute. reflexivity. Qed.

(** ** Leaving the radius of 10 *)

(** The exit as the description has it: the step count of the walker and
    the time elapsed at the first executed step after which the distance
    from the origin exceeds 10. *)
Fixpoint first_exit {L : Library} (ri : Simulation.run_input)
         (ex : list (nat * Simulation.state)) : option (nat * Q) :=
  match ex with
  | [] => None
  | (step, s) :: rest =>
      if Qltb 10 (Walker.get_distance (Simulation.walker (fst s)))
      then Some (Walker.get_steps (Simulation.walker (fst s)),
                 Simulation.now (Simulation.at_step ri step) - Simulation.enter_time ri)
      else first_exit ri rest
  end.

(** The two exit metrics of a run, given its first exit. *)
Definition exit_metrics (default : nat) (e : option (nat * Q)) : nat * option Q :=
  match e with
  | Some (n, time) => (n, Some time)
  | None => (default, None)
  end.

Section Exit.
Context {L : Library}.
Variables (args : Simulation.Namespace) (pl : Plane.t) (ri : Simulation.run_input).
Hypothesis sqrt_proper : Proper (Qeq ==> Qeq) sqrt.

Lemma Qltb_comp (c a b : Q) : a == b -> Qltb c a = Qltb c b.
Proof.
  intro H. unfold Qltb. rewrite H. reflexivity.
Qed.

Lemma get_distance_same_position (w w' : Walker.t) :
  point_eqb (Walker.get_position w') (Walker.get_position w) = true ->
  Walker.get_distance w' == Walker.get_distance w.
Proof.
  unfold point_eqb. cbn [fst snd Walker.get_position].
  rewrite andb_true_iff, !Qeq_bool_iff. intros [Hx Hy].
  unfold Walker.get_distance. apply sqrt_proper. rewrite Hx, Hy. reflexivity.
Qed.

(** Once recorded, the exit is kept by every iteration. *)
Lemma iteration_keeps_exit (step : nat) (inp : Simulation.step_input)
      (l l' : Simulation.locals) (t t' : Simulation.totals) (e : Q) (enter : Q) :
  Simulation.iteration args pl enter step inp (l, t) = Ok (Some (l', t')) ->
  Simulation.simulation_exit_time l = Some e ->
  Simulation.simulation_exit_time l' = Some e /\
  Simulation.simulation_steps_to_exit l' = Simulation.simulation_steps_to_exit l.
Proof.
  intros Hit He.
  destruct (iteration_completes _ _ _ _ _ _ _ _ _ Hit)
    as (l1 & _ & _ & _ & _ & _ & Hacc).
  destruct (point_eqb _ _).
  - destruct Hacc as (_ & _ & _ & _ & Het & Hst & _). rewrite Het, Hst. auto.
  - destruct Hacc as (_ & _ & _ & _ & Het & Hst & _).
    rewrite He in Het, Hst. cbn in Het, Hst. rewrite Het, Hst. auto.
Qed.

Lemma step_loop_keeps_exit (count : nat) :
  forall step l t lf tf e,
    Simulation.step_loop args pl ri count step (l, t) = Ok (lf, tf) ->
    Simulation.simulation_exit_time l = Some e ->
    Simulation.simulation_exit_time lf = Some e /\
    Simulation.simulation_steps_to_exit lf = Simulation.simulation_steps_to_exit l.
Proof.
  induction count as [|count IH]; intros step l t lf tf e H He.
  - cbn in H. injection H as <- <-. auto.
  - apply step_loop_unfold in H.
    destruct H as [(_ & Hsf & _)|([l' t'] & Hit & Hloop & _)].
    + injection Hsf as <- <-. auto.
    + destruct (iteration_keeps_exit _ _ _ _ _ _ _ _ Hit He) as [He' Hst'].
      destruct (IH _ _ _ _ _ _ Hloop He') as [Hef Hstf].
      rewrite Hef, Hstf, Hst'. auto.
Qed.

(** An iteration from locals without an exit, whose walker is within the
    radius: the exit is recorded exactly when the walker is beyond the
    radius after it. *)
Lemma iteration_first_exit (step : nat) (l l' : Simulation.locals)
      (t t' : Simulation.totals) :
  Simulation.iteration args pl (Simulation.enter_time ri) step
    (Simulation.at_step ri step) (l, t) = Ok (Some (l', t')) ->
  Simulation.simulation_exit_time l = None ->
  Qltb 10 (Walker.get_distance (Simulation.walker l)) = false ->
  if Qltb 10 (Walker.get_distance (Simulation.walker l'))
  then Simulation.simulation_exit_time l'
       = Some (Simulation.now (Simulation.at_step ri step) - Simulation.enter_time ri) /\
       Simulation.simulation_steps_to_exit l' = Walker.get_steps (Simulation.walker l')
  else Simulation.simulation_exit_time l' = None /\
       Simulation.simulation_steps_to_exit l' = Simulation.simulation_steps_to_exit l.
Proof.
  intros Hit He Hin.
  destruct (iteration_completes _ _ _ _ _ _ _ _ _ Hit)
    as (l1 & _ & _ & Hw & _ & _ & Hacc).
  rewrite <- Hw in Hacc.
  destruct (point_eqb _ _) eqn:P.
  - apply get_distance_same_position in P.
    rewrite (Qltb_comp 10 _ _ P), Hin.
    destruct Hacc as (_ & _ & _ & _ & Het & Hst & _). rewrite Het, Hst. auto.
  - destruct Hacc as (_ & _ & _ & _ & Het & Hst & _).
    rewrite He in Het, Hst. cbn [Simulation.is_none andb] in Het, Hst.
    destruct (Qltb 10 (Walker.get_distance (Simulation.walker l'))); auto.
Qed.

Lemma step_loop_first_exit (count : nat) :
  forall step l t lf tf,
    Simulation.step_loop args pl ri count step (l, t) = Ok (lf, tf) ->
    Simulation.simulation_exit_time l = None ->
    Qltb 10 (Walker.get_distance (Simulation.walker l)) = false ->
    (Simulation.simulation_steps_to_exit lf, Simulation.simulation_exit_time lf)
    = exit_metrics (Simulation.simulation_steps_to_exit l)
        (first_exit ri (executed args pl ri count step (l, t))).
Proof.
  induction count as [|count IH]; intros step l t lf tf H He Hin.
  - cbn in H. injection H as <- <-. cbn. rewrite He. reflexivity.
  - apply step_loop_unfold in H.
    destruct H as [(_ & Hsf & ->)|([l' t'] & Hit & Hloop & ->)].
    + injection Hsf as <- <-. cbn. rewrite He. reflexivity.
    + pose proof (iteration_first_exit _ _ _ _ _ Hit He Hin) as Hone.
      cbn [first_exit fst snd].
      destruct (Qltb 10 (Walker.get_distance (Simulation.walker l'))) eqn:Hout.
      * destruct Hone as [He' Hst'].
        destruct (step_loop_keeps_exit _ _ _ _ _ _ _ Hloop He') as [Hef Hstf].
        cbn. rewrite Hef, Hstf, Hst'. reflexivity.
      * destruct Hone as [He' Hst'].
        rewrite (IH _ _ _ _ _ Hloop He' Hout), Hst'. reflexivity.
Qed.

End Exit.

Section OneRun.
Context {L : Library}.
Variables (args : Simulation.Namespace) (pl : Plane.t) (ri : Simulation.run_input).

Lemma new_walker_at_origin (w : Walker.t) :
  Simulation.new_walker args = Ok w ->
  exists weights walker_type, w = Walker.mk 0 0 0 [(0, 0)] weights walker_type.
Proof.
  unfold Simulation.new_walker, Walker.init. intro H.
  destruct (Simulation.weights args) as [ws|];
    [destruct (Simulation.walker_type args =? 4)%Z|];
    destruct (negb _); try discriminate H; injection H as <-; eauto.
Qed.

(** A run that completes: its walker, the locals at the end of its loop
    and the entry it appends. *)
Lemma one_run_completes (i : nat) (t t' : Simulation.totals)
      (multi multi' : list Simulation.run_entry) :
  Simulation.one_run args pl i ri (t, multi) = Ok (t', multi') ->
  exists w lf tf rs,
    Simulation.new_walker args = Ok w /\
    Simulation.step_loop args pl ri (Z.to_nat (Simulation.steps args)) 0
      (Simulation.new_locals w, t) = Ok (lf, tf) /\
    multi' = multi ++ [((i + 1)%nat, rs, Simulation.simulation_stats lf)] /\
    Simulation.number_of_steps_to_exit rs = Simulation.simulation_steps_to_exit lf /\
    Simulation.time_to_exit rs = Simulation.simulation_exit_time lf /\
    Simulation.number_of_times_crossed_y_axis rs
      = Simulation.simulation_y_axis_cross_count lf /\
    Simulation.avg_distance_from_origin_after_n_steps rs
      = Simulation.total_distance_from_origin tf / Simulation.of_nat (i + 1) /\
    Simulation.avg_distance_from_x_axis_after_n_steps rs
      = Simulation.total_distance_from_x_axis tf / Simulation.of_nat (i + 1) /\
    Simulation.avg_distance_from_y_axis_after_n_steps rs
      = Simulation.total_distance_from_y_axis tf / Simulation.of_nat (i + 1).
Proof.
  unfold Simulation.one_run. intro H.
  destruct (Simulation.new_walker args) as [w|e]; [|discriminate H].
  cbn [bind] in H.
  destruct (Simulation.step_loop _ _ _ _ _ _) as [[lf tf]|e] eqn:Hloop;
    [|discriminate H].
  cbn [bind] in H. rewrite !div_of_nat_succ in H. cbn [bind] in H.
  injection H as <- <-.
  exists w, lf, tf. eexists. split; [reflexivity|]. split; [exact Hloop|].
  split; [reflexivity|]. cbn. auto 10.
Qed.

End OneRun.

(** C7.  Once an exit is recorded, no later step of the run overwrites it.
    The exit metrics in the record of a completed run are the step count of
    the walker and the elapsed time at the first executed step after which
    the distance from the origin exceeds 10, and are 0 and [None] when no
    step does.  ([math.sqrt] is taken to give equal results on equal
    numbers and at most 10 at 0.) *)
Theorem exit_radius_recorded_at_first_crossing :
  forall (L : Library) (args : Simulation.Namespace) (pl : Plane.t)
         (ri : Simulation.run_input),
    (forall enter step inp l t l' t' e,
        Simulation.iteration args pl enter step inp (l, t) = Ok (Some (l', t')) ->
        Simulation.simulation_exit_time l = Some e ->
        Simulation.simulation_exit_time l' = Some e /\
        Simulation.simulation_steps_to_exit l'
        = Simulation.simulation_steps_to_exit l) /\
    (Proper (Qeq ==> Qeq) sqrt -> sqrt 0 <= 10 ->
     forall i t multi t' multi',
       Simulation.one_run args pl i ri (t, multi) = Ok (t', multi') ->
       exists w rs records,
         Simulation.new_walker args = Ok w /\
         multi' = multi ++ [((i + 1)%nat, rs, records)] /\
         (Simulation.number_of_steps_to_exit rs, Simulation.time_to_exit rs)
         = exit_metrics 0
             (first_exit ri
                (executed args pl ri (Z.to_nat (Simulation.steps args)) 0
                   (Simulation.new_locals w, t)))).
Proof.
  intros L args pl ri. split.
  - intros enter step inp l t l' t' e Hit He.
    eapply iteration_keeps_exit; eassumption.
  - intros Hproper Hzero i t multi t' multi' Hrun.
    destruct (one_run_completes _ _ _ _ _ _ _ _ Hrun)
      as (w & lf & tf & rs & Hnew & Hloop & Hmulti & Hsteps & Htime & _).
    exists w, rs, (Simulation.simulation_stats lf).
    split; [exact Hnew|]. split; [exact Hmulti|].
    rewrite Hsteps, Htime.
    destruct (new_walker_at_origin _ _ Hnew) as (ws & wt & ->).
    apply (step_loop_first_exit args pl ri Hproper _ _ _ _ _ _ Hloop).
    + reflexivity.
    + apply Qltb_ge. exact Hzero.
Qed.

(** Eleven steps up take a discrete walker beyond the radius at the
    eleventh; the run goes on for one more step. *)
Definition climb : Simulation.run_input :=
  Simulation.mk_run_input 2
    (fun k => Simulation.mk_step_input (fun _ => 0) (Walker.mk_draw 0 1 0)
                (Simulation.of_nat k + 3)).
Definition climbed : Simulation.totals * list Simulation.run_entry :=
  Eval vm_compute in
    match Simulation.one_run (L := Reference.library)
            (Examples.args 12 1 Plane.empty) Plane.empty 0 climb
            (Simulation.no_totals, []) with
    | Ok r => r
    | Raise _ => (Simulation.no_totals, [])
    end.

Lemma reference_sqrt_proper : Proper (Qeq ==> Qeq) Reference.sqrt.
Proof.
  intros a b H. unfold Reference.sqrt. rewrite (Qred_complete _ _ H). reflexivity.
Qed.

Lemma exit_radius_recorded_at_first_crossing_witness :
  exists w rs records,
    Simulation.new_walker (Examples.args 12 1 Plane.empty) = Ok w /\
    snd climbed = [] ++ [((0 + 1)%nat, rs, records)] /\
    (Simulation.number_of_steps_to_exit rs, Simulation.time_to_exit rs)
    = exit_metrics 0
        (first_exit (L := Reference.library) climb
           (executed (L := Reference.library) (Examples.args 12 1 Plane.empty)
              Plane.empty climb
              (Z.to_nat (Simulation.steps (Examples.args 12 1 Plane.empty))) 0
              (Simulation.new_locals w, Simulation.no_totals))).
Proof.
  apply (proj2 (exit_radius_recorded_at_first_crossing Reference.library
                  (Examples.args 12 1 Plane.empty) Plane.empty climb)
           reference_sqrt_proper) with (t' := fst climbed).
  - vm_compute. discriminate.
  - vm_compute. reflexivity.
Defined.

(** In that run the exit is recorded at the eleventh step, 11 after the
    start of the run, and kept at the twelfth. *)
Example climb_exits_at_step_11 :
  match snd climbed with
  | [(_, rs, records)] =>
      Simulation.number_of_steps_to_exit rs = 11%nat /\
      Simulation.time_to_exit rs = Some (10 + 3 - 2) /\
      length records = 12%nat
  | _ => False
  end.
Proof. vm_compute. auto. Qed.

(** ** The totals at the cutoff *)

(** The totals with the three sums of the locals added. *)
Definition folded (t : Simulation.totals) (l : Simulation.locals) : Simulation.totals :=
  Simulation.mk_totals
    (Simulation.total_distance_from_origin t
     + Simulation.simulation_distance_from_origin l)
    (Simulation.total_exit_time t)
    (Simulation.total_distance_from_x_axis t
     + Simulation.simulation_distance_from_x_axis l)
    (Simulation.total_distance_from_y_axis t
     + Simulation.simulation_distance_from_y_axis l)
    (Simulation.total_steps_to_exit t) (Simulation.total_y_axis_crosses t)
    (Simulation.total_unsuccessful_moves t).

(** What an iteration that completes does to the totals: at the cutoff it
    adds the sums of the run when the position changed at that step, and
    nothing otherwise; at the other steps it adds nothing. *)
Lemma totals_folded_only_when_position_changed {L : Library}
      (args : Simulation.Namespace) (pl : Plane.t) (enter : Q) (step : nat)
      (inp : Simulation.step_input) (l l' : Simulation.locals)
      (t t' : Simulation.totals) :
  Simulation.iteration args pl enter step inp (l, t) = Ok (Some (l', t')) ->
  t' = if (Simulation.n_steps args =? Z.of_nat (step + 1))%Z
          && negb (point_eqb (Walker.get_position (Simulation.walker l'))
                             (Walker.get_position (Simulation.walker l)))
       then folded t l'
       else t.
Proof.
  intro Hit.
  destruct (iteration_completes _ _ _ _ _ _ _ _ _ Hit)
    as (l1 & _ & _ & Hw & _ & _ & Hacc).
  rewrite <- Hw in Hacc.
  destruct (point_eqb _ _); cbn [negb].
  - rewrite andb_false_r. apply Hacc.
  - rewrite andb_true_r. apply Hacc.
Qed.

(** A session of one run of two steps, with the cutoff at the second: a
    discrete walker steps up, and its second move is stopped by the wall
    across x = 1/2. *)
Definition blocked_at_cutoff : Simulation.Namespace :=
  Simulation.mk_args 3 2 1 2 [] [((1 # 2, -1), (1 # 2, 1))] None.
Definition up_then_right (i : nat) : Simulation.run_input :=
  Simulation.mk_run_input 0
    (fun k => nth k [Examples.up; Examples.right] Examples.up).

(** C6.  The code does not fold the sums of every run at the cutoff.  In
    the session [blocked_at_cutoff] the step of index 2, the cutoff, is
    executed and leaves the position unchanged; its record shows the sums
    1, 0 and 1 of the run, the totals stay 0, and so do the averages after
    N steps of the run and the session averages printed at the end. *)
Theorem cutoff_sums_dropped_when_the_step_is_blocked :
  exists rs records printed,
    Simulation.run_simulation (L := Reference.library) blocked_at_cutoff up_then_right
    = Ok ([(1%nat, rs, records)], printed) /\
    nth_error records 1 = Some (2%nat, Simulation.mk_step_stats (1 / 2) (0 / 2) (1 / 2)) /\
    Simulation.number_of_unsuccessful_moves rs = 1%nat /\
    Simulation.avg_distance_from_origin_after_n_steps rs = 0 /\
    Simulation.avg_distance_from_x_axis_after_n_steps rs = 0 /\
    Simulation.avg_distance_from_y_axis_after_n_steps rs = 0 /\
    printed = [0 / 2; 0 / 2; 0 / 2; 1].
Proof.
  eexists. eexists. eexists. split.
  - vm_compute. reflexivity.
  - vm_compute. auto 10.
Qed.

(** * Further properties of the walker *)

(** The operations that change a walker. *)
Inductive walker_op : Type :=
| OpMove (dx dy : Q)
| OpSetPosition (x y : Q)
| OpReset.

Definition apply_op (w : Walker.t) (op : walker_op) : Walker.t :=
  match op with
  | OpMove dx dy => Walker.move w dx dy
  | OpSetPosition x y => Walker.set_position w x y
  | OpReset => Walker.reset_position w
  end.

Definition apply_ops (w : Walker.t) (ops : list walker_op) : Walker.t :=
  fold_left apply_op ops w.

(** What every operation keeps: the kind, the weights, a path that starts
    at the origin and holds one entry more than the step count. *)
Definition well_formed (walker_type : Z) (weights : list Z) (w : Walker.t) : Prop :=
  Walker.walker_type w = walker_type /\
  Walker.weights w = weights /\
  length (Walker.path w) = (Walker.steps w + 1)%nat /\
  exists later, Walker.path w = (0, 0) :: later.

Lemma well_formed_op (walker_type : Z) (weights : list Z) (w : Walker.t)
      (op : walker_op) :
  well_formed walker_type weights w -> well_formed walker_type weights (apply_op w op).
Proof.
  intros (Hk & Hw & Hlen & later & Hpath).
  destruct op as [dx dy|x y|]; unfold well_formed, apply_op.
  - cbn [Walker.move Walker.walker_type Walker.weights Walker.path Walker.steps].
    split; [exact Hk|]. split; [exact Hw|]. split.
    + rewrite length_app, Hlen. cbn. lia.
    + rewrite Hpath. eexists. reflexivity.
  - cbn [Walker.set_position Walker.walker_type Walker.weights Walker.path
         Walker.steps].
    split; [exact Hk|]. split; [exact Hw|]. split; [exact Hlen|]. eauto.
  - cbn [Walker.reset_position Walker.walker_type Walker.weights Walker.path
         Walker.steps].
    split; [exact Hk|]. split; [exact Hw|]. split; [reflexivity|]. eauto.
Qed.

Lemma well_formed_ops (walker_type : Z) (weights : list Z) (ops : list walker_op) :
  forall w,
    well_formed walker_type weights w ->
    well_formed walker_type weights (apply_ops w ops).
Proof.
  induction ops as [|op ops IH]; intros w H; cbn; [exact H|].
  apply IH. apply well_formed_op. exact H.
Qed.

Lemma apply_ops_snoc (w : Walker.t) (ops : list walker_op) (op : walker_op) :
  apply_ops w (ops ++ [op]) = apply_op (apply_ops w ops) op.
Proof.
  unfold apply_ops. rewrite fold_left_app. reflexivity.
Qed.

(** X1.  Whatever moves, direct placements and resets a constructed walker
    goes through, its kind and weights stay those of construction, its path
    starts at the origin and holds one entry more than its step count; and
    whenever the last operation is a move, the position is the last path
    entry again, also after direct placements. *)
Theorem walker_operations_keep_the_path_length :
  forall (walker_type : Z) (weights : list Z) (w : Walker.t) (ops : list walker_op),
    Walker.init walker_type weights = Ok w ->
    let w' := apply_ops w ops in
    Walker.get_walker_type w' = walker_type /\
    Walker.weights w' = weights /\
    length (Walker.get_path w') = (Walker.get_steps w' + 1)%nat /\
    (exists later, Walker.get_path w' = (0, 0) :: later) /\
    forall dx dy,
      let w'' := apply_ops w (ops ++ [OpMove dx dy]) in
      exists earlier, Walker.get_path w'' = earlier ++ [Walker.get_position w''].
Proof.
  intros walker_type weights w ops Hinit w'.
  assert (Hw : well_formed walker_type weights w).
  { unfold Walker.init in Hinit. destruct (negb _); [discriminate|].
    injection Hinit as <-. repeat split. exists []. reflexivity. }
  pose proof (well_formed_ops walker_type weights ops w Hw) as (Hk & Hws & Hlen & Hpath).
  repeat split; auto.
  intros dx dy w''. unfold w''. rewrite apply_ops_snoc. cbn.
  eexists. reflexivity.
Qed.

Lemma walker_operations_keep_the_path_length_witness :
  let w := Walker.mk 0 0 0 [(0, 0)] Walker.default_weights 3 in
  let w' := apply_ops w [OpMove 1 0; OpSetPosition 10 10; OpMove 0 1] in
  Walker.get_walker_type w' = 3%Z /\
  Walker.weights w' = Walker.default_weights /\
  length (Walker.get_path w') = (Walker.get_steps w' + 1)%nat /\
  (exists later, Walker.get_path w' = (0, 0) :: later) /\
  forall dx dy,
    let w'' := apply_ops w ([OpMove 1 0; OpSetPosition 10 10; OpMove 0 1]
                            ++ [OpMove dx dy]) in
    exists earlier, Walker.get_path w'' = earlier ++ [Walker.get_position w''].
Proof.
  apply (walker_operations_keep_the_path_length 3 Walker.default_weights
           (Walker.mk 0 0 0 [(0, 0)] Walker.default_weights 3)
           [OpMove 1 0; OpSetPosition 10 10; OpMove 0 1]).
  reflexivity.
Defined.

(** X2.  [reset_position] takes a walker back to the state of its
    construction, whatever it went through. *)
Theorem reset_position_restores_construction :
  forall (walker_type : Z) (weights : list Z) (w : Walker.t) (ops : list walker_op),
    Walker.init walker_type weights = Ok w ->
    Walker.reset_position (apply_ops w ops) = w.
Proof.
  intros walker_type weights w ops Hinit.
  assert (Hw : well_formed walker_type weights w).
  { unfold Walker.init in Hinit. destruct (negb _); [discriminate|].
    injection Hinit as <-. repeat split. exists []. reflexivity. }
  destruct (well_formed_ops walker_type weights ops w Hw) as (Hk & Hws & _).
  unfold Walker.reset_position. rewrite Hk, Hws.
  unfold Walker.init in Hinit. destruct (negb _); [discriminate|].
  injection Hinit as <-. reflexivity.
Qed.

Lemma reset_position_restores_construction_witness :
  Walker.reset_position
    (apply_ops (Walker.mk 0 0 0 [(0, 0)] [2; 1; 1; 1; 3]%Z 4)
       [OpMove 1 0; OpSetPosition 10 10; OpMove 0 1])
  = Walker.mk 0 0 0 [(0, 0)] [2; 1; 1; 1; 3]%Z 4.
Proof.
  apply (reset_position_restores_construction 4 [2; 1; 1; 1; 3]%Z).
  reflexivity.
Defined.

(** ** The next move *)

Definition unit_moves : list point := [(0, 1); (0, -1); (1, 0); (-1, 0)].

Lemma select_in (population : list point) (i : nat) :
  population <> [] -> In (Walker.select population i) population.
Proof.
  intro H. unfold Walker.select. apply nth_In.
  apply Nat.mod_upper_bound. destruct population; [contradiction | discriminate].
Qed.

Lemma too_large_for_float_spec (n : Z) :
  Walker.too_large_for_float n = true <-> (Walker.FLOAT_LIMIT <= Z.abs n)%Z.
Proof. unfold Walker.too_large_for_float. apply Z.leb_le. Qed.

Lemma not_too_large_for_float (n : Z) :
  Walker.too_large_for_float n = false <-> (Z.abs n < Walker.FLOAT_LIMIT)%Z.
Proof. unfold Walker.too_large_for_float. apply Z.leb_gt. Qed.

(** X3.  The move drawn for a discrete walker is always one of the four
    unit moves along the axes.  The move drawn for a weighted walker with
    five weights, of a total that is positive and below the limit of the
    conversion to a float, is one of those four or the opposite of its
    position, and committing that fifth move puts the walker at the
    origin. *)
Theorem discrete_moves_are_unit_moves :
  forall (L : Library) (w : Walker.t) (d : Walker.draw),
    (Walker.get_walker_type w = 3%Z ->
     exists m, Walker.get_next_move w d = Ok m /\ In m unit_moves) /\
    (Walker.get_walker_type w = 4%Z ->
     length (Walker.weights w) = 5%nat ->
     (0 < fold_right Z.add 0 (Walker.weights w) < Walker.FLOAT_LIMIT)%Z ->
     exists m,
       Walker.get_next_move w d = Ok m /\
       (In m unit_moves \/ m = (- Walker.x w, - Walker.y w))) /\
    point_eqb
      (Walker.get_position (Walker.move w (- Walker.x w) (- Walker.y w))) (0, 0)
    = true.
Proof.
  intros L w d. split; [|split].
  - intro Hk. unfold Walker.get_walker_type in Hk.
    unfold Walker.get_next_move. rewrite Hk. cbn [Z.eqb Pos.eqb].
    eexists. split; [reflexivity|]. apply select_in. discriminate.
  - intros Hk Hlen Hsum. unfold Walker.get_walker_type in Hk.
    unfold Walker.get_next_move. rewrite Hk, Hlen. cbn [Z.eqb Pos.eqb].
    cbn [length Nat.eqb negb].
    replace (Walker.too_large_for_float (fold_right Z.add 0%Z (Walker.weights w)))
      with false by (symmetry; apply not_too_large_for_float; lia).
    replace (fold_right Z.add 0 (Walker.weights w) <=? 0)%Z with false
      by (symmetry; apply Z.leb_gt; lia).
    eexists. split; [reflexivity|].
    pose proof (select_in [(0, 1); (0, -1); (1, 0); (-1, 0);
                           (- Walker.x w, - Walker.y w)] (Walker.choice d)) as Hin.
    destruct Hin as [H|[H|[H|[H|[H|[]]]]]]; [discriminate | | | | |];
      rewrite <- H; unfold unit_moves; cbn; auto 6.
  - unfold point_eqb. cbn. apply andb_true_iff.
    split; apply Qeq_bool_iff; ring.
Qed.

Lemma discrete_moves_are_unit_moves_witness :
  (exists m,
      Walker.get_next_move (L := Reference.library) Examples.moved_up
        (Walker.mk_draw 0 1 6) = Ok m /\ In m unit_moves) /\
  (exists m,
      Walker.get_next_move (L := Reference.library)
        (Walker.mk 3 (-2) 5 [(0, 0)] [1; 1; 1; 1; 1]%Z 4) (Walker.mk_draw 0 1 4) = Ok m /\
      (In m unit_moves \/ m = (- (3), - (-2)))).
Proof.
  split.
  - apply (discrete_moves_are_unit_moves Reference.library Examples.moved_up
             (Walker.mk_draw 0 1 6)). reflexivity.
  - apply (discrete_moves_are_unit_moves Reference.library
             (Walker.mk 3 (-2) 5 [(0, 0)] [1; 1; 1; 1; 1]%Z 4) (Walker.mk_draw 0 1 4));
      [reflexivity | reflexivity | vm_compute; split; reflexivity].
Defined.

(** X4.  [get_next_move] raises only [ValueError] and [OverflowError].  It
    raises [OverflowError] exactly when the kind is the weighted one, the
    weights are five and their total is too large to be converted to a
    float; it raises [ValueError] exactly when the kind is none of the four,
    or the kind is the weighted one and the weights are not five, or are
    five of a total that is not more than zero and is not too large.  The
    weights of the other three kinds are never looked at. *)
Theorem get_next_move_raises_on_bad_weights_only :
  forall (L : Library) (w : Walker.t) (d : Walker.draw),
    (forall e, Walker.get_next_move w d = Raise e ->
               e = ValueError \/ e = OverflowError) /\
    (Walker.get_next_move w d = Raise OverflowError <->
     Walker.get_walker_type w = 4%Z /\
     length (Walker.weights w) = 5%nat /\
     (Walker.FLOAT_LIMIT <= Z.abs (fold_right Z.add 0 (Walker.weights w)))%Z) /\
    (Walker.get_next_move w d = Raise ValueError <->
     ~ In (Walker.get_walker_type w) [1; 2; 3; 4]%Z \/
     (Walker.get_walker_type w = 4%Z /\
      (length (Walker.weights w) <> 5%nat \/
       (fold_right Z.add 0 (Walker.weights w) <= 0)%Z /\
       (Z.abs (fold_right Z.add 0 (Walker.weights w)) < Walker.FLOAT_LIMIT)%Z))).
Proof.
  intros L w d. unfold Walker.get_next_move, Walker.get_walker_type.
  unfold Walker.NORMAL_WALKER, Walker.UNEVEN_STEP_WALKER,
    Walker.DISCRETE_WALKER, Walker.UNEVEN_DISTRIBUTION_WALKER.
  destruct (Z.eqb_spec (Walker.walker_type w) 1) as [E1|E1].
  { split; [discriminate|]. split; (split; [discriminate|]).
    - intros [H _]. lia.
    - intros [H|[H _]]; [exfalso; apply H; rewrite E1; cbn; auto | lia]. }
  destruct (Z.eqb_spec (Walker.walker_type w) 2) as [E2|E2].
  { split; [discriminate|]. split; (split; [discriminate|]).
    - intros [H _]. lia.
    - intros [H|[H _]]; [exfalso; apply H; rewrite E2; cbn; auto | lia]. }
  destruct (Z.eqb_spec (Walker.walker_type w) 3) as [E3|E3].
  { split; [discriminate|]. split; (split; [discriminate|]).
    - intros [H _]. lia.
    - intros [H|[H _]]; [exfalso; apply H; rewrite E3; cbn; auto | lia]. }
  destruct (Z.eqb_spec (Walker.walker_type w) 4) as [E4|E4].
  - cbn [length].
    assert (Hin : In (Walker.walker_type w) [1; 2; 3; 4]%Z)
      by (rewrite E4; cbn; auto 6).
    destruct (Nat.eqb_spec (length (Walker.weights w)) 5) as [El|El]; cbn [negb].
    + destruct (Walker.too_large_for_float
                  (fold_right Z.add 0%Z (Walker.weights w))) eqn:Et.
      * apply too_large_for_float_spec in Et.
        split; [intros e He; right; congruence|]. split.
        -- split; [auto|reflexivity].
        -- split; [discriminate|].
           intros [H|[_ [H|[_ H]]]]; [contradiction | contradiction | lia].
      * apply not_too_large_for_float in Et.
        destruct (Z.leb_spec (fold_right Z.add 0%Z (Walker.weights w)) 0%Z) as [Es|Es].
        -- split; [intros e He; left; congruence|]. split.
           ++ split; [discriminate|]. intros (_ & _ & H). lia.
           ++ split; [auto|reflexivity].
        -- split; [discriminate|]. split; (split; [discriminate|]).
           ++ intros (_ & _ & H). lia.
           ++ intros [H|[_ [H|[H _]]]]; [contradiction | contradiction | lia].
    + split; [intros e He; left; congruence|]. split.
      * split; [discriminate|]. intros (_ & H & _). contradiction.
      * split; [auto|reflexivity].
  - split; [intros e He; left; congruence|]. split.
    + split; [discriminate|]. intros [H _]. contradiction.
    + split; [|reflexivity].
      intros _. left. cbn. intros [H|[H|[H|[H|[]]]]]; congruence.
Qed.

(** * Further properties of the plane *)




Section Outcome.
Context {L : Library}.
Variables (pl : Plane.t) (current_position next_position : point).

Lemma returns_no_overlap (r : Plane.outcome) :
  Plane.check_intersection pl current_position next_position = Ok r ->
  forall c, In c (candidates pl) -> ~ overlaps current_position next_position c.
Proof.
  intros H c Hin Hov.
  assert (E : Plane.check_intersection pl current_position next_position
              = Raise AttributeError).
  { apply check_intersection_raises_iff_overlap. exists c. auto. }
  congruence.
Qed.

Lemma candidates_index (i : nat) (c : string * Plane.object) :
  nth_error (candidates pl) i = Some c ->
  match snd c with
  | Plane.AnObstacle _ => (i < length (Plane.obstacles pl))%nat
  | Plane.APortal _ => (length (Plane.obstacles pl) <= i)%nat
  end.
Proof.
  unfold candidates. intro H.
  destruct (Nat.lt_ge_cases i (length (Plane.obstacles pl))) as [Hlt|Hge].
  - rewrite nth_error_app1 in H by (rewrite length_map; exact Hlt).
    apply nth_error_In, in_map_iff in H. destruct H as (o & <- & _). exact Hlt.
  - rewrite nth_error_app2 in H by (rewrite length_map; exact Hge).
    apply nth_error_In, in_map_iff in H. destruct H as (p & <- & _). exact Hge.
Qed.

Lemma in_candidates_index (c : string * Plane.object) :
  In c (candidates pl) -> exists j, nth_error (candidates pl) j = Some c.
Proof. apply In_nth_error. Qed.

End Outcome.

(** X6.  A portal is returned only when it meets the path strictly nearer
    to the current position than every obstacle that meets it; an obstacle
    is returned only when no portal meets the path nearer than it does.  At
    equal distances the obstacle wins. *)
Theorem portal_taken_only_when_strictly_nearer :
  forall (L : Library) (pl : Plane.t) (current_position next_position : point)
         (intersected_type : string) (intersected_object : Plane.object),
    Plane.check_intersection pl current_position next_position
    = Ok (Plane.Tagged intersected_type intersected_object) ->
    exists at_,
      intersection current_position next_position
        (Plane.get_start intersected_object) (Plane.get_end intersected_object)
      = GPoint at_ /\
      match intersected_object with
      | Plane.APortal _ =>
          forall o q,
            In o (Plane.obstacles pl) ->
            intersection current_position next_position (Plane.o_start o) (Plane.o_end o)
            = GPoint q ->
            distance current_position at_ < distance current_position q
      | Plane.AnObstacle _ =>
          forall p q,
            In p (Plane.portals pl) ->
            intersection current_position next_position (Plane.p_start p) (Plane.p_end p)
            = GPoint q ->
            distance current_position at_ <= distance current_position q
      end.
Proof.
  intros L pl cur nxt ty obj H.
  pose proof (returns_no_overlap _ _ _ _ H) as Hno.
  destruct (check_intersection_selects_nearest cur nxt pl Hno)
    as [[_ E]|(i & c & d & (Hi & (q0 & Hq0 & Hd) & Hmin) & E)]; [congruence|].
  rewrite E in H. injection H as <- <-.
  exists q0. split; [exact Hq0|].
  pose proof (candidates_index pl i c Hi) as Hidx.
  destruct (snd c) as [o0|p0] eqn:Hc.
  - intros p q Hin Hq.
    assert (Hcand : In ("portal"%string, Plane.APortal p) (candidates pl)).
    { unfold candidates. apply in_or_app. right.
      apply (in_map (fun p => ("portal"%string, Plane.APortal p))). exact Hin. }
    destruct (in_candidates_index pl _ Hcand) as [j Hj].
    destruct (Hmin j _ q Hj Hq) as [Hle _]. rewrite <- Hd. exact Hle.
  - intros o q Hin Hq.
    assert (Hcand : In ("obstacle"%string, Plane.AnObstacle o) (candidates pl)).
    { unfold candidates. apply in_or_app. left.
      apply (in_map (fun o => ("obstacle"%string, Plane.AnObstacle o))). exact Hin. }
    destruct (in_candidates_index pl _ Hcand) as [j Hj].
    pose proof (candidates_index pl j _ Hj) as Hjo. cbn in Hjo.
    destruct (Hmin j _ q Hj Hq) as [_ Hlt]. rewrite <- Hd. apply Hlt. lia.
Qed.

(** The obstacle [Examples.wall] and a portal on the same segment. *)
Definition wall_and_gate : Plane.t :=
  Plane.mk [Plane.mk_obstacle (1 # 2, -1) (1 # 2, 1)] [Examples.gate].

Lemma portal_taken_only_when_strictly_nearer_witness :
  Plane.check_intersection (L := Reference.library) wall_and_gate (0, 0) (1, 0)
  = Ok (Plane.Tagged "obstacle"
          (Plane.AnObstacle (Plane.mk_obstacle (1 # 2, -1) (1 # 2, 1)))) /\
  exists at_,
    Reference.intersection (0, 0) (1, 0) (1 # 2, -1) (1 # 2, 1) = GPoint at_ /\
    forall p q,
      In p (Plane.portals wall_and_gate) ->
      Reference.intersection (0, 0) (1, 0) (Plane.p_start p) (Plane.p_end p)
      = GPoint q ->
      Reference.distance (0, 0) at_ <= Reference.distance (0, 0) q.
Proof.
  split; [vm_compute; reflexivity|].
  apply (portal_taken_only_when_strictly_nearer Reference.library wall_and_gate
           (0, 0) (1, 0) "obstacle"
           (Plane.AnObstacle (Plane.mk_obstacle (1 # 2, -1) (1 # 2, 1)))).
  vm_compute. reflexivity.
Defined.

(** X7.  Whatever [check_intersection] returns is the next position as it
    was given, or an object that the plane holds, reported with the type
    string of its own class; so the callers' [get_destination] is only ever
    called on a portal. *)
Theorem check_intersection_returns_objects_of_the_plane :
  forall (L : Library) (pl : Plane.t) (current_position next_position : point)
         (r : Plane.outcome),
    Plane.check_intersection pl current_position next_position = Ok r ->
    match r with
    | Plane.Position p => p = next_position
    | Plane.Tagged ty (Plane.AnObstacle o) =>
        ty = "obstacle"%string /\ In o (Plane.obstacles pl)
    | Plane.Tagged ty (Plane.APortal p) =>
        ty = "portal"%string /\ In p (Plane.portals pl) /\
        Plane.get_destination (Plane.APortal p) = Ok (Plane.p_destination p)
    end.
Proof.
  intros L pl cur nxt r H. destruct r as [p|ty [o|p]].
  - eapply check_intersection_position. exact H.
  - apply (check_intersection_tagged _ _ _ _ _ H).
  - destruct (check_intersection_tagged _ _ _ _ _ H) as [Hty Hin]. auto.
Qed.

Lemma check_intersection_returns_objects_of_the_plane_witness :
  "portal"%string = "portal"%string /\
  In Examples.gate (Plane.portals Examples.gated) /\
  Plane.get_destination (Plane.APortal Examples.gate) = Ok (10, 10).
Proof.
  apply (check_intersection_returns_objects_of_the_plane Reference.library
           Examples.gated (0, 0) (1, 0)
           (Plane.Tagged "portal" (Plane.APortal Examples.gate))).
  vm_compute. reflexivity.
Defined.

(** * Further properties of the step loop *)

Section LoopRelation.
Context {L : Library}.
Variables (args : Simulation.Namespace) (pl : Plane.t) (ri : Simulation.run_input).

(** A reflexive and transitive relation that every completed iteration
    satisfies relates the state before the loop to the state after it. *)
Lemma step_loop_relation (R : Simulation.state -> Simulation.state -> Prop) :
  (forall s, R s s) ->
  (forall a b c, R a b -> R b c -> R a c) ->
  (forall step s s',
      Simulation.iteration args pl (Simulation.enter_time ri) step
        (Simulation.at_step ri step) s = Ok (Some s') -> R s s') ->
  forall count step s sf,
    Simulation.step_loop args pl ri count step s = Ok sf -> R s sf.
Proof.
  intros Hrefl Htrans Hstep. induction count as [|count IH]; intros step s sf H.
  - cbn in H. injection H as <-. apply Hrefl.
  - apply step_loop_unfold in H.
    destruct H as [(_ & -> & _)|(s' & Hit & Hloop & _)]; [apply Hrefl|].
    eapply Htrans; [eapply Hstep; exact Hit | eapply IH; exact Hloop].
Qed.

(** What a completed iteration does to the walker, the count of
    unsuccessful moves and the records: a committed move, a placement at
    the destination of a portal of the plane, or a rejected move; and one
    more record. *)
Lemma iteration_walker_cases (enter : Q) (step : nat) (inp : Simulation.step_input)
      (l l' : Simulation.locals) (t t' : Simulation.totals) :
  Simulation.iteration args pl enter step inp (l, t) = Ok (Some (l', t')) ->
  length (Simulation.simulation_stats l')
  = (length (Simulation.simulation_stats l) + 1)%nat /\
  ((exists dx dy,
       Simulation.walker l' = Walker.move (Simulation.walker l) dx dy /\
       Simulation.simulation_unsuccessful_moves l'
       = Simulation.simulation_unsuccessful_moves l) \/
   (exists p,
       In p (Plane.portals pl) /\
       Simulation.walker l'
       = Walker.set_position (Simulation.walker l)
           (fst (Plane.p_destination p)) (snd (Plane.p_destination p)) /\
       Simulation.simulation_unsuccessful_moves l'
       = Simulation.simulation_unsuccessful_moves l) \/
   (Simulation.walker l' = Simulation.walker l /\
    Simulation.simulation_unsuccessful_moves l'
    = (Simulation.simulation_unsuccessful_moves l + 1)%nat)).
Proof.
  intro Hit.
  destruct (iteration_completes _ _ _ _ _ _ _ _ _ Hit)
    as (l1 & _ & Hres & Hw & Hun & Hstats & _).
  split.
  - rewrite Hstats, length_app. reflexivity.
  - rewrite Hw, Hun.
    destruct Hres as [nxt N C|nxt obj dest N C D|nxt ty obj N C E].
    + left. eexists. eexists. split; reflexivity.
    + right. left.
      pose proof (check_intersection_tagged _ _ _ _ _ C) as T.
      destruct obj as [o|p]; [destruct T as [T _]; discriminate T|].
      destruct T as [_ Hin]. cbn in D. injection D as <-.
      exists p. auto.
    + right. right. split; reflexivity.
Qed.

Lemma iteration_breaks (enter : Q) (step : nat) (inp : Simulation.step_input)
      (s : Simulation.state) :
  Simulation.iteration args pl enter step inp s = Ok None ->
  Utils.has_possible_moves (Simulation.walker (fst s)) pl (Simulation.angles inp)
  = Ok false.
Proof.
  unfold Simulation.iteration.
  destruct (Utils.has_possible_moves _ _ _) as [[|]|e]; cbn [bind negb];
    [|reflexivity|discriminate].
  destruct (Simulation.resolve _ _ _) as [l1|e]; cbn [bind]; [|discriminate].
  destruct (Simulation.account _ _ _ _ _ _) as [s1|e]; cbn [bind]; [|discriminate].
  destruct (Simulation.record_step _ _) as [l2|e]; cbn [bind]; discriminate.
Qed.

(** The loop appends one record at most per iteration. *)
Lemma step_loop_records_bound (count : nat) :
  forall step l t lf tf,
    Simulation.step_loop args pl ri count step (l, t) = Ok (lf, tf) ->
    (length (Simulation.simulation_stats lf)
     <= length (Simulation.simulation_stats l) + count)%nat.
Proof.
  induction count as [|count IH]; intros step l t lf tf H.
  - cbn in H. injection H as <- <-. lia.
  - apply step_loop_unfold in H.
    destruct H as [(_ & Hsf & _)|([l' t'] & Hit & Hloop & _)].
    + injection Hsf as <- <-. lia.
    + apply IH in Hloop.
      destruct (iteration_walker_cases _ _ _ _ _ _ _ Hit) as (Hlen & _). lia.
Qed.

End LoopRelation.

(** X8.  Over the step loop the path of the walker only grows at its end,
    the kind and the weights of the walker stay, and a path that held one
    entry more than the step count still does, also when portals were
    taken. *)
Theorem step_loop_only_appends_to_the_path :
  forall (L : Library) (args : Simulation.Namespace) (pl : Plane.t)
         (ri : Simulation.run_input) (count step : nat)
         (l lf : Simulation.locals) (t tf : Simulation.totals),
    Simulation.step_loop args pl ri count step (l, t) = Ok (lf, tf) ->
    let w := Simulation.walker l in
    let w' := Simulation.walker lf in
    (exists appended, Walker.get_path w' = Walker.get_path w ++ appended) /\
    Walker.get_walker_type w' = Walker.get_walker_type w /\
    Walker.weights w' = Walker.weights w /\
    (length (Walker.get_path w) = (Walker.get_steps w + 1)%nat ->
     length (Walker.get_path w') = (Walker.get_steps w' + 1)%nat).
Proof.
  intros L args pl ri count step l lf t tf H.
  apply (step_loop_relation args pl ri
           (fun s s' =>
              let w := Simulation.walker (fst s) in
              let w' := Simulation.walker (fst s') in
              (exists appended, Walker.get_path w' = Walker.get_path w ++ appended) /\
              Walker.get_walker_type w' = Walker.get_walker_type w /\
              Walker.weights w' = Walker.weights w /\
              (length (Walker.get_path w) = (Walker.get_steps w + 1)%nat ->
               length (Walker.get_path w') = (Walker.get_steps w' + 1)%nat)))
    in H; [exact H| | |].
  - intro s. cbv zeta. split; [exists []; rewrite app_nil_r; reflexivity|]. auto.
  - intros a b c ([x Hx] & Hk & Hw & Hl) ([y Hy] & Hk' & Hw' & Hl'). cbv zeta.
    split; [exists (x ++ y); rewrite Hy, Hx, app_assoc; reflexivity|].
    split; [congruence|]. split; [congruence|]. auto.
  - intros step' [l0 t0] [l1 t1] Hit. cbn [fst]. cbv zeta.
    destruct (iteration_walker_cases _ _ _ _ _ _ _ _ _ Hit)
      as (_ & [(dx & dy & -> & _)|[(p & _ & -> & _)|(-> & _)]]).
    + split; [eexists; reflexivity|]. split; [reflexivity|]. split; [reflexivity|].
      intro Hlen. cbn. rewrite length_app. cbn. unfold Walker.get_path in Hlen.
      unfold Walker.get_steps in Hlen. lia.
    + split; [exists []; rewrite app_nil_r; reflexivity|]. auto.
    + split; [exists []; rewrite app_nil_r; reflexivity|]. auto.
Qed.

Lemma step_loop_only_appends_to_the_path_witness :
  let w := Examples.fresh in
  let w' := Simulation.walker (fst after_right_left) in
  (exists appended, Walker.get_path w' = Walker.get_path w ++ appended) /\
  Walker.get_walker_type w' = Walker.get_walker_type w /\
  Walker.weights w' = Walker.weights w /\
  (length (Walker.get_path w) = (Walker.get_steps w + 1)%nat ->
   length (Walker.get_path w') = (Walker.get_steps w' + 1)%nat).
Proof.
  apply (step_loop_only_appends_to_the_path Reference.library
           (Examples.args 2 3 Plane.empty) Plane.empty
           (Simulation.mk_run_input 0
              (fun k => nth k [Examples.right; Examples.left] Examples.up))
           2 0 (Simulation.new_locals Examples.fresh) (fst after_right_left)
           Simulation.no_totals (snd after_right_left)).
  vm_compute. reflexivity.
Defined.

(** X9.  Every executed step commits a move, takes a portal or counts an
    unsuccessful move: over the loop the committed moves and the
    unsuccessful moves together are at most the records appended, and
    exactly as many on a plane without portals; the crossings counted are
    at most the records appended. *)
Theorem every_step_is_a_move_a_portal_or_a_rejection :
  forall (L : Library) (args : Simulation.Namespace) (pl : Plane.t)
         (ri : Simulation.run_input) (count step : nat)
         (l lf : Simulation.locals) (t tf : Simulation.totals),
    Simulation.step_loop args pl ri count step (l, t) = Ok (lf, tf) ->
    let records := (length (Simulation.simulation_stats lf)
                    - length (Simulation.simulation_stats l))%nat in
    let moves := (Walker.get_steps (Simulation.walker lf)
                  - Walker.get_steps (Simulation.walker l))%nat in
    let rejected := (Simulation.simulation_unsuccessful_moves lf
                     - Simulation.simulation_unsuccessful_moves l)%nat in
    let crossings := (Simulation.simulation_y_axis_cross_count lf
                      - Simulation.simulation_y_axis_cross_count l)%nat in
    (records <= count)%nat /\
    (moves + rejected <= records)%nat /\
    (crossings <= records)%nat /\
    (Plane.portals pl = [] -> (moves + rejected)%nat = records).
Proof.
  intros L args pl ri count step l lf t tf H.
  pose proof (step_loop_records_bound _ _ _ _ _ _ _ _ _ H) as Hcount.
  pose proof (step_loop_relation args pl ri
           (fun s s' =>
              let n := length (Simulation.simulation_stats (fst s)) in
              let n' := length (Simulation.simulation_stats (fst s')) in
              let m := Walker.steps (Simulation.walker (fst s)) in
              let m' := Walker.steps (Simulation.walker (fst s')) in
              let u := Simulation.simulation_unsuccessful_moves (fst s) in
              let u' := Simulation.simulation_unsuccessful_moves (fst s') in
              let c := Simulation.simulation_y_axis_cross_count (fst s) in
              let c' := Simulation.simulation_y_axis_cross_count (fst s') in
              (n <= n' /\ m <= m' /\ u <= u' /\ c <= c' /\
               m' + u' + n <= m + u + n' /\ c' + n <= c + n' /\
               (Plane.portals pl = [] -> m' + u' + n = m + u + n'))%nat)) as Hrel.
  cbv zeta in Hrel.
  specialize (Hrel (fun s => ltac:(repeat split; lia))).
  specialize (Hrel (fun a b c Hab Hbc =>
                      ltac:(destruct Hab as (? & ? & ? & ? & ? & ? & ?);
                            destruct Hbc as (? & ? & ? & ? & ? & ? & ?);
                            repeat split; try lia;
                            intro Hp; specialize (H6 Hp); specialize (H13 Hp); lia))).
  assert (Hstep : forall step s s',
             Simulation.iteration args pl (Simulation.enter_time ri) step
               (Simulation.at_step ri step) s = Ok (Some s') ->
             (length (Simulation.simulation_stats (fst s))
              <= length (Simulation.simulation_stats (fst s')) /\
              Walker.steps (Simulation.walker (fst s))
              <= Walker.steps (Simulation.walker (fst s')) /\
              Simulation.simulation_unsuccessful_moves (fst s)
              <= Simulation.simulation_unsuccessful_moves (fst s') /\
              Simulation.simulation_y_axis_cross_count (fst s)
              <= Simulation.simulation_y_axis_cross_count (fst s') /\
              Walker.steps (Simulation.walker (fst s'))
              + Simulation.simulation_unsuccessful_moves (fst s')
              + length (Simulation.simulation_stats (fst s))
              <= Walker.steps (Simulation.walker (fst s))
                 + Simulation.simulation_unsuccessful_moves (fst s)
                 + length (Simulation.simulation_stats (fst s')) /\
              Simulation.simulation_y_axis_cross_count (fst s')
              + length (Simulation.simulation_stats (fst s))
              <= Simulation.simulation_y_axis_cross_count (fst s)
                 + length (Simulation.simulation_stats (fst s')) /\
              (Plane.portals pl = [] ->
               Walker.steps (Simulation.walker (fst s'))
               + Simulation.simulation_unsuccessful_moves (fst s')
               + length (Simulation.simulation_stats (fst s))
               = Walker.steps (Simulation.walker (fst s))
                 + Simulation.simulation_unsuccessful_moves (fst s)
                 + length (Simulation.simulation_stats (fst s'))))%nat).
  { intros step' [l0 t0] [l1 t1] Hit. cbn [fst].
    destruct (iteration_walker_cases _ _ _ _ _ _ _ _ _ Hit) as (Hlen & Hcases).
    assert (Hcross : (Simulation.simulation_y_axis_cross_count l0
                      <= Simulation.simulation_y_axis_cross_count l1
                      <= Simulation.simulation_y_axis_cross_count l0 + 1)%nat).
    { destruct (iteration_completes _ _ _ _ _ _ _ _ _ Hit)
        as (l2 & _ & _ & _ & _ & _ & Hacc).
      destruct (point_eqb _ _).
      - destruct Hacc as (_ & _ & _ & Hc & _). lia.
      - destruct Hacc as (_ & _ & _ & (crossed & _ & Hc) & _).
        destruct crossed; lia. }
    destruct Hcases as [(dx & dy & Hw & Hu)|[(p & Hin & Hw & Hu)|(Hw & Hu)]];
      rewrite Hw, Hu; cbn [Walker.move Walker.set_position Walker.steps];
      repeat split; try lia.
    intro Hp. rewrite Hp in Hin. destruct Hin. }
  specialize (Hrel Hstep count step (l, t) (lf, tf) H). cbn [fst] in Hrel.
  destruct Hrel as (Hn & Hm & Hu & Hc & Hle & Hcr & Heq).
  cbv zeta. unfold Walker.get_steps.
  repeat split; try lia. intro Hp. specialize (Heq Hp). lia.
Qed.

(** A discrete walker meets the wall at its second step: one move, one
    rejection, two records. *)
Definition up_right_at_wall : Simulation.state :=
  Eval vm_compute in
    Examples.state_of (Examples.run Examples.wall 3 [Examples.up; Examples.right]).

Lemma every_step_is_a_move_a_portal_or_a_rejection_witness :
  let l := Simulation.new_locals Examples.fresh in
  let lf := fst up_right_at_wall in
  let records := (length (Simulation.simulation_stats lf)
                  - length (Simulation.simulation_stats l))%nat in
  let moves := (Walker.get_steps (Simulation.walker lf)
                - Walker.get_steps (Simulation.walker l))%nat in
  let rejected := (Simulation.simulation_unsuccessful_moves lf
                   - Simulation.simulation_unsuccessful_moves l)%nat in
  let crossings := (Simulation.simulation_y_axis_cross_count lf
                    - Simulation.simulation_y_axis_cross_count l)%nat in
  (records <= 2)%nat /\
  (moves + rejected <= records)%nat /\
  (crossings <= records)%nat /\
  (Plane.portals Examples.wall = [] -> (moves + rejected)%nat = records).
Proof.
  apply (every_step_is_a_move_a_portal_or_a_rejection Reference.library
           (Examples.args 2 3 Examples.wall) Examples.wall
           (Simulation.mk_run_input 0
              (fun k => nth k [Examples.up; Examples.right] Examples.up))
           2 0 (Simulation.new_locals Examples.fresh) (fst up_right_at_wall)
           Simulation.no_totals (snd up_right_at_wall)).
  vm_compute. reflexivity.
Defined.

(** X10.  On a plane without obstacles [has_possible_moves] never returns
    false, so the step loop never breaks: a run that completes has one record
    for each of its steps. *)
Theorem no_obstacles_no_early_end :
  forall (L : Library) (args : Simulation.Namespace) (pl : Plane.t)
         (ri : Simulation.run_input) (i : nat) (t t' : Simulation.totals)
         (multi multi' : list Simulation.run_entry),
    Plane.obstacles pl = [] ->
    Simulation.one_run args pl i ri (t, multi) = Ok (t', multi') ->
    (forall w angles, Utils.has_possible_moves w pl angles <> Ok false) /\
    exists rs records,
      multi' = multi ++ [((i + 1)%nat, rs, records)] /\
      length records = Z.to_nat (Simulation.steps args).
Proof.
  intros L args pl ri i t t' multi multi' Hobs Hrun.
  assert (Hnever : forall w angles, Utils.has_possible_moves w pl angles <> Ok false).
  { intros w angles H. rewrite has_possible_moves_probes in H.
    rewrite try_positions_false in H.
    destruct (H (fst (Walker.get_position w) + fst Utils.UP,
                 snd (Walker.get_position w) + snd Utils.UP))
      as (ty & o & C).
    - unfold probes, Utils.fixed_positions. cbn [map app]. left. reflexivity.
    - apply check_intersection_tagged in C. destruct C as [_ Hin].
      rewrite Hobs in Hin. destruct Hin. }
  split; [exact Hnever|].
  destruct (one_run_completes _ _ _ _ _ _ _ _ Hrun)
    as (w & lf & tf & rs & _ & Hloop & Hmulti & _).
  exists rs, (Simulation.simulation_stats lf). split; [exact Hmulti|].
  assert (Hfull : forall count step l t0 lf0 tf0,
             Simulation.step_loop args pl ri count step (l, t0) = Ok (lf0, tf0) ->
             length (Simulation.simulation_stats lf0)
             = (length (Simulation.simulation_stats l) + count)%nat).
  { induction count as [|count IH]; intros step l t0 lf0 tf0 H.
    - cbn in H. injection H as <- <-. lia.
    - apply step_loop_unfold in H.
      destruct H as [(Hbreak & _)|([l1 t1] & Hit & Hloop1 & _)].
      + apply iteration_breaks in Hbreak. exfalso. eapply Hnever. exact Hbreak.
      + rewrite (IH _ _ _ _ _ Hloop1).
        destruct (iteration_walker_cases _ _ _ _ _ _ _ _ _ Hit) as (Hlen & _). lia. }
  rewrite (Hfull _ _ _ _ _ _ Hloop). reflexivity.
Qed.

(** Three steps on the plane that holds only the portal [Examples.gate]. *)
Definition through_the_gate : Simulation.totals * list Simulation.run_entry :=
  Eval vm_compute in
    match Simulation.one_run (L := Reference.library)
            (Examples.args 3 1 Examples.gated) Examples.gated 0
            (Simulation.mk_run_input 0
               (fun k => nth k [Examples.up; Examples.right; Examples.left] Examples.up))
            (Simulation.no_totals, []) with
    | Ok r => r
    | Raise _ => (Simulation.no_totals, [])
    end.

Lemma no_obstacles_no_early_end_witness :
  (forall w angles,
      Utils.has_possible_moves (L := Reference.library) w Examples.gated angles
      <> Ok false) /\
  exists rs records,
    snd through_the_gate = [] ++ [((0 + 1)%nat, rs, records)] /\
    length records = Z.to_nat (Simulation.steps (Examples.args 3 1 Examples.gated)).
Proof.
  apply (no_obstacles_no_early_end Reference.library
           (Examples.args 3 1 Examples.gated) Examples.gated
           (Simulation.mk_run_input 0
              (fun k => nth k [Examples.up; Examples.right; Examples.left] Examples.up))
           0 Simulation.no_totals (fst through_the_gate) [] (snd through_the_gate)).
  - reflexivity.
  - vm_compute. reflexivity.
Defined.

Lemma keys_of_records_as_described {L : Library} (ws : list Walker.t) :
  forall previous sum_x sum_y sum_o step,
    map fst (records_as_described previous sum_x sum_y sum_o step ws)
    = seq (step + 1) (length ws).
Proof.
  induction ws as [|w ws IH]; intros; cbn [records_as_described map length seq fst];
    [reflexivity|].
  rewrite IH. replace (S step + 1)%nat with (S (step + 1)) by lia. reflexivity.
Qed.

(** X11.  The records of a run are keyed 1, 2, 3, ... without gaps, and a
    run has no more records than steps. *)
Theorem records_are_keyed_from_one_without_gaps :
  forall (L : Library) (args : Simulation.Namespace) (pl : Plane.t)
         (ri : Simulation.run_input) (i : nat) (t t' : Simulation.totals)
         (multi multi' : list Simulation.run_entry),
    Simulation.one_run args pl i ri (t, multi) = Ok (t', multi') ->
    exists rs records,
      multi' = multi ++ [((i + 1)%nat, rs, records)] /\
      map fst records = seq 1 (length records) /\
      (length records <= Z.to_nat (Simulation.steps args))%nat.
Proof.
  intros L args pl ri i t t' multi multi' Hrun.
  destruct (one_run_completes _ _ _ _ _ _ _ _ Hrun)
    as (w & lf & tf & rs & _ & Hloop & Hmulti & _).
  exists rs, (Simulation.simulation_stats lf). split; [exact Hmulti|].
  pose proof (step_loop_records _ _ _ _ _ _ _ _ _ Hloop) as Hrec.
  cbn [Simulation.new_locals Simulation.simulation_stats app] in Hrec.
  split.
  - rewrite Hrec at 1. rewrite keys_of_records_as_described.
    rewrite Hrec, length_records_as_described. reflexivity.
  - pose proof (step_loop_records_bound _ _ _ _ _ _ _ _ _ Hloop) as Hle.
    cbn in Hle. lia.
Qed.

Lemma records_are_keyed_from_one_without_gaps_witness :
  exists rs records,
    snd through_the_gate = [] ++ [((0 + 1)%nat, rs, records)] /\
    map fst records = seq 1 (length records) /\
    (length records <= Z.to_nat (Simulation.steps (Examples.args 3 1 Examples.gated)))%nat.
Proof.
  apply (records_are_keyed_from_one_without_gaps Reference.library
           (Examples.args 3 1 Examples.gated) Examples.gated
           (Simulation.mk_run_input 0
              (fun k => nth k [Examples.up; Examples.right; Examples.left] Examples.up))
           0 Simulation.no_totals (fst through_the_gate) [] (snd through_the_gate)).
  vm_compute. reflexivity.
Defined.

(** ** What an iteration can raise *)

Section Failures.
Context {L : Library}.
Variable pl : Plane.t.

Lemma visit_candidates_raise (current_position next_position : point)
      (cs : list (string * Plane.object)) :
  forall acc e,
    visit_candidates current_position next_position acc cs = Raise e ->
    e = AttributeError.
Proof.
  induction cs as [|c cs IH]; intros acc e H; [discriminate H|].
  cbn [visit_candidates] in H.
  destruct (Plane.visit _ _ (fst c) acc (snd c)) as [acc1|e1] eqn:V.
  - cbn [bind] in H. eapply IH. exact H.
  - cbn [bind] in H. injection H as <-. unfold Plane.visit in V.
    destruct (intersection _ _ _ _); try discriminate V.
    + destruct (lt_min _ _); discriminate V.
    + congruence.
Qed.

(** [check_intersection] raises nothing but [AttributeError], and only on
    a segment that overlaps the path. *)
Lemma check_intersection_raise (current_position next_position : point) (e : exn) :
  Plane.check_intersection pl current_position next_position = Raise e ->
  e = AttributeError /\
  exists c, In c (candidates pl) /\ overlaps current_position next_position c.
Proof.
  intro H.
  assert (He : e = AttributeError).
  { rewrite check_intersection_candidates in H.
    destruct (visit_candidates _ _ (None, None) (candidates pl)) as [acc|e1] eqn:V.
    - cbn [bind] in H. destruct (snd acc) as [[ty o]|]; discriminate H.
    - cbn [bind] in H. injection H as <-. eapply visit_candidates_raise. exact V. }
  split; [exact He|]. subst e.
  apply check_intersection_raises_iff_overlap. exact H.
Qed.

Lemma try_positions_raise (current_position : point) (ps : list point) (e : exn) :
  Utils.try_positions pl current_position ps = Raise e ->
  exists p, In p ps /\ Plane.check_intersection pl current_position p = Raise e.
Proof.
  induction ps as [|q ps IH]; intro H; [discriminate H|].
  cbn [Utils.try_positions] in H.
  destruct (Plane.check_intersection pl current_position q) as [r|e1] eqn:C.
  - cbn [bind] in H. destruct (Utils.not_an_obstacle r); [discriminate H|].
    destruct (IH H) as (p & Hin & Hp). exists p. split; [right; exact Hin | exact Hp].
  - cbn [bind] in H. injection H as <-. exists q. split; [left; reflexivity | exact C].
Qed.

Lemma get_next_move_raise (w : Walker.t) (d : Walker.draw) (e : exn) :
  Walker.get_next_move w d = Raise e -> e = ValueError \/ e = OverflowError.
Proof.
  unfold Walker.get_next_move.
  repeat match goal with
         | |- context [if ?b then _ else _] => destruct b
         end; intro H; try discriminate H; injection H as <-; auto.
Qed.

End Failures.

(** A segment of the plane lies along the path from one point to
    another. *)
Definition lies_along {L : Library} (pl : Plane.t) (from to : point) : Prop :=
  exists c, In c (candidates pl) /\ overlaps from to c.

(** A position at which [get_distance] does not overflow: the squares
    that [abs(x)**2] and [abs(y)**2] compute, and their sum, which
    [math.sqrt] takes, stay below the limit of a float.  Beyond it Python
    raises [OverflowError], which [Walker.get_distance], exact on the
    rationals, leaves out. *)
Definition distance_in_range (p : point) : Prop :=
  fst p ^ 2 + snd p ^ 2 < inject_Z Walker.FLOAT_LIMIT.

(** X12.  Where the position that the step resolves to is within the range
    of [get_distance], an iteration of the step loop raises in four ways
    only: [AttributeError], when a segment of the plane lies along a path
    that is tested from the position of the walker; [ValueError] or
    [OverflowError], when [get_next_move] raises it; [IndexError], when the
    path of the walker holds fewer than two entries, which for a walker with
    a path is after taking a portal.  It never raises
    [ZeroDivisionError]. *)
Theorem iteration_raises_in_four_ways :
  forall (L : Library) (args : Simulation.Namespace) (pl : Plane.t) (enter : Q)
         (step : nat) (inp : Simulation.step_input)
         (l : Simulation.locals) (t : Simulation.totals) (e : exn),
    (forall l', Simulation.resolve pl (Simulation.next_draw inp) l = Ok l' ->
                distance_in_range (Walker.get_position (Simulation.walker l'))) ->
    Simulation.iteration args pl enter step inp (l, t) = Raise e ->
    let w := Simulation.walker l in
    (e = AttributeError /\
     exists to, lies_along pl (Walker.get_position w) to) \/
    ((e = ValueError \/ e = OverflowError) /\
     Walker.get_next_move w (Simulation.next_draw inp) = Raise e) \/
    (e = IndexError /\
     (length (Walker.get_path w) < 2)%nat /\
     (Walker.get_path w <> [] ->
      exists to ty p,
        Plane.check_intersection pl (Walker.get_position w) to
        = Ok (Plane.Tagged ty (Plane.APortal p)))).
Proof.
  intros L args pl enter step inp l t e _ H w. subst w.
  unfold Simulation.iteration in H. cbn [fst snd] in H.
  destruct (Utils.has_possible_moves _ _ _) as [[|]|e1] eqn:M; cbn [bind negb] in H;
    [| discriminate H |].
  2:{ injection H as <-. left.
      rewrite has_possible_moves_probes in M.
      destruct (try_positions_raise _ _ _ _ M) as (p & _ & C).
      destruct (check_intersection_raise _ _ _ _ C) as [-> Hov].
      split; [reflexivity|]. exists p. exact Hov. }
  destruct (Simulation.resolve _ _ _) as [l1|e1] eqn:R; cbn [bind] in H.
  - destruct (account_cases args enter step inp
                (Walker.get_position (Simulation.walker l)) l1 t)
      as [(l2 & t2 & Hacc & _)|[Hacc Hlen]]; rewrite Hacc in H; cbn [bind] in H.
    + cbn [fst snd] in H. rewrite record_step_ok in H. discriminate H.
    + injection H as <-. right. right. split; [reflexivity|].
      apply resolve_resolved in R.
      destruct R as [nxt N C|nxt obj dest N C D|nxt ty obj N C E].
      * cbn in Hlen. rewrite length_app in Hlen. cbn in Hlen.
        split; [unfold Walker.get_path; lia|].
        intro Hne. exfalso. unfold Walker.get_path in Hne.
        destruct (Walker.path (Simulation.walker l)); [contradiction|].
        cbn in Hlen. lia.
      * cbn in Hlen. split; [exact Hlen|]. intros _.
        pose proof (check_intersection_tagged _ _ _ _ _ C) as T.
        destruct obj as [o|p]; [destruct T as [T _]; discriminate T|].
        exists nxt, "portal"%string, p. exact C.
      * cbn in Hlen. split; [exact Hlen|]. intros _.
        exfalso.
        assert (Hsame : Simulation.account args enter step inp
                          (Walker.get_position (Simulation.walker l))
                          (Simulation.set_unsuccessful_moves l
                             (Simulation.simulation_unsuccessful_moves l + 1), t)
                        = Ok (Simulation.set_unsuccessful_moves l
                                (Simulation.simulation_unsuccessful_moves l + 1), t)).
        { apply (account_unchanged args enter step inp
                   (Simulation.set_unsuccessful_moves l
                      (Simulation.simulation_unsuccessful_moves l + 1)) t). }
        congruence.
  - injection H as <-. unfold Simulation.resolve in R.
    destruct (Walker.get_next_move _ _) as [nxt|e2] eqn:N; cbn [bind] in R.
    + destruct (Plane.check_intersection _ _ _) as [[p|ty obj]|e3] eqn:C;
        cbn [bind] in R; [discriminate R| |].
      * destruct (String.eqb ty "portal") eqn:E; [|discriminate R].
        apply String.eqb_eq in E. subst ty.
        pose proof (check_intersection_tagged _ _ _ _ _ C) as T.
        destruct obj as [o|p]; [destruct T as [T _]; discriminate T|].
        discriminate R.
      * injection R as <-. left.
        destruct (check_intersection_raise _ _ _ _ C) as [-> Hov].
        split; [reflexivity|]. exists nxt. exact Hov.
    + injection R as <-. right. left.
      split; [exact (get_next_move_raise _ _ _ N) | reflexivity].
Qed.

(** A weighted walker whose weights add up to 10^400. *)
Definition heavy : Walker.t :=
  Walker.mk 0 0 0 [(0, 0)] [10 ^ 400; 1; 1; 1; 1]%Z 4.

Lemma iteration_raises_in_four_ways_witness :
  (let w := Examples.fresh in
   (IndexError = AttributeError /\
    exists to, lies_along (L := Reference.library) Examples.gated
                 (Walker.get_position w) to) \/
   ((IndexError = ValueError \/ IndexError = OverflowError) /\
    Walker.get_next_move (L := Reference.library) w
      (Simulation.next_draw Examples.right) = Raise IndexError) \/
   (IndexError = IndexError /\
    (length (Walker.get_path w) < 2)%nat /\
    (Walker.get_path w <> [] ->
     exists to ty p,
       Plane.check_intersection (L := Reference.library) Examples.gated
         (Walker.get_position w) to
       = Ok (Plane.Tagged ty (Plane.APortal p))))) /\
  (let w := heavy in
   (OverflowError = AttributeError /\
    exists to, lies_along (L := Reference.library) Plane.empty
                 (Walker.get_position w) to) \/
   ((OverflowError = ValueError \/ OverflowError = OverflowError) /\
    Walker.get_next_move (L := Reference.library) w
      (Simulation.next_draw Examples.right) = Raise OverflowError) \/
   (OverflowError = IndexError /\
    (length (Walker.get_path w) < 2)%nat /\
    (Walker.get_path w <> [] ->
     exists to ty p,
       Plane.check_intersection (L := Reference.library) Plane.empty
         (Walker.get_position w) to
       = Ok (Plane.Tagged ty (Plane.APortal p))))).
Proof.
  split.
  - apply (iteration_raises_in_four_ways Reference.library
             (Examples.args 1 1 Examples.gated) Examples.gated 0 0 Examples.right
             (Simulation.new_locals Examples.fresh) Simulation.no_totals IndexError).
    + intros l' R. vm_compute in R. injection R as <-. vm_compute. reflexivity.
    + vm_compute. reflexivity.
  - apply (iteration_raises_in_four_ways Reference.library
             (Examples.args 1 1 Plane.empty) Plane.empty 0 0 Examples.right
             (Simulation.new_locals heavy) Simulation.no_totals OverflowError).
    + intros l' R. vm_compute in R. discriminate R.
    + vm_compute. reflexivity.
Defined.

(** * Further properties of the session *)

Definition run_index (e : Simulation.run_entry) : nat := fst (fst e).
Definition run_record (e : Simulation.run_entry) : Simulation.run_stats := snd (fst e).
Definition unsuccessful_of (e : Simulation.run_entry) : nat :=
  Simulation.number_of_unsuccessful_moves (run_record e).

Section Session.
Context {L : Library}.
Variables (args : Simulation.Namespace) (pl : Plane.t).

(** The step loop touches the three distance totals only. *)
Lemma step_loop_other_totals (ri : Simulation.run_input) (count step : nat)
      (l lf : Simulation.locals) (t tf : Simulation.totals) :
  Simulation.step_loop args pl ri count step (l, t) = Ok (lf, tf) ->
  Simulation.total_exit_time tf = Simulation.total_exit_time t /\
  Simulation.total_steps_to_exit tf = Simulation.total_steps_to_exit t /\
  Simulation.total_y_axis_crosses tf = Simulation.total_y_axis_crosses t /\
  Simulation.total_unsuccessful_moves tf = Simulation.total_unsuccessful_moves t.
Proof.
  intro H.
  apply (step_loop_relation args pl ri
           (fun s s' =>
              Simulation.total_exit_time (snd s') = Simulation.total_exit_time (snd s) /\
              Simulation.total_steps_to_exit (snd s')
              = Simulation.total_steps_to_exit (snd s) /\
              Simulation.total_y_axis_crosses (snd s')
              = Simulation.total_y_axis_crosses (snd s) /\
              Simulation.total_unsuccessful_moves (snd s')
              = Simulation.total_unsuccessful_moves (snd s))) in H; [exact H| | |].
  - intro s. auto.
  - intros a b c (? & ? & ? & ?) (? & ? & ? & ?). repeat split; congruence.
  - intros step' [l0 t0] [l1 t1] Hit. cbn [snd].
    rewrite (totals_folded_only_when_position_changed _ _ _ _ _ _ _ _ _ Hit).
    destruct (_ && _); cbn; auto.
Qed.

(** Away from the cutoff the step loop leaves the totals as they are. *)
Lemma step_loop_totals_away_from_cutoff (ri : Simulation.run_input) (count : nat) :
  forall step l lf t tf,
    (forall k, (step <= k < step + count)%nat ->
               Simulation.n_steps args <> Z.of_nat (k + 1)) ->
    Simulation.step_loop args pl ri count step (l, t) = Ok (lf, tf) ->
    tf = t.
Proof.
  induction count as [|count IH]; intros step l lf t tf Hk H.
  - cbn in H. injection H as <- <-. reflexivity.
  - apply step_loop_unfold in H.
    destruct H as [(_ & Hsf & _)|([l' t'] & Hit & Hloop & _)].
    + injection Hsf as <- <-. reflexivity.
    + assert (Hk' : forall k, (S step <= k < S step + count)%nat ->
                            Simulation.n_steps args <> Z.of_nat (k + 1))
        by (intros k Hr; apply Hk; lia).
      rewrite (IH _ _ _ _ _ Hk' Hloop).
      rewrite (totals_folded_only_when_position_changed _ _ _ _ _ _ _ _ _ Hit).
      replace (Simulation.n_steps args =? Z.of_nat (step + 1))%Z with false;
        [reflexivity|].
      symmetry. apply Z.eqb_neq. apply Hk. lia.
Qed.

(** A run that completes, with the totals it leaves. *)
Lemma one_run_totals (i : nat) (ri : Simulation.run_input)
      (t t' : Simulation.totals) (multi multi' : list Simulation.run_entry) :
  Simulation.one_run args pl i ri (t, multi) = Ok (t', multi') ->
  exists w lf tf rs,
    Simulation.new_walker args = Ok w /\
    Simulation.step_loop args pl ri (Z.to_nat (Simulation.steps args)) 0
      (Simulation.new_locals w, t) = Ok (lf, tf) /\
    multi' = multi ++ [((i + 1)%nat, rs, Simulation.simulation_stats lf)] /\
    Simulation.total_distance_from_origin t' = Simulation.total_distance_from_origin tf /\
    Simulation.total_distance_from_x_axis t' = Simulation.total_distance_from_x_axis tf /\
    Simulation.total_distance_from_y_axis t' = Simulation.total_distance_from_y_axis tf /\
    Simulation.total_unsuccessful_moves t'
    = (Simulation.total_unsuccessful_moves t
       + Simulation.simulation_unsuccessful_moves lf)%nat /\
    Simulation.number_of_unsuccessful_moves rs = Simulation.total_unsuccessful_moves t' /\
    Simulation.avg_distance_from_origin_after_n_steps rs
    = Simulation.total_distance_from_origin t' / Simulation.of_nat (i + 1) /\
    Simulation.avg_distance_from_x_axis_after_n_steps rs
    = Simulation.total_distance_from_x_axis t' / Simulation.of_nat (i + 1) /\
    Simulation.avg_distance_from_y_axis_after_n_steps rs
    = Simulation.total_distance_from_y_axis t' / Simulation.of_nat (i + 1).
Proof.
  unfold Simulation.one_run. intro H.
  destruct (Simulation.new_walker args) as [w|e]; [|discriminate H].
  cbn [bind] in H.
  destruct (Simulation.step_loop _ _ _ _ _ _) as [[lf tf]|e] eqn:Hloop;
    [|discriminate H].
  cbn [bind] in H. rewrite !div_of_nat_succ in H. cbn [bind] in H.
  injection H as <- <-.
  destruct (step_loop_other_totals _ _ _ _ _ _ _ Hloop) as (_ & _ & _ & Hun).
  exists w, lf, tf. eexists. split; [reflexivity|]. split; [exact Hloop|].
  split; [reflexivity|]. cbn. rewrite Hun. auto 12.
Qed.

(** The entries of the run loop: numbered in order, with counts of
    unsuccessful moves that never go down and end at the total. *)
Lemma run_loop_entries (inputs : nat -> Simulation.run_input) (count : nat) :
  forall i t t' multi multi',
    Simulation.run_loop args pl inputs count i (t, multi) = Ok (t', multi') ->
    exists new,
      multi' = multi ++ new /\
      map run_index new = seq (i + 1) count /\
      (Simulation.total_unsuccessful_moves t
       <= Simulation.total_unsuccessful_moves t')%nat /\
      (forall e, In e new ->
                 (Simulation.total_unsuccessful_moves t <= unsuccessful_of e
                  <= Simulation.total_unsuccessful_moves t')%nat) /\
      (forall j e1 e2,
          nth_error new j = Some e1 -> nth_error new (S j) = Some e2 ->
          (unsuccessful_of e1 <= unsuccessful_of e2)%nat) /\
      (forall e, nth_error new (count - 1) = Some e ->
                 unsuccessful_of e = Simulation.total_unsuccessful_moves t').
Proof.
  induction count as [|count IH]; intros i t t' multi multi' H.
  - cbn in H. injection H as <- <-. exists []. rewrite app_nil_r.
    split; [reflexivity|]. split; [reflexivity|]. split; [lia|].
    split; [intros e []|]. split.
    + intros j e1 e2 H1. destruct j; discriminate H1.
    + intros e He. discriminate He.
  - cbn [Simulation.run_loop] in H.
    destruct (Simulation.one_run args pl i (inputs i) (t, multi))
      as [[t1 multi1]|e] eqn:Hrun; [|discriminate H].
    cbn [bind] in H.
    destruct (one_run_totals _ _ _ _ _ _ Hrun)
      as (w & lf & tf & rs & _ & _ & Hmulti & _ & _ & _ & Hun & Hnum & _).
    destruct (IH _ _ _ _ _ H) as (new & Hnew & Hidx & Hle & Hall & Hmono & Hlast).
    set (entry := ((i + 1)%nat, rs, Simulation.simulation_stats lf)) in *.
    assert (Hentry : unsuccessful_of entry = Simulation.total_unsuccessful_moves t1)
      by exact Hnum.
    exists (entry :: new). split; [|split; [|split; [|split; [|split]]]].
    + rewrite Hnew, Hmulti, <- app_assoc. reflexivity.
    + cbn [map seq]. rewrite Hidx.
      replace (S i + 1)%nat with (S (i + 1)) by lia. reflexivity.
    + lia.
    + intros e [<-|Hin]; [rewrite Hentry; lia|].
      specialize (Hall e Hin). lia.
    + intros [|j] e1 e2 H1 H2.
      * cbn in H1. injection H1 as <-.
        change (nth_error new 0 = Some e2) in H2.
        apply nth_error_In in H2. specialize (Hall e2 H2). rewrite Hentry. lia.
      * change (nth_error new j = Some e1) in H1.
        change (nth_error new (S j) = Some e2) in H2.
        eapply Hmono; eassumption.
    + intros e He. destruct count as [|count'].
      * cbn in He. injection He as <-. rewrite Hentry.
        cbn in H. injection H as <- _. reflexivity.
      * replace (S (S count') - 1)%nat with (S count') in He by lia.
        change (nth_error new count' = Some e) in He.
        apply Hlast. replace (S count' - 1)%nat with count' by lia. exact He.
Qed.

End Session.

Lemma div_ok (a b q : Q) :
  Simulation.div a b = Ok q -> q = a / b /\ ~ b == 0.
Proof.
  unfold Simulation.div. destruct (Qeq_bool b 0) eqn:E; [discriminate|].
  intro H. injection H as <-. split; [reflexivity|].
  apply Qeq_bool_false. exact E.
Qed.

Lemma div_by_zero (a : Q) (z : Z) :
  z = 0%Z -> Simulation.div a (inject_Z z) = Raise ZeroDivisionError.
Proof. intros ->. reflexivity. Qed.

Lemma inject_Z_zero (z : Z) : inject_Z z == 0 -> z = 0%Z.
Proof. unfold Qeq. cbn. lia. Qed.

(** The numbers printed, when the summary returns. *)
Lemma summary_ok {L : Library} (args : Simulation.Namespace) (t : Simulation.totals)
      (printed : list Q) :
  Simulation.summary args t = Ok printed ->
  (Simulation.steps args * Simulation.simulations args <> 0)%Z /\
  length printed = (if (1 <? Simulation.simulations args)%Z then 7 else 4)%nat /\
  nth_error printed 0
  = Some (Simulation.total_distance_from_origin t
          / inject_Z (Simulation.steps args * Simulation.simulations args)) /\
  nth_error printed 1
  = Some (Simulation.total_distance_from_x_axis t
          / inject_Z (Simulation.steps args * Simulation.simulations args)) /\
  nth_error printed 2
  = Some (Simulation.total_distance_from_y_axis t
          / inject_Z (Simulation.steps args * Simulation.simulations args)) /\
  nth_error printed 3
  = Some (Simulation.of_nat (Simulation.total_unsuccessful_moves t)
          / inject_Z (Simulation.simulations args)).
Proof.
  unfold Simulation.summary. intro H.
  destruct (Simulation.div (Simulation.total_distance_from_origin t) _)
    as [a|e] eqn:Ea; [|discriminate H].
  cbn [bind] in H.
  destruct (Simulation.div (Simulation.total_distance_from_x_axis t) _)
    as [b|e] eqn:Eb; [|discriminate H].
  cbn [bind] in H.
  destruct (Simulation.div (Simulation.total_distance_from_y_axis t) _)
    as [c|e] eqn:Ec; [|discriminate H].
  cbn [bind] in H.
  destruct (Simulation.div
              (Simulation.of_nat (Simulation.total_unsuccessful_moves t)) _)
    as [d|e] eqn:Ed; [|discriminate H].
  cbn [bind] in H.
  apply div_ok in Ea, Eb, Ec, Ed.
  destruct Ea as [-> Hn], Eb as [-> _], Ec as [-> _], Ed as [-> _].
  split; [intro Hz; apply Hn; rewrite Hz; reflexivity|].
  destruct (1 <? Simulation.simulations args)%Z.
  - destruct (Simulation.div
                (Simulation.of_nat (Simulation.total_steps_to_exit t)) _)
      as [e1|e] eqn:E1; [|discriminate H].
    cbn [bind] in H.
    destruct (Simulation.div (Simulation.total_exit_time t) _) as [e2|e] eqn:E2;
      [|discriminate H].
    cbn [bind] in H.
    destruct (Simulation.div
                (Simulation.of_nat (Simulation.total_y_axis_crosses t)) _)
      as [e3|e] eqn:E3; [|discriminate H].
    cbn [bind] in H. injection H as <-. cbn. auto 6.
  - injection H as <-. cbn. auto 6.
Qed.

Lemma run_simulation_ok {L : Library} (args : Simulation.Namespace)
      (inputs : nat -> Simulation.run_input)
      (entries : list Simulation.run_entry) (printed : list Q) :
  Simulation.run_simulation args inputs = Ok (entries, printed) ->
  exists t,
    Simulation.run_loop args (Simulation.build_plane args) inputs
      (Z.to_nat (Simulation.simulations args)) 0 (Simulation.no_totals, [])
    = Ok (t, entries) /\
    Simulation.summary args t = Ok printed.
Proof.
  unfold Simulation.run_simulation. intro H.
  destruct (Simulation.run_loop _ _ _ _ _ _) as [[t multi]|e] eqn:Hloop;
    [|discriminate H].
  cbn [bind fst snd] in H.
  destruct (Simulation.summary args t) as [p|e] eqn:Hsum; [|discriminate H].
  cbn [bind] in H. injection H as <- <-. exists t. auto.
Qed.

(** X13.  When [run_simulation] returns, its list has one entry per run,
    numbered 1, 2, ... in order, it has printed four numbers for a single
    run and seven for several, and the product of the numbers of steps and
    of runs is not zero. *)
Theorem session_has_one_numbered_entry_per_run :
  forall (L : Library) (args : Simulation.Namespace)
         (inputs : nat -> Simulation.run_input)
         (entries : list Simulation.run_entry) (printed : list Q),
    Simulation.run_simulation args inputs = Ok (entries, printed) ->
    map run_index entries = seq 1 (Z.to_nat (Simulation.simulations args)) /\
    length entries = Z.to_nat (Simulation.simulations args) /\
    length printed = (if (1 <? Simulation.simulations args)%Z then 7 else 4)%nat /\
    (Simulation.steps args * Simulation.simulations args <> 0)%Z.
Proof.
  intros L args inputs entries printed H.
  destruct (run_simulation_ok _ _ _ _ H) as (t & Hloop & Hsum).
  destruct (run_loop_entries _ _ _ _ _ _ _ _ _ Hloop) as (new & Hnew & Hidx & _).
  cbn [app] in Hnew. subst new.
  destruct (summary_ok _ _ _ Hsum) as (Hnz & Hlen & _).
  split; [exact Hidx|]. split; [|auto].
  rewrite <- (length_map run_index), Hidx, length_seq. reflexivity.
Qed.

(** The session of one run on the empty plane, two steps, cutoff at 2. *)
Definition free_at_cutoff : Simulation.Namespace :=
  Simulation.mk_args 3 2 1 2 [] [] None.
Definition free_session : list Simulation.run_entry * list Q :=
  Eval vm_compute in
    match Simulation.run_simulation (L := Reference.library) free_at_cutoff
            up_then_right with
    | Ok r => r
    | Raise _ => ([], [])
    end.

Lemma session_has_one_numbered_entry_per_run_witness :
  map run_index (fst free_session) = seq 1 (Z.to_nat 1) /\
  length (fst free_session) = Z.to_nat 1 /\
  length (snd free_session) = 4%nat /\
  (2 * 1 <> 0)%Z.
Proof.
  apply (session_has_one_numbered_entry_per_run Reference.library free_at_cutoff
           up_then_right (fst free_session) (snd free_session)).
  vm_compute. reflexivity.
Defined.

Lemma run_loop_without_steps {L : Library} (args : Simulation.Namespace)
      (pl : Plane.t) (inputs : nat -> Simulation.run_input) (count : nat) :
  Simulation.steps args = 0%Z ->
  In (Simulation.walker_type args) [1; 2; 3; 4]%Z ->
  forall i acc, exists r, Simulation.run_loop args pl inputs count i acc = Ok r.
Proof.
  intros Hsteps Hkind. induction count as [|count IH]; intros i [t multi].
  - eexists. reflexivity.
  - cbn [Simulation.run_loop]. unfold Simulation.one_run.
    assert (Hnew : exists w, Simulation.new_walker args = Ok w).
    { unfold Simulation.new_walker.
      destruct (Simulation.weights args) as [ws|];
        [destruct (Simulation.walker_type args =? 4)%Z|];
        rewrite init_ok by exact Hkind; eauto. }
    destruct Hnew as [w ->]. cbn [bind]. rewrite Hsteps.
    cbn [Z.to_nat Simulation.step_loop bind]. rewrite !div_of_nat_succ.
    cbn [bind]. apply IH.
Qed.

Lemma run_simulation_divides_by_zero_runs {L : Library}
      (args : Simulation.Namespace) (inputs : nat -> Simulation.run_input) :
  Simulation.simulations args = 0%Z ->
  Simulation.run_simulation args inputs = Raise ZeroDivisionError.
Proof.
  intro Hzero. unfold Simulation.run_simulation. rewrite Hzero.
  cbn [Z.to_nat Simulation.run_loop bind fst]. unfold Simulation.summary.
  rewrite Hzero, Z.mul_0_r. reflexivity.
Qed.

(** X14.  With no steps or no runs to make, [run_simulation] fails at the
    averages it prints: when the product of the numbers of steps and of
    runs is zero, it raises [ZeroDivisionError], for every valid walker
    kind and also for any kind when there is no run. *)
Theorem run_simulation_divides_by_steps_times_runs :
  forall (L : Library) (args : Simulation.Namespace)
         (inputs : nat -> Simulation.run_input),
    (Simulation.steps args * Simulation.simulations args = 0)%Z ->
    In (Simulation.walker_type args) [1; 2; 3; 4]%Z \/
    (Simulation.simulations args <= 0)%Z ->
    Simulation.run_simulation args inputs = Raise ZeroDivisionError.
Proof.
  intros L args inputs Hzero Hcase.
  assert (Hloop : exists r,
             Simulation.run_loop args (Simulation.build_plane args) inputs
               (Z.to_nat (Simulation.simulations args)) 0 (Simulation.no_totals, [])
             = Ok r).
  { destruct (Z.leb_spec (Simulation.simulations args) 0) as [Hle|Hgt].
    - replace (Z.to_nat (Simulation.simulations args)) with 0%nat by lia.
      eexists. reflexivity.
    - destruct Hcase as [Hkind|Hle]; [|lia].
      apply run_loop_without_steps; [nia | exact Hkind]. }
  destruct Hloop as [r Hr]. unfold Simulation.run_simulation. rewrite Hr.
  cbn [bind]. unfold Simulation.summary.
  rewrite (div_by_zero _ _ Hzero). reflexivity.
Qed.

Lemma run_simulation_divides_by_steps_times_runs_witness :
  Simulation.run_simulation (L := Reference.library)
    (Simulation.mk_args 3 5 0 1 [] [] None) up_then_right
  = Raise ZeroDivisionError.
Proof.
  apply (run_simulation_divides_by_steps_times_runs Reference.library
           (Simulation.mk_args 3 5 0 1 [] [] None) up_then_right).
  - reflexivity.
  - right. cbn. lia.
Defined.

(** X15.  The count of unsuccessful moves in the entry of a run is the
    total over that run and all the runs before it: from one entry to the
    next it never goes down, and the last one is the total that the printed
    average divides by the number of runs. *)
Theorem unsuccessful_moves_accumulate_over_the_runs :
  forall (L : Library) (args : Simulation.Namespace)
         (inputs : nat -> Simulation.run_input)
         (entries : list Simulation.run_entry) (printed : list Q),
    Simulation.run_simulation args inputs = Ok (entries, printed) ->
    (forall j e1 e2,
        nth_error entries j = Some e1 -> nth_error entries (S j) = Some e2 ->
        (unsuccessful_of e1 <= unsuccessful_of e2)%nat) /\
    (forall e,
        nth_error entries (length entries - 1) = Some e ->
        nth_error printed 3
        = Some (Simulation.of_nat (unsuccessful_of e)
                / inject_Z (Simulation.simulations args))).
Proof.
  intros L args inputs entries printed H.
  destruct (run_simulation_ok _ _ _ _ H) as (t & Hloop & Hsum).
  destruct (run_loop_entries _ _ _ _ _ _ _ _ _ Hloop)
    as (new & Hnew & Hidx & _ & _ & Hmono & Hlast).
  cbn [app] in Hnew. subst new.
  split; [exact Hmono|].
  intros e He.
  assert (Hlen : length entries = Z.to_nat (Simulation.simulations args)).
  { rewrite <- (length_map run_index), Hidx, length_seq. reflexivity. }
  rewrite Hlen in He. rewrite (Hlast e He).
  apply (summary_ok _ _ _ Hsum).
Qed.

(** Two runs against the wall: the second move of each run is rejected. *)
Definition two_runs_at_the_wall : list Simulation.run_entry * list Q :=
  Eval vm_compute in
    match Simulation.run_simulation (L := Reference.library)
            (Simulation.mk_args 3 2 2 2 [] [((1 # 2, -1), (1 # 2, 1))] None)
            up_then_right with
    | Ok r => r
    | Raise _ => ([], [])
    end.

Lemma unsuccessful_moves_accumulate_over_the_runs_witness :
  (forall j e1 e2,
      nth_error (fst two_runs_at_the_wall) j = Some e1 ->
      nth_error (fst two_runs_at_the_wall) (S j) = Some e2 ->
      (unsuccessful_of e1 <= unsuccessful_of e2)%nat) /\
  (forall e,
      nth_error (fst two_runs_at_the_wall) (length (fst two_runs_at_the_wall) - 1)
      = Some e ->
      nth_error (snd two_runs_at_the_wall) 3
      = Some (Simulation.of_nat (unsuccessful_of e) / inject_Z 2)).
Proof.
  apply (unsuccessful_moves_accumulate_over_the_runs Reference.library
           (Simulation.mk_args 3 2 2 2 [] [((1 # 2, -1), (1 # 2, 1))] None)
           up_then_right (fst two_runs_at_the_wall) (snd two_runs_at_the_wall)).
  vm_compute. reflexivity.
Defined.

(** In that session the entries hold 1 and 2 unsuccessful moves, one per
    run added up. *)
Example two_runs_at_the_wall_counts :
  map unsuccessful_of (fst two_runs_at_the_wall) = [1; 2]%nat.
Proof. vm_compute. reflexivity. Qed.

(** The cutoff is none of the steps of a run. *)
Definition cutoff_out_of_range (args : Simulation.Namespace) : Prop :=
  (Simulation.n_steps args <= 0 \/ Simulation.steps args < Simulation.n_steps args)%Z.

Lemma run_loop_without_cutoff {L : Library} (args : Simulation.Namespace)
      (pl : Plane.t) (inputs : nat -> Simulation.run_input) (count : nat) :
  cutoff_out_of_range args ->
  forall i t t' multi multi',
    Simulation.run_loop args pl inputs count i (t, multi) = Ok (t', multi') ->
    Simulation.total_distance_from_origin t' = Simulation.total_distance_from_origin t /\
    Simulation.total_distance_from_x_axis t' = Simulation.total_distance_from_x_axis t /\
    Simulation.total_distance_from_y_axis t' = Simulation.total_distance_from_y_axis t /\
    exists new,
      multi' = multi ++ new /\
      forall e, In e new ->
        exists k,
          Simulation.avg_distance_from_origin_after_n_steps (run_record e)
          = Simulation.total_distance_from_origin t / Simulation.of_nat (k + 1) /\
          Simulation.avg_distance_from_x_axis_after_n_steps (run_record e)
          = Simulation.total_distance_from_x_axis t / Simulation.of_nat (k + 1) /\
          Simulation.avg_distance_from_y_axis_after_n_steps (run_record e)
          = Simulation.total_distance_from_y_axis t / Simulation.of_nat (k + 1).
Proof.
  intro Hout. induction count as [|count IH]; intros i t t' multi multi' H.
  - cbn in H. injection H as <- <-. repeat split. exists [].
    rewrite app_nil_r. split; [reflexivity | intros e []].
  - cbn [Simulation.run_loop] in H.
    destruct (Simulation.one_run args pl i (inputs i) (t, multi))
      as [[t1 multi1]|e] eqn:Hrun; [|discriminate H].
    cbn [bind] in H.
    destruct (one_run_totals _ _ _ _ _ _ _ _ Hrun)
      as (w & lf & tf & rs & _ & Hloop & Hmulti & Ho & Hx & Hy & _ & _ & Ao & Ax & Ay).
    assert (Htf : tf = t).
    { eapply step_loop_totals_away_from_cutoff; [|exact Hloop].
      intros k Hk. unfold cutoff_out_of_range in Hout. lia. }
    subst tf.
    destruct (IH _ _ _ _ _ H) as (Ho' & Hx' & Hy' & new & Hnew & Hall).
    split; [congruence|]. split; [congruence|]. split; [congruence|].
    exists (((i + 1)%nat, rs, Simulation.simulation_stats lf) :: new). split.
    + rewrite Hnew, Hmulti, <- app_assoc. reflexivity.
    + intros e [<-|Hin].
      * exists i. unfold run_record. cbn [fst snd].
        rewrite Ao, Ax, Ay, Ho, Hx, Hy. auto.
      * destruct (Hall e Hin) as (k & Eo & Ex & Ey). exists k.
        rewrite Eo, Ex, Ey, Ho, Hx, Hy. auto.
Qed.

Lemma zero_div (q : Q) : 0 / q == 0.
Proof. unfold Qdiv. ring. Qed.

(** X16.  When the cutoff is none of the steps of a run (below 1 or above
    the number of steps), no run is ever folded into the totals: the three
    averages after N steps are zero in every entry, and so are the three
    distance averages printed, whatever the walkers did. *)
Theorem cutoff_out_of_range_gives_zero_averages :
  forall (L : Library) (args : Simulation.Namespace)
         (inputs : nat -> Simulation.run_input)
         (entries : list Simulation.run_entry) (printed : list Q),
    cutoff_out_of_range args ->
    Simulation.run_simulation args inputs = Ok (entries, printed) ->
    (forall e, In e entries ->
       Simulation.avg_distance_from_origin_after_n_steps (run_record e) == 0 /\
       Simulation.avg_distance_from_x_axis_after_n_steps (run_record e) == 0 /\
       Simulation.avg_distance_from_y_axis_after_n_steps (run_record e) == 0) /\
    (forall k q, (k < 3)%nat -> nth_error printed k = Some q -> q == 0).
Proof.
  intros L args inputs entries printed Hout H.
  destruct (run_simulation_ok _ _ _ _ H) as (t & Hloop & Hsum).
  destruct (run_loop_without_cutoff _ _ _ _ Hout _ _ _ _ _ Hloop)
    as (Ho & Hx & Hy & new & Hnew & Hall).
  cbn [app] in Hnew. subst new. split.
  - intros e Hin. destruct (Hall e Hin) as (k & -> & -> & ->).
    cbn. repeat split; apply zero_div.
  - intros k q Hk Hq.
    destruct (summary_ok _ _ _ Hsum) as (_ & _ & P0 & P1 & P2 & _).
    rewrite Ho in P0. rewrite Hx in P1. rewrite Hy in P2.
    destruct k as [|[|[|k]]]; [| | |lia].
    + rewrite P0 in Hq. injection Hq as <-. apply zero_div.
    + rewrite P1 in Hq. injection Hq as <-. apply zero_div.
    + rewrite P2 in Hq. injection Hq as <-. apply zero_div.
Qed.

(** The session [free_at_cutoff] with the cutoff moved to 3, beyond its two
    steps. *)
Definition beyond_the_steps : list Simulation.run_entry * list Q :=
  Eval vm_compute in
    match Simulation.run_simulation (L := Reference.library)
            (Simulation.mk_args 3 2 1 3 [] [] None) up_then_right with
    | Ok r => r
    | Raise _ => ([], [])
    end.

Lemma cutoff_out_of_range_gives_zero_averages_witness :
  (forall e, In e (fst beyond_the_steps) ->
     Simulation.avg_distance_from_origin_after_n_steps (run_record e) == 0 /\
     Simulation.avg_distance_from_x_axis_after_n_steps (run_record e) == 0 /\
     Simulation.avg_distance_from_y_axis_after_n_steps (run_record e) == 0) /\
  (forall k q, (k < 3)%nat -> nth_error (snd beyond_the_steps) k = Some q -> q == 0).
Proof.
  apply (cutoff_out_of_range_gives_zero_averages Reference.library
           (Simulation.mk_args 3 2 1 3 [] [] None) up_then_right
           (fst beyond_the_steps) (snd beyond_the_steps)).
  - right. cbn. lia.
  - vm_compute. reflexivity.
Defined.

(** * The parsers of utils.py

    [parse_obstacle_coordinates] and [parse_portal_coordinates], from the
    list of numbers that [list(map(float, coord_str.split(',')))] gives;
    the conversion of the string is not modelled. *)

Module Parse.

Definition AMOUNT_OF_OBSTACLE_COORDINATES : nat := 4.
Definition AMOUNT_OF_PORTAL_COORDINATES : nat := 6.

(** [range(0, stop, step)] for a positive [step] *)
Definition range_by (stop step : nat) : list nat :=
  map (fun j => (j * step)%nat) (seq 0 ((stop + step - 1) / step)).

(** [coords[i]] for [i >= 0] *)
Definition item (coords : list Q) (i : nat) : result Q :=
  match nth_error coords i with
  | Some q => Ok q
  | None => Raise IndexError
  end.

(** [[f(i) for i in l]] *)
Fixpoint collect {A B : Type} (f : A -> result B) (l : list A) : result (list B) :=
  match l with
  | [] => Ok []
  | a :: l' =>
      b <- f a ;;
      bs <- collect f l' ;;
      Ok (b :: bs)
  end.

(** [parse_obstacle_coordinates] *)
Definition parse_obstacle_coordinates (coords : list Q)
  : result (list (point * point)) :=
  if negb (length coords mod AMOUNT_OF_OBSTACLE_COORDINATES =? 0)%nat
  then Raise ValueError
  else
    collect
      (fun i =>
         x1 <- item coords i ;;
         y1 <- item coords (i + 1) ;;
         x2 <- item coords (i + 2) ;;
         y2 <- item coords (i + 3) ;;
         Ok ((x1, y1), (x2, y2)))
      (range_by (length coords) AMOUNT_OF_OBSTACLE_COORDINATES).

(** [parse_portal_coordinates] *)
Definition parse_portal_coordinates (coords : list Q)
  : result (list (point * point * point)) :=
  if negb (length coords mod AMOUNT_OF_PORTAL_COORDINATES =? 0)%nat
  then Raise ValueError
  else
    collect
      (fun i =>
         x1 <- item coords i ;;
         y1 <- item coords (i + 1) ;;
         x2 <- item coords (i + 2) ;;
         y2 <- item coords (i + 3) ;;
         x3 <- item coords (i + 4) ;;
         y3 <- item coords (i + 5) ;;
         Ok ((x1, y1), (x2, y2), (x3, y3)))
      (range_by (length coords) AMOUNT_OF_PORTAL_COORDINATES).

End Parse.

(** The numbers of an obstacle and of a portal, in the order of the
    input. *)
Definition obstacle_numbers (o : point * point) : list Q :=
  [fst (fst o); snd (fst o); fst (snd o); snd (snd o)].
Definition portal_numbers (p : point * point * point) : list Q :=
  [fst (fst (fst p)); snd (fst (fst p)); fst (snd (fst p)); snd (snd (fst p));
   fst (snd p); snd (snd p)].

Lemma item_app (pre rest : list Q) (m j : nat) :
  length pre = m ->
  Parse.item (pre ++ rest) (m + j) = Parse.item rest j.
Proof.
  intros <-. unfold Parse.item. rewrite nth_error_app2 by lia.
  replace (length pre + j - length pre)%nat with j by lia. reflexivity.
Qed.

Lemma range_by_exact (n step : nat) :
  (0 < step)%nat ->
  Parse.range_by (n * step) step = map (fun j => (j * step)%nat) (seq 0 n).
Proof.
  intro H. unfold Parse.range_by.
  replace ((n * step + step - 1) / step)%nat with n; [reflexivity|].
  apply Nat.div_unique with (r := (step - 1)%nat); lia.
Qed.

Lemma collect_obstacles (n : nat) :
  forall (m : nat) (pre rest : list Q),
    length pre = (m * 4)%nat -> length rest = (n * 4)%nat ->
    exists l,
      Parse.collect
        (fun i =>
           x1 <- Parse.item (pre ++ rest) i ;;
           y1 <- Parse.item (pre ++ rest) (i + 1) ;;
           x2 <- Parse.item (pre ++ rest) (i + 2) ;;
           y2 <- Parse.item (pre ++ rest) (i + 3) ;;
           Ok ((x1, y1), (x2, y2)))
        (map (fun j => (j * 4)%nat) (seq m n)) = Ok l /\
      flat_map obstacle_numbers l = rest /\ length l = n.
Proof.
  induction n as [|n IH]; intros m pre rest Hpre Hrest.
  - exists []. destruct rest; [auto | discriminate Hrest].
  - destruct rest as [|a [|b [|c [|d rest]]]]; try discriminate Hrest.
    destruct (IH (S m) (pre ++ [a; b; c; d]) rest) as (l & Hl & Hflat & Hlen).
    { rewrite length_app, Hpre. cbn. lia. }
    { cbn in Hrest. lia. }
    exists (((a, b), (c, d)) :: l).
    cbn [seq map Parse.collect].
    replace (m * 4)%nat with (m * 4 + 0)%nat at 1 by lia.
    rewrite !(item_app pre _ (m * 4)) by exact Hpre.
    cbn [Parse.item nth_error bind].
    replace (pre ++ a :: b :: c :: d :: rest) with ((pre ++ [a; b; c; d]) ++ rest)
      by (rewrite <- app_assoc; reflexivity).
    rewrite Hl. cbn [bind]. split; [reflexivity|]. split.
    + cbn. rewrite Hflat. reflexivity.
    + cbn. rewrite Hlen. reflexivity.
Qed.

Lemma collect_portals (n : nat) :
  forall (m : nat) (pre rest : list Q),
    length pre = (m * 6)%nat -> length rest = (n * 6)%nat ->
    exists l,
      Parse.collect
        (fun i =>
           x1 <- Parse.item (pre ++ rest) i ;;
           y1 <- Parse.item (pre ++ rest) (i + 1) ;;
           x2 <- Parse.item (pre ++ rest) (i + 2) ;;
           y2 <- Parse.item (pre ++ rest) (i + 3) ;;
           x3 <- Parse.item (pre ++ rest) (i + 4) ;;
           y3 <- Parse.item (pre ++ rest) (i + 5) ;;
           Ok ((x1, y1), (x2, y2), (x3, y3)))
        (map (fun j => (j * 6)%nat) (seq m n)) = Ok l /\
      flat_map portal_numbers l = rest /\ length l = n.
Proof.
  induction n as [|n IH]; intros m pre rest Hpre Hrest.
  - exists []. destruct rest; [auto | discriminate Hrest].
  - destruct rest as [|a [|b [|c [|d [|e [|f rest]]]]]]; try discriminate Hrest.
    destruct (IH (S m) (pre ++ [a; b; c; d; e; f]) rest) as (l & Hl & Hflat & Hlen).
    { rewrite length_app, Hpre. cbn. lia. }
    { cbn in Hrest. lia. }
    exists (((a, b), (c, d), (e, f)) :: l).
    cbn [seq map Parse.collect].
    replace (m * 6)%nat with (m * 6 + 0)%nat at 1 by lia.
    rewrite !(item_app pre _ (m * 6)) by exact Hpre.
    cbn [Parse.item nth_error bind].
    replace (pre ++ a :: b :: c :: d :: e :: f :: rest)
      with ((pre ++ [a; b; c; d; e; f]) ++ rest)
      by (rewrite <- app_assoc; reflexivity).
    rewrite Hl. cbn [bind]. split; [reflexivity|]. split.
    + cbn. rewrite Hflat. reflexivity.
    + cbn. rewrite Hlen. reflexivity.
Qed.

(** X17.  [parse_obstacle_coordinates] raises exactly when the count of
    numbers is not a multiple of four, and then [ValueError]; otherwise it
    returns one obstacle for every four numbers, and the numbers of the
    obstacles, read in order, are the input: nothing is dropped, repeated
    or reordered, and no index is ever out of range. *)
Theorem parse_obstacle_coordinates_groups_by_four :
  forall (coords : list Q),
    (length coords mod 4 <> 0)%nat /\
    Parse.parse_obstacle_coordinates coords = Raise ValueError
    \/
    (length coords mod 4 = 0)%nat /\
    exists l,
      Parse.parse_obstacle_coordinates coords = Ok l /\
      flat_map obstacle_numbers l = coords /\
      (length l * 4)%nat = length coords.
Proof.
  intro coords. unfold Parse.parse_obstacle_coordinates,
    Parse.AMOUNT_OF_OBSTACLE_COORDINATES.
  destruct (Nat.eqb_spec (length coords mod 4) 0) as [E|E]; cbn [negb].
  - right. split; [exact E|].
    assert (Hlen : length coords = (length coords / 4 * 4)%nat).
    { pose proof (Nat.div_mod_eq (length coords) 4). lia. }
    replace (Parse.range_by (length coords) 4)
      with (Parse.range_by (length coords / 4 * 4) 4)
      by (rewrite <- Hlen; reflexivity).
    rewrite range_by_exact by lia.
    destruct (collect_obstacles (length coords / 4) 0 [] coords eq_refl Hlen)
      as (l & Hl & Hflat & Hn).
    exists l. cbn [app] in Hl. split; [exact Hl|]. split; [exact Hflat|].
    transitivity (length coords / 4 * 4)%nat;
      [f_equal; exact Hn | symmetry; exact Hlen].
  - left. auto.
Qed.

(** X18.  [parse_portal_coordinates] raises exactly when the count of
    numbers is not a multiple of six, and then [ValueError]; otherwise it
    returns one portal for every six numbers, and the numbers of the
    portals, read in order, are the input. *)
Theorem parse_portal_coordinates_groups_by_six :
  forall (coords : list Q),
    (length coords mod 6 <> 0)%nat /\
    Parse.parse_portal_coordinates coords = Raise ValueError
    \/
    (length coords mod 6 = 0)%nat /\
    exists l,
      Parse.parse_portal_coordinates coords = Ok l /\
      flat_map portal_numbers l = coords /\
      (length l * 6)%nat = length coords.
Proof.
  intro coords. unfold Parse.parse_portal_coordinates,
    Parse.AMOUNT_OF_PORTAL_COORDINATES.
  destruct (Nat.eqb_spec (length coords mod 6) 0) as [E|E]; cbn [negb].
  - right. split; [exact E|].
    assert (Hlen : length coords = (length coords / 6 * 6)%nat).
    { pose proof (Nat.div_mod_eq (length coords) 6). lia. }
    replace (Parse.range_by (length coords) 6)
      with (Parse.range_by (length coords / 6 * 6) 6)
      by (rewrite <- Hlen; reflexivity).
    rewrite range_by_exact by lia.
    destruct (collect_portals (length coords / 6) 0 [] coords eq_refl Hlen)
      as (l & Hl & Hflat & Hn).
    exists l. cbn [app] in Hl. split; [exact Hl|]. split; [exact Hflat|].
    transitivity (length coords / 6 * 6)%nat;
      [f_equal; exact Hn | symmetry; exact Hlen].
  - left. auto.
Qed.

(** X19.  Weights that [parse_weights] accepts are five and are kept as
    they are.  A weighted walker constructed with them draws its moves
    without raising exactly when they add up to more than zero and to less
    than the limit of the conversion to a float: five zeros pass the parser
    and make every draw raise [ValueError], and a total from the limit on
    makes every draw raise [OverflowError]. *)
Theorem parsed_weights_draw_when_their_total_is_in_range :
  forall (L : Library) (weights parsed : list Z) (d : Walker.draw),
    Utils.parse_weights weights = Ok parsed ->
    parsed = weights /\ length parsed = 5%nat /\
    exists w,
      Walker.init 4 parsed = Ok w /\
      (returns (Walker.get_next_move w d) <->
       (0 < fold_right Z.add 0 parsed < Walker.FLOAT_LIMIT)%Z) /\
      ((fold_right Z.add 0 parsed <= 0)%Z ->
       (- Walker.FLOAT_LIMIT < fold_right Z.add 0 parsed)%Z ->
       Walker.get_next_move w d = Raise ValueError) /\
      ((Walker.FLOAT_LIMIT <= Z.abs (fold_right Z.add 0 parsed))%Z ->
       Walker.get_next_move w d = Raise OverflowError).
Proof.
  intros L weights parsed d H. unfold Utils.parse_weights in H.
  destruct (Nat.eqb_spec (length weights) Utils.AMOUNT_OF_WEIGHTS) as [E|E];
    cbn [negb] in H; [|discriminate H].
  injection H as <-. split; [reflexivity|]. split; [exact E|].
  eexists. split; [reflexivity|].
  unfold Walker.get_next_move. cbn [Walker.walker_type Walker.weights Z.eqb Pos.eqb
    Walker.NORMAL_WALKER Walker.UNEVEN_STEP_WALKER Walker.DISCRETE_WALKER
    Walker.UNEVEN_DISTRIBUTION_WALKER].
  rewrite E. cbn [length Utils.AMOUNT_OF_WEIGHTS Nat.eqb negb].
  destruct (Walker.too_large_for_float (fold_right Z.add 0%Z weights)) eqn:Et.
  - apply too_large_for_float_spec in Et. split; [|split].
    + split; [intros [m Hm]; discriminate Hm | lia].
    + lia.
    + reflexivity.
  - apply not_too_large_for_float in Et.
    destruct (Z.leb_spec (fold_right Z.add 0%Z weights) 0%Z) as [Hle|Hgt].
    + split; [|split].
      * split; [intros [m Hm]; discriminate Hm | lia].
      * reflexivity.
      * lia.
    + split; [|split].
      * split; [intros _; lia | intros _; eexists; reflexivity].
      * lia.
      * lia.
Qed.

Lemma parsed_weights_draw_when_their_total_is_in_range_witness :
  [0; 0; 0; 0; 0]%Z = [0; 0; 0; 0; 0]%Z /\ length [0; 0; 0; 0; 0]%Z = 5%nat /\
  exists w,
    Walker.init 4 [0; 0; 0; 0; 0]%Z = Ok w /\
    (returns (Walker.get_next_move (L := Reference.library) w (Walker.mk_draw 0 1 2))
     <-> (0 < fold_right Z.add 0 [0; 0; 0; 0; 0] < Walker.FLOAT_LIMIT)%Z) /\
    ((fold_right Z.add 0 [0; 0; 0; 0; 0] <= 0)%Z ->
     (- Walker.FLOAT_LIMIT < fold_right Z.add 0 [0; 0; 0; 0; 0])%Z ->
     Walker.get_next_move (L := Reference.library) w (Walker.mk_draw 0 1 2)
     = Raise ValueError) /\
    ((Walker.FLOAT_LIMIT <= Z.abs (fold_right Z.add 0 [0; 0; 0; 0; 0]))%Z ->
     Walker.get_next_move (L := Reference.library) w (Walker.mk_draw 0 1 2)
     = Raise OverflowError).
Proof.
  apply (parsed_weights_draw_when_their_total_is_in_range Reference.library
           [0; 0; 0; 0; 0]%Z [0; 0; 0; 0; 0]%Z (Walker.mk_draw 0 1 2)).
  reflexivity.
Defined.

(** The draw of a walker whose parsed weights add up to 10^400 raises
    [OverflowError]. *)
Example heavy_weights_overflow :
  Utils.parse_weights [10 ^ 400; 1; 1; 1; 1]%Z = Ok [10 ^ 400; 1; 1; 1; 1]%Z /\
  Walker.get_next_move (L := Reference.library) heavy (Walker.mk_draw 0 1 2)
  = Raise OverflowError.
Proof. split; vm_compute; reflexivity. Qed.

(** * main.py: the averages that are plotted, and the check of the cutoff *)

Module Main.

(** A dictionary of [total_stats], with its three keys at 0. *)
Definition zero_stats : Simulation.step_stats := Simulation.mk_step_stats 0 0 0.

(** [total[stat_name] += stats[stat_name]] for the three names of
    [stats]. *)
Definition add_stats (total stats : Simulation.step_stats) : Simulation.step_stats :=
  Simulation.mk_step_stats
    (Simulation.avg_distance_from_x_axis total + Simulation.avg_distance_from_x_axis stats)
    (Simulation.avg_distance_from_y_axis total + Simulation.avg_distance_from_y_axis stats)
    (Simulation.avg_distance_from_origin total + Simulation.avg_distance_from_origin stats).

(** The place in a list of length [len] that the index [z] names: from the
    end when [z] is negative. *)
Definition position (len : nat) (z : Z) : result nat :=
  if (0 <=? z)%Z then
    if (z <? Z.of_nat len)%Z then Ok (Z.to_nat z) else Raise IndexError
  else
    if (- Z.of_nat len <=? z)%Z then Ok (Z.to_nat (Z.of_nat len + z))
    else Raise IndexError.

Fixpoint replace_at {A : Type} (l : list A) (k : nat) (a : A) : list A :=
  match l, k with
  | [], _ => []
  | _ :: l', O => a :: l'
  | b :: l', S k' => b :: replace_at l' k' a
  end.

(** Lines 52-53, for one record [(i, stats)]. *)
Definition add_record (total_stats : list Simulation.step_stats)
           (record : nat * Simulation.step_stats)
  : result (list Simulation.step_stats) :=
  k <- position (length total_stats) (Z.of_nat (fst record) - 1) ;;
  match nth_error total_stats k with
  | Some total => Ok (replace_at total_stats k (add_stats total (snd record)))
  | None => Raise IndexError
  end.

(** Lines 49-53: the records of one run. *)
Fixpoint add_records (total_stats : list Simulation.step_stats)
         (simulation_stats : list (nat * Simulation.step_stats))
  : result (list Simulation.step_stats) :=
  match simulation_stats with
  | [] => Ok total_stats
  | record :: rest =>
      total_stats' <- add_record total_stats record ;;
      add_records total_stats' rest
  end.

(** Lines 47-53: all the runs. *)
Fixpoint add_runs (total_stats : list Simulation.step_stats)
         (multi_simulation_stats : list Simulation.run_entry)
  : result (list Simulation.step_stats) :=
  match multi_simulation_stats with
  | [] => Ok total_stats
  | (_, _, simulation_stats) :: rest =>
      total_stats' <- add_records total_stats simulation_stats ;;
      add_runs total_stats' rest
  end.

(** Lines 56-57, for one dictionary. *)
Definition average (count : nat) (total : Simulation.step_stats)
  : result Simulation.step_stats :=
  x <- Simulation.div (Simulation.avg_distance_from_x_axis total) (Simulation.of_nat count) ;;
  y <- Simulation.div (Simulation.avg_distance_from_y_axis total) (Simulation.of_nat count) ;;
  o <- Simulation.div (Simulation.avg_distance_from_origin total) (Simulation.of_nat count) ;;
  Ok (Simulation.mk_step_stats x y o).

(** Lines 42-57 of [plot_graph]: [avg_stats], the averages it plots. *)
Definition avg_stats (multi_simulation_stats : list Simulation.run_entry)
  : result (list Simulation.step_stats) :=
  match multi_simulation_stats with
  | [] => Raise IndexError                 (* [multi_simulation_stats[0]] *)
  | (_, _, first) :: _ =>
      total_stats <- add_runs (repeat zero_stats (length first)) multi_simulation_stats ;;
      Parse.collect (average (length multi_simulation_stats)) total_stats
  end.

(** [args.n_steps not in range(1, args.steps + 1)] *)
Definition invalid_n_steps (args : Simulation.Namespace) : bool :=
  negb ((1 <=? Simulation.n_steps args)%Z
        && (Simulation.n_steps args <? Simulation.steps args + 1)%Z).

(** [main], after the arguments are parsed: [None] when it stops at the
    check of the cutoff, else the list of [run_simulation] with the averages
    of [plot_graph]. *)
Definition main {L : Library} (args : Simulation.Namespace)
           (inputs : nat -> Simulation.run_input)
  : result (option (list Simulation.run_entry * list Simulation.step_stats)) :=
  if invalid_n_steps args then Ok None
  else
    r <- Simulation.run_simulation args inputs ;;
    averages <- avg_stats (fst r) ;;
    Ok (Some (fst r, averages)).

End Main.

(** ** The averages of [plot_graph] *)

Definition records_of (e : Simulation.run_entry) : list (nat * Simulation.step_stats) :=
  snd e.

(** The records of a run are keyed 1, 2, ... as [run_simulation] keys
    them. *)
Definition keyed_from_one (e : Simulation.run_entry) : Prop :=
  map fst (records_of e) = seq 1 (length (records_of e)).

(** The totals with the records added place by place; the totals beyond
    the records stay. *)
Fixpoint add_pointwise (total stats : list Simulation.step_stats)
  : list Simulation.step_stats :=
  match total, stats with
  | d :: total', s :: stats' => Main.add_stats d s :: add_pointwise total' stats'
  | _, [] => total
  | [], _ => []
  end.

(** The sum, over the runs in order, of their records at place [k]; a run
    without a record there adds nothing. *)
Definition sum_at (multi : list Simulation.run_entry) (k : nat)
           (start : Simulation.step_stats) : Simulation.step_stats :=
  fold_left
    (fun acc e =>
       match nth_error (map snd (records_of e)) k with
       | Some s => Main.add_stats acc s
       | None => acc
       end)
    multi start.

(** A dictionary of totals divided by the number of runs. *)
Definition mean (runs : nat) (total : Simulation.step_stats) : Simulation.step_stats :=
  Simulation.mk_step_stats
    (Simulation.avg_distance_from_x_axis total / Simulation.of_nat runs)
    (Simulation.avg_distance_from_y_axis total / Simulation.of_nat runs)
    (Simulation.avg_distance_from_origin total / Simulation.of_nat runs).

Lemma position_of_key (len s : nat) :
  Main.position len (Z.of_nat (s + 1) - 1)
  = if (s <? len)%nat then Ok s else Raise IndexError.
Proof.
  unfold Main.position.
  replace (Z.of_nat (s + 1) - 1)%Z with (Z.of_nat s) by lia.
  replace (0 <=? Z.of_nat s)%Z with true by (symmetry; apply Z.leb_le; lia).
  destruct (Nat.ltb_spec s len) as [H|H].
  - replace (Z.of_nat s <? Z.of_nat len)%Z with true
      by (symmetry; apply Z.ltb_lt; lia).
    rewrite Nat2Z.id. reflexivity.
  - replace (Z.of_nat s <? Z.of_nat len)%Z with false
      by (symmetry; apply Z.ltb_ge; lia).
    reflexivity.
Qed.

Lemma replace_at_app {A : Type} (pre : list A) :
  forall (suf : list A) (d a : A),
    Main.replace_at (pre ++ d :: suf) (length pre) a = pre ++ a :: suf.
Proof.
  induction pre as [|b pre IH]; intros suf d a; cbn; [reflexivity|].
  rewrite IH. reflexivity.
Qed.

Lemma length_add_pointwise (total : list Simulation.step_stats) :
  forall stats, length (add_pointwise total stats) = length total.
Proof.
  induction total as [|d total IH]; intros [|s stats]; cbn; try reflexivity.
  rewrite IH. reflexivity.
Qed.

(** The records of one run, keyed in sequence, are added place by place,
    and an index is out of range exactly when the run has more records
    than there are totals. *)
Lemma add_records_keyed (records : list (nat * Simulation.step_stats)) :
  forall pre suf,
    map fst records = seq (length pre + 1) (length records) ->
    Main.add_records (pre ++ suf) records
    = if (length records <=? length suf)%nat
      then Ok (pre ++ add_pointwise suf (map snd records))
      else Raise IndexError.
Proof.
  induction records as [|[i st] records IH]; intros pre suf Hkeys.
  - cbn. destruct suf; reflexivity.
  - cbn [map length seq fst] in Hkeys. injection Hkeys as -> Hkeys.
    cbn [Main.add_records]. unfold Main.add_record. cbn [fst snd].
    rewrite position_of_key, length_app.
    destruct suf as [|d suf].
    + replace (length pre <? length pre + length (@nil Simulation.step_stats))%nat
        with false by (symmetry; apply Nat.ltb_ge; cbn; lia).
      reflexivity.
    + replace (length pre <? length pre + length (d :: suf))%nat with true
        by (symmetry; apply Nat.ltb_lt; cbn; lia).
      cbn [bind]. rewrite nth_error_app2 by lia. rewrite Nat.sub_diag.
      cbn [nth_error]. rewrite replace_at_app. cbn [bind].
      replace (pre ++ Main.add_stats d st :: suf)
        with ((pre ++ [Main.add_stats d st]) ++ suf)
        by (rewrite <- app_assoc; reflexivity).
      rewrite IH.
      * cbn [length map add_pointwise Nat.leb].
        destruct (length records <=? length suf)%nat; [|reflexivity].
        rewrite <- app_assoc. reflexivity.
      * rewrite length_app. cbn [length].
        replace (length pre + 1 + 1)%nat with (S (length pre + 1)) by lia.
        exact Hkeys.
Qed.

Lemma add_records_from_one (total : list Simulation.step_stats)
      (e : Simulation.run_entry) :
  keyed_from_one e ->
  Main.add_records total (records_of e)
  = if (length (records_of e) <=? length total)%nat
    then Ok (add_pointwise total (map snd (records_of e)))
    else Raise IndexError.
Proof.
  intro H. apply (add_records_keyed (records_of e) [] total). exact H.
Qed.

Lemma add_runs_keyed (multi : list Simulation.run_entry) :
  forall total,
    (forall e, In e multi -> keyed_from_one e) ->
    ((forall e, In e multi -> (length (records_of e) <= length total)%nat) ->
     Main.add_runs total multi
     = Ok (fold_left (fun t e => add_pointwise t (map snd (records_of e))) multi total))
    /\
    ((exists e, In e multi /\ (length total < length (records_of e))%nat) ->
     Main.add_runs total multi = Raise IndexError).
Proof.
  induction multi as [|e multi IH]; intros total Hkeys.
  - split; [reflexivity | intros (e & [] & _)].
  - assert (Hrec : Main.add_runs total (e :: multi)
                   = (total' <- Main.add_records total (records_of e) ;;
                      Main.add_runs total' multi)).
    { destruct e as [[i rs] records]. reflexivity. }
    rewrite Hrec, (add_records_from_one total e (Hkeys e (or_introl eq_refl))).
    destruct (IH (add_pointwise total (map snd (records_of e)))
                (fun e' H => Hkeys e' (or_intror H))) as [IHok IHraise].
    rewrite length_add_pointwise in IHok, IHraise.
    split.
    + intro Hall.
      replace (length (records_of e) <=? length total)%nat with true
        by (symmetry; apply Nat.leb_le; apply Hall; left; reflexivity).
      cbn [bind fold_left]. apply IHok. intros e' H. apply Hall. right. exact H.
    + intros (e' & Hin & Hlong).
      destruct (Nat.leb_spec (length (records_of e)) (length total)) as [Hle|Hgt];
        [|reflexivity].
      cbn [bind]. apply IHraise. destruct Hin as [<-|Hin]; [lia|].
      exists e'. auto.
Qed.

Lemma collect_average (runs : nat) (total : list Simulation.step_stats) :
  Parse.collect (Main.average (runs + 1)) total = Ok (map (mean (runs + 1)) total).
Proof.
  induction total as [|d total IH]; cbn [Parse.collect map]; [reflexivity|].
  unfold Main.average at 1. rewrite !div_of_nat_succ. cbn [bind].
  rewrite IH. reflexivity.
Qed.

Lemma nth_add_pointwise (total : list Simulation.step_stats) :
  forall stats k,
    nth_error (add_pointwise total stats) k
    = match nth_error total k with
      | Some d => Some (match nth_error stats k with
                        | Some s => Main.add_stats d s
                        | None => d
                        end)
      | None => None
      end.
Proof.
  induction total as [|d total IH]; intros [|s stats] [|k]; cbn; try reflexivity.
  - destruct (nth_error total k); reflexivity.
  - apply IH.
Qed.

Lemma nth_fold_add_pointwise (multi : list Simulation.run_entry) :
  forall total k,
    nth_error
      (fold_left (fun t e => add_pointwise t (map snd (records_of e))) multi total) k
    = option_map (sum_at multi k) (nth_error total k).
Proof.
  induction multi as [|e multi IH]; intros total k; cbn [fold_left].
  - destruct (nth_error total k); reflexivity.
  - rewrite IH, nth_add_pointwise. unfold sum_at. cbn [fold_left].
    destruct (nth_error total k); reflexivity.
Qed.

(** X20.  The averages of [plot_graph] are sized by the records of the
    first run: with an empty list, or as soon as a later run has more
    records than the first, the computation raises [IndexError]; otherwise
    it returns one dictionary per record of the first run. *)
Theorem plot_averages_fail_when_a_run_outlasts_the_first :
  Main.avg_stats [] = Raise IndexError /\
  forall (first : Simulation.run_entry) (rest : list Simulation.run_entry),
    (forall e, In e (first :: rest) -> keyed_from_one e) ->
    ((exists e, In e rest /\ (length (records_of first) < length (records_of e))%nat) ->
     Main.avg_stats (first :: rest) = Raise IndexError) /\
    ((forall e, In e rest ->
                (length (records_of e) <= length (records_of first))%nat) ->
     exists averages,
       Main.avg_stats (first :: rest) = Ok averages /\
       length averages = length (records_of first)).
Proof.
  split; [reflexivity|]. intros first rest Hkeys.
  assert (Havg : Main.avg_stats (first :: rest)
                 = (total <- Main.add_runs
                               (repeat Main.zero_stats (length (records_of first)))
                               (first :: rest) ;;
                    Parse.collect (Main.average (length (first :: rest))) total)).
  { destruct first as [[i rs] records]. reflexivity. }
  rewrite Havg.
  destruct (add_runs_keyed (first :: rest)
              (repeat Main.zero_stats (length (records_of first))) Hkeys)
    as [Hok Hraise].
  rewrite repeat_length in Hok, Hraise. split.
  - intros (e & Hin & Hlong). rewrite Hraise; [reflexivity|].
    exists e. split; [right; exact Hin | exact Hlong].
  - intro Hall. rewrite Hok.
    + cbn [bind]. replace (length (first :: rest)) with (length rest + 1)%nat
        by (cbn; lia).
      rewrite collect_average. eexists. split; [reflexivity|].
      rewrite length_map.
      assert (Hlen : forall (m : list Simulation.run_entry) t,
                 length (fold_left
                           (fun t e => add_pointwise t (map snd (records_of e))) m t)
                 = length t).
      { induction m as [|e m IHm]; intro t; cbn [fold_left]; [reflexivity|].
        rewrite IHm. apply length_add_pointwise. }
      rewrite Hlen. apply repeat_length.
    + intros e [<-|Hin]; [lia | apply Hall; exact Hin].
Qed.

(** The two runs of [two_runs_at_the_wall], and a run of three steps after
    a run of two. *)
Definition wall_first : Simulation.run_entry :=
  Eval vm_compute in
    hd (0%nat, Simulation.mk_run_stats 0 None 0 0 0 0 0, []) (fst two_runs_at_the_wall).
Definition wall_rest : list Simulation.run_entry :=
  Eval vm_compute in tl (fst two_runs_at_the_wall).
Definition longer_run : Simulation.run_entry :=
  Eval vm_compute in
    hd (0%nat, Simulation.mk_run_stats 0 None 0 0 0 0 0, []) (snd through_the_gate).

Lemma wall_runs_keyed :
  forall e, In e (wall_first :: wall_rest) -> keyed_from_one e.
Proof.
  intros e [<-|[<-|[]]]; vm_compute; reflexivity.
Defined.

Lemma plot_averages_fail_when_a_run_outlasts_the_first_witness :
  Main.avg_stats [wall_first; longer_run] = Raise IndexError /\
  exists averages,
    Main.avg_stats (wall_first :: wall_rest) = Ok averages /\
    length averages = length (records_of wall_first).
Proof.
  split.
  - apply (proj2 plot_averages_fail_when_a_run_outlasts_the_first
             wall_first [longer_run]).
    + intros e [<-|[<-|[]]]; vm_compute; reflexivity.
    + exists longer_run. split; [left; reflexivity | vm_compute; lia].
  - apply (proj2 plot_averages_fail_when_a_run_outlasts_the_first
             wall_first wall_rest wall_runs_keyed).
    intros e [<-|[]]. vm_compute. lia.
Defined.

(** X21.  When no run has more records than the first, the average that
    [plot_graph] plots for a step is the sum of the records of that step
    over the runs that reached it, divided by the number of all the runs,
    those that ended earlier included. *)
Theorem plot_averages_divide_by_all_the_runs :
  forall (multi : list Simulation.run_entry) (first : Simulation.run_entry)
         (rest : list Simulation.run_entry),
    multi = first :: rest ->
    (forall e, In e multi -> keyed_from_one e) ->
    (forall e, In e rest -> (length (records_of e) <= length (records_of first))%nat) ->
    exists averages,
      Main.avg_stats multi = Ok averages /\
      forall k, (k < length (records_of first))%nat ->
        nth_error averages k
        = Some (mean (length multi) (sum_at multi k Main.zero_stats)).
Proof.
  intros multi first rest -> Hkeys Hall.
  assert (Havg : Main.avg_stats (first :: rest)
                 = (total <- Main.add_runs
                               (repeat Main.zero_stats (length (records_of first)))
                               (first :: rest) ;;
                    Parse.collect (Main.average (length (first :: rest))) total)).
  { destruct first as [[i rs] records]. reflexivity. }
  rewrite Havg.
  destruct (add_runs_keyed (first :: rest)
              (repeat Main.zero_stats (length (records_of first))) Hkeys)
    as [Hok _].
  rewrite repeat_length in Hok. rewrite Hok.
  - cbn [bind]. replace (length (first :: rest)) with (length rest + 1)%nat
      by (cbn; lia).
    rewrite collect_average. eexists. split; [reflexivity|].
    intros k Hk. rewrite nth_error_map, nth_fold_add_pointwise.
    rewrite (nth_error_repeat Main.zero_stats Hk). reflexivity.
  - intros e [<-|Hin]; [lia | apply Hall; exact Hin].
Qed.

Lemma plot_averages_divide_by_all_the_runs_witness :
  exists averages,
    Main.avg_stats (wall_first :: wall_rest) = Ok averages /\
    forall k, (k < length (records_of wall_first))%nat ->
      nth_error averages k
      = Some (mean (length (wall_first :: wall_rest))
                (sum_at (wall_first :: wall_rest) k Main.zero_stats)).
Proof.
  apply (plot_averages_divide_by_all_the_runs (wall_first :: wall_rest)
           wall_first wall_rest eq_refl wall_runs_keyed).
  intros e [<-|[]]. vm_compute. lia.
Defined.

(** ** The check of the cutoff in [main] *)

Lemma div_nonzero (a b : Q) : ~ b == 0 -> Simulation.div a b = Ok (a / b).
Proof.
  intro H. unfold Simulation.div.
  replace (Qeq_bool b 0) with false; [reflexivity|].
  symmetry. apply Qeq_bool_false. exact H.
Qed.

Lemma invalid_n_steps_out_of_range (args : Simulation.Namespace) :
  Main.invalid_n_steps args = true <-> cutoff_out_of_range args.
Proof.
  unfold Main.invalid_n_steps, cutoff_out_of_range.
  rewrite negb_true_iff, andb_false_iff, Z.leb_gt, Z.ltb_ge. lia.
Qed.

(** X22.  [main] runs nothing when the cutoff is not one of the steps.
    Past the check it never stops quietly, and the check lets the number of
    runs through: with a cutoff in range, no run makes [main] fail with
    [ZeroDivisionError] in [run_simulation], and a negative number of runs
    makes it fail with [IndexError] in [plot_graph], on the first entry of an
    empty list. *)
Theorem main_checks_the_cutoff_but_not_the_runs :
  forall (L : Library) (args : Simulation.Namespace)
         (inputs : nat -> Simulation.run_input),
    (cutoff_out_of_range args -> Main.main args inputs = Ok None) /\
    (~ cutoff_out_of_range args ->
     Main.main args inputs <> Ok None /\
     (Simulation.simulations args = 0%Z ->
      Main.main args inputs = Raise ZeroDivisionError) /\
     ((Simulation.simulations args < 0)%Z ->
      Main.main args inputs = Raise IndexError)).
Proof.
  intros L args inputs. unfold Main.main. split.
  - intro Hout. apply invalid_n_steps_out_of_range in Hout. rewrite Hout. reflexivity.
  - intro Hin.
    assert (Hvalid : Main.invalid_n_steps args = false).
    { destruct (Main.invalid_n_steps args) eqn:E; [|reflexivity].
      apply invalid_n_steps_out_of_range in E. contradiction. }
    rewrite Hvalid. split; [|split].
    + intro H.
      destruct (Simulation.run_simulation args inputs) as [r|e]; [|discriminate H].
      cbn [bind] in H. destruct (Main.avg_stats (fst r)); discriminate H.
    + intro Hzero.
      rewrite (run_simulation_divides_by_zero_runs args inputs Hzero). reflexivity.
    + intro Hneg.
      assert (Hsteps : (1 <= Simulation.steps args)%Z).
      { unfold cutoff_out_of_range in Hin. lia. }
      unfold Simulation.run_simulation.
      replace (Z.to_nat (Simulation.simulations args)) with 0%nat by lia.
      cbn [Simulation.run_loop bind fst snd]. unfold Simulation.summary.
      assert (Hn : ~ inject_Z (Simulation.steps args * Simulation.simulations args) == 0)
        by (intro E; apply inject_Z_zero in E; nia).
      assert (Hk : ~ inject_Z (Simulation.simulations args) == 0)
        by (intro E; apply inject_Z_zero in E; lia).
      rewrite !(div_nonzero _ _ Hn), (div_nonzero _ _ Hk). cbn [bind].
      replace (1 <? Simulation.simulations args)%Z with false
        by (symmetry; apply Z.ltb_ge; lia).
      reflexivity.
Qed.

Lemma main_checks_the_cutoff_but_not_the_runs_witness :
  Main.main (L := Reference.library)
    (Simulation.mk_args 3 2 1 3 [] [] None) up_then_right = Ok None /\
  Main.main (L := Reference.library)
    (Simulation.mk_args 3 2 0 2 [] [] None) up_then_right
  = Raise ZeroDivisionError /\
  Main.main (L := Reference.library)
    (Simulation.mk_args 3 2 (-1) 2 [] [] None) up_then_right
  = Raise IndexError.
Proof.
  split; [|split].
  - apply (main_checks_the_cutoff_but_not_the_runs Reference.library
             (Simulation.mk_args 3 2 1 3 [] [] None) up_then_right).
    unfold cutoff_out_of_range. cbn. lia.
  - apply (main_checks_the_cutoff_but_not_the_runs Reference.library
             (Simulation.mk_args 3 2 0 2 [] [] None) up_then_right).
    + unfold cutoff_out_of_range. cbn. lia.
    + reflexivity.
  - apply (main_checks_the_cutoff_but_not_the_runs Reference.library
             (Simulation.mk_args 3 2 (-1) 2 [] [] None) up_then_right).
    + unfold cutoff_out_of_range. cbn. lia.
    + cbn. lia.
Defined.
